(** * market-system: the streaming pipeline

    A shallow embedding of the parts of the market-data pipeline that the
    specification makes claims about, followed by the properties proved of
    them.

    - [merger]    services/collector/internal/merger/merger.go
    - [utils]     common/utils (kline boundary arithmetic, JSON)
    - [storage]   services/processor/internal/storage/redis.go
    - [handler]   services/processor/internal/handler (depth.go, kline.go)
    - [websocket] services/api/internal/websocket (client.go, hub.go,
                  subscription.go, broadcaster.go)
    - [sort], [time]  what the code above uses of Go's standard library
    - [okx]       services/collector/internal/adapters (the OKX adapter:
                  symbols, subscriptions, reconnection)
    - [api]       services/api/internal/logic/market (the depth endpoint)
    - [helper]    common/utils/helper.go
    - [shutdown]  services/api/internal/websocket/hub.go (closeAllClients)
    - [strings], [duration]  what the adapters use of Go's [strings] and
                  [time.Duration]

    Conventions.
    - [float64] is IEEE binary64, Rocq's primitive [float]; Go's [<], [>],
      [+] and [*] on float64 are [PrimFloat.ltb], [PrimFloat.add], ...
    - [int64] Unix-millisecond values and [int] lengths are [Z].  The values
      computed from a clock reading or a length stay far from the 64-bit
      limits; the kline boundaries are computed from a timestamp the caller
      supplies, and there the results of [Time.UnixMilli()] and of the
      subtraction wrap as Go's int64 does ([wrap64]).
    - a Go pointer that may be nil is an [option]; a Go map is a [gmap], a
      map used as a set ([map[K]bool] that only ever stores [true]) a [gset].
    - [time.Now()] is read from an explicit [World]: the sequence of readings
      the system clock will return, consumed one per call.
    - code that writes to a store or to a channel takes the state before and
      returns the state after. *)

From Stdlib Require Import ZArith Lia Bool List Sorted Permutation Floats.
From stdpp Require Import base option list gmap sets strings.

Open Scope string_scope.
Open Scope list_scope.
Open Scope Z_scope.

(** ** float64 *)

Abbreviation float64 := PrimFloat.float.

(** Go's [a > b] and [a >= b] on float64. *)
Definition f64_gtb (a b : float64) : bool := PrimFloat.ltb b a.
Definition f64_geb (a b : float64) : bool := PrimFloat.leb b a.

(** Two float64 values are the same number when they are identical or when
    Go's [==] holds between them (it identifies the two zeros). *)
Definition f64_same (x y : float64) : Prop := x = y \/ PrimFloat.eqb x y = true.

(** ** int64 *)

Definition int64_min : Z := -9223372036854775808.
Definition int64_max : Z := 9223372036854775807.

(** The int64 that Go's arithmetic leaves when the exact result is [x]:
    [x] reduced modulo 2^64 into the int64 range. *)
Definition wrap64 (x : Z) : Z :=
  (x + 9223372036854775808) mod 18446744073709551616 - 9223372036854775808.

(** ** The system clock *)

Record World := mkWorld {
  readings : nat -> Z;   (* the n-th value time.Now().UnixMilli() returns *)
  ticks : nat            (* how many readings were taken so far *)
}.

(** Computations that read the clock. *)
Definition Timed (A : Type) : Type := World -> A * World.

#[global] Instance Timed_ret : MRet Timed := fun A (a : A) w => (a, w).
#[global] Instance Timed_bind : MBind Timed :=
  fun A B (f : A -> Timed B) (m : Timed A) w => let '(a, w') := m w in f a w'.

(** [time.Now().UnixMilli()] *)
Definition time_Now_UnixMilli : Timed Z :=
  fun w => (readings w (ticks w), mkWorld (readings w) (S (ticks w))).

(** ** common/constants/constants.go *)

Module constants.
Definition DataTypeTicker := "ticker".
Definition DataTypeDepth := "depth".
Definition DataTypeTrade := "trade".
Definition DataTypeKline := "kline".

Definition Interval1m := "1m".
Definition Interval5m := "5m".
Definition Interval15m := "15m".
Definition Interval30m := "30m".
Definition Interval1h := "1h".
Definition Interval4h := "4h".
Definition Interval1d := "1d".

Definition RedisKeyTicker := "ticker:".
Definition RedisKeyDepth := "depth:".
Definition RedisKeyKline := "kline:".
Definition RedisKeyTrade := "trade:".
Definition RedisChannelMarket := "market:".   (* market:{symbol}:{type} *)

Definition Second : Z := 1000.
Definition Minute : Z := 60 * Second.
Definition Hour : Z := 60 * Minute.
Definition Day : Z := 24 * Hour.

Definition MaxSubscriptionsPerConn : Z := 20.  (* max subscriptions per connection *)
Definition DefaultDepthLevel : Z := 20.
Definition MaxDepthLevel : Z := 100.

Definition SourceInternal := "internal".
Definition SourceExternal := "external".
Definition SourceMerged := "merged".

Definition ModeInternalOnly := "INTERNAL_ONLY".
Definition ModeExternalOnly := "EXTERNAL_ONLY".
Definition ModeHybrid := "HYBRID".

Definition MergeStrategyPriority := "priority".
Definition MergeStrategySupplement := "supplement".
Definition MergeStrategyOverride := "override".

Definition DataFreshnessThreshold : Z := 5 * Second.
End constants.

(** ** common/models/models.go

    One module per struct, so that the fields keep their Go names. *)

Module Ticker.
Record t := mk {
  Symbol : string;
  LastPrice : float64;
  BidPrice : float64;
  AskPrice : float64;
  High24h : float64;
  Low24h : float64;
  Volume24h : float64;
  Timestamp : Z
}.
End Ticker.

Module Trade.
Record t := mk {
  Symbol : string;
  TradeID : string;
  Price : float64;
  Amount : float64;
  Side : string;
  Timestamp : Z
}.
End Trade.

Module Kline.
Record t := mk {
  Symbol : string;
  Interval : string;
  OpenTime : Z;
  CloseTime : Z;
  Open : float64;
  High : float64;
  Low : float64;
  Close : float64;
  Volume : float64;
  QuoteVol : float64;
  TradeNum : Z
}.
End Kline.

Module PriceLevel.
Record t := mk { Price : float64; Amount : float64 }.
End PriceLevel.

Module OrderBook.
Record t := mk {
  Symbol : string;
  Bids : list PriceLevel.t;
  Asks : list PriceLevel.t;
  Timestamp : Z
}.
End OrderBook.

Module SymbolConfig.
Record t := mk {
  Symbol : string;
  Mode : string;
  PrimarySource : string;
  ExternalSource : string;
  MergeStrategy : string;
  Enable : bool;
  Description : string
}.
End SymbolConfig.

Module PriceLevelWithSource.
Record t := mk { Price : float64; Amount : float64; Source : string }.
End PriceLevelWithSource.

Module OrderBookWithSource.
Record t := mk {
  Symbol : string;
  Bids : list PriceLevelWithSource.t;
  Asks : list PriceLevelWithSource.t;
  InternalBidsCount : Z;
  ExternalBidsCount : Z;
  InternalAsksCount : Z;
  ExternalAsksCount : Z;
  Timestamp : Z
}.
End OrderBookWithSource.

Module TickerWithSource.
Record t := mk {
  Symbol : string;
  LastPrice : float64;
  LastPriceSource : string;
  BidPrice : float64;
  AskPrice : float64;
  High24h : float64;
  Low24h : float64;
  InternalVolume24h : float64;
  ExternalVolume24h : float64;
  TotalVolume24h : float64;
  Timestamp : Z
}.
End TickerWithSource.

(** [MarketData.Data] is an [interface{}]: the dynamic type of the payload is
    independent of the [Type] string that travels with it. *)
Inductive Payload :=
  | PTicker (x : Ticker.t)
  | PDepth (x : OrderBook.t)
  | PTrade (x : Trade.t)
  | PKline (x : Kline.t)
  | PTickerWithSource (x : TickerWithSource.t)
  | POrderBookWithSource (x : OrderBookWithSource.t)
  | PNil.

Module MarketData.
Record t := mk {
  Exchange : string;
  Symbol : string;
  Type_ : string;      (* the Go field is [Type] *)
  Source : string;
  Timestamp : Z;
  Data : Payload
}.
End MarketData.

(** ** Go's [sort.Slice]

    [sort.Slice] belongs to Go's standard library.  It rearranges the slice
    so that no element is [less] than one before it and promises nothing
    about the relative order of elements that compare equal.  It is modelled
    by insertion, which is what Go runs on slices of up to 12 elements; above
    that Go switches to a sort that may reorder equal elements, while this
    model keeps them in their input order.  The statements about sorted
    books are therefore about content, length and price order, never about
    the relative order of levels with equal prices. *)

Module sort.
Section Slice.
Context {A : Type} (less : A -> A -> bool).

Fixpoint insert (x : A) (l : list A) : list A :=
  match l with
  | [] => [x]
  | y :: l' => if less y x then y :: insert x l' else x :: y :: l'
  end.

Definition Slice (l : list A) : list A := foldr insert [] l.

(** [a] may stand before [b]: [b] is not less than [a]. *)
Definition inOrder (a b : A) : Prop := less b a = false.
End Slice.
End sort.

(** ** services/collector/internal/merger/merger.go *)

Module CachedData.
Record t := mk {
  Ticker : option Ticker.t;
  Depth : option OrderBook.t;
  Trades : list Trade.t;
  Timestamp : Z
}.
End CachedData.

Module merger.
Import constants.

Record DataMerger := mkDataMerger {
  symbolConfigs : gmap string SymbolConfig.t;
  internalData : gmap string CachedData.t;
  externalData : gmap string CachedData.t
}.

(** [&CachedData{}] *)
Definition emptyCachedData : CachedData.t := CachedData.mk None None [] 0.

(** [NewDataMerger] *)
Definition NewDataMerger (configs : list SymbolConfig.t) : DataMerger :=
  mkDataMerger
    (foldl (fun m config => <[SymbolConfig.Symbol config := config]> m) ∅ configs)
    ∅ ∅.

(** [isDataFresh] *)
Definition isDataFresh (timestamp : Z) : Timed bool :=
  now ← time_Now_UnixMilli;
  mret (now - timestamp <? DataFreshnessThreshold).

(** [cacheData]: the switch on [data.Type] has no default branch, and the
    timestamp is written after it, whatever the record's kind. *)
Definition cacheData (m : DataMerger) (data : MarketData.t) : Timed DataMerger :=
  let symbol := MarketData.Symbol data in
  let isInternal := String.eqb (MarketData.Source data) SourceInternal in
  let cache :=
    if isInternal then default emptyCachedData (internalData m !! symbol)
    else default emptyCachedData (externalData m !! symbol) in
  let cache :=
    if String.eqb (MarketData.Type_ data) DataTypeTicker then
      match MarketData.Data data with
      | PTicker ticker =>
          CachedData.mk (Some ticker) (CachedData.Depth cache)
                        (CachedData.Trades cache) (CachedData.Timestamp cache)
      | _ => cache
      end
    else if String.eqb (MarketData.Type_ data) DataTypeDepth then
      match MarketData.Data data with
      | PDepth depth =>
          CachedData.mk (CachedData.Ticker cache) (Some depth)
                        (CachedData.Trades cache) (CachedData.Timestamp cache)
      | _ => cache
      end
    else if String.eqb (MarketData.Type_ data) DataTypeTrade then
      match MarketData.Data data with
      | PTrade trade =>
          let trades := trade :: CachedData.Trades cache in
          let trades := if 100 <? Z.of_nat (length trades) then take 100 trades else trades in
          CachedData.mk (CachedData.Ticker cache) (CachedData.Depth cache)
                        trades (CachedData.Timestamp cache)
      | _ => cache
      end
    else cache in
  now ← time_Now_UnixMilli;
  let cache :=
    CachedData.mk (CachedData.Ticker cache) (CachedData.Depth cache)
                  (CachedData.Trades cache) now in
  mret (if isInternal
        then mkDataMerger (symbolConfigs m)
               (<[symbol := cache]> (internalData m)) (externalData m)
        else mkDataMerger (symbolConfigs m)
               (internalData m) (<[symbol := cache]> (externalData m))).

(** The guard [c != nil && c.Ticker != nil && m.isDataFresh(c.Timestamp)]:
    [&&] short-circuits, so the clock is read only when a ticker is cached. *)
Definition freshTicker (c : option CachedData.t) : Timed (option Ticker.t) :=
  match c with
  | Some d =>
      match CachedData.Ticker d with
      | Some tk => ok ← isDataFresh (CachedData.Timestamp d);
                   mret (if (ok : bool) then Some tk else None)
      | None => mret None
      end
  | None => mret None
  end.

(** The guard [c != nil && c.Depth != nil && m.isDataFresh(c.Timestamp)]. *)
Definition freshDepth (c : option CachedData.t) : Timed (option OrderBook.t) :=
  match c with
  | Some d =>
      match CachedData.Depth d with
      | Some ob => ok ← isDataFresh (CachedData.Timestamp d);
                   mret (if (ok : bool) then Some ob else None)
      | None => mret None
      end
  | None => mret None
  end.

(** [c != nil && c.Ticker != nil], without the freshness test. *)
Definition cachedTicker (c : option CachedData.t) : option Ticker.t :=
  match c with Some d => CachedData.Ticker d | None => None end.

(** The tail of [mergeTickerPriority], which merges the volumes. *)
Definition mergeVolumes (internal external : option CachedData.t)
    (ticker : TickerWithSource.t) : TickerWithSource.t :=
  let internalVolume :=
    match cachedTicker internal with
    | Some tk => Ticker.Volume24h tk
    | None => TickerWithSource.InternalVolume24h ticker
    end in
  let externalVolume :=
    match cachedTicker external with
    | Some tk => Ticker.Volume24h tk
    | None => TickerWithSource.ExternalVolume24h ticker
    end in
  TickerWithSource.mk
    (TickerWithSource.Symbol ticker) (TickerWithSource.LastPrice ticker)
    (TickerWithSource.LastPriceSource ticker) (TickerWithSource.BidPrice ticker)
    (TickerWithSource.AskPrice ticker) (TickerWithSource.High24h ticker)
    (TickerWithSource.Low24h ticker)
    internalVolume externalVolume (internalVolume + externalVolume)%float
    (TickerWithSource.Timestamp ticker).

(** [mergeTickerPriority] *)
Definition mergeTickerPriority (internal external : option CachedData.t)
    (symbol : string) : Timed (option TickerWithSource.t) :=
  useInternal ← freshTicker internal;
  match useInternal with
  | Some tk =>
      mret (Some (mergeVolumes internal external
        (TickerWithSource.mk symbol (Ticker.LastPrice tk) SourceInternal
           (Ticker.BidPrice tk) (Ticker.AskPrice tk) (Ticker.High24h tk) (Ticker.Low24h tk)
           (Ticker.Volume24h tk) 0%float 0%float (Ticker.Timestamp tk))))
  | None =>
      useExternal ← freshTicker external;
      match useExternal with
      | Some tk =>
          mret (Some (mergeVolumes internal external
            (TickerWithSource.mk symbol (Ticker.LastPrice tk) SourceExternal
               (Ticker.BidPrice tk) (Ticker.AskPrice tk) (Ticker.High24h tk) (Ticker.Low24h tk)
               0%float (Ticker.Volume24h tk) 0%float (Ticker.Timestamp tk))))
      | None => mret None
      end
  end.

(** [mergeTickerSupplement] *)
Definition mergeTickerSupplement (internal external : option CachedData.t)
    (symbol : string) : Timed (option TickerWithSource.t) :=
  mergeTickerPriority internal external symbol.

(** [mergeTicker] *)
Definition mergeTicker (m : DataMerger) (symbol : string) (config : SymbolConfig.t)
    : Timed (option MarketData.t) :=
  let internalCache := internalData m !! symbol in
  let externalCache := externalData m !! symbol in
  mergedTicker ←
    (if String.eqb (SymbolConfig.MergeStrategy config) MergeStrategyPriority
     then mergeTickerPriority internalCache externalCache symbol
     else if String.eqb (SymbolConfig.MergeStrategy config) MergeStrategySupplement
     then mergeTickerSupplement internalCache externalCache symbol
     else mergeTickerPriority internalCache externalCache symbol);
  match mergedTicker with
  | None => mret None
  | Some tk =>
      now ← time_Now_UnixMilli;
      mret (Some (MarketData.mk "merged" symbol DataTypeTicker SourceMerged now
                                (PTickerWithSource tk)))
  end.

(** The loops that copy one side's levels, tagging each with its source. *)
Definition withSource (source : string) (levels : list PriceLevel.t)
    : list PriceLevelWithSource.t :=
  map (fun l => PriceLevelWithSource.mk (PriceLevel.Price l) (PriceLevel.Amount l) source)
      levels.

Definition bidLess (a b : PriceLevelWithSource.t) : bool :=
  f64_gtb (PriceLevelWithSource.Price a) (PriceLevelWithSource.Price b).
Definition askLess (a b : PriceLevelWithSource.t) : bool :=
  PrimFloat.ltb (PriceLevelWithSource.Price a) (PriceLevelWithSource.Price b).

Definition len {A} (l : list A) : Z := Z.of_nat (length l).

(** [mergeDepthPriority]: every path ends in [return depth]. *)
Definition mergeDepthPriority (internal external : option CachedData.t)
    (symbol : string) : Timed (option OrderBookWithSource.t) :=
  useInternal ← freshDepth internal;
  let '(bids, asks, ibc, iac) :=
    match (useInternal : option OrderBook.t) with
    | Some ob =>
        (withSource SourceInternal (OrderBook.Bids ob),
         withSource SourceInternal (OrderBook.Asks ob),
         len (OrderBook.Bids ob), len (OrderBook.Asks ob))
    | None => ([], [], 0, 0)
    end in
  useExternal ← freshDepth external;
  let '(bids, asks, ebc, eac) :=
    match (useExternal : option OrderBook.t) with
    | Some ob =>
        (bids ++ withSource SourceExternal (OrderBook.Bids ob),
         asks ++ withSource SourceExternal (OrderBook.Asks ob),
         len (OrderBook.Bids ob), len (OrderBook.Asks ob))
    | None => (bids, asks, 0, 0)
    end in
  let bids := sort.Slice bidLess bids in
  let asks := sort.Slice askLess asks in
  let bids := if 100 <? len bids then take 100 bids else bids in
  let asks := if 100 <? len asks then take 100 asks else asks in
  now ← time_Now_UnixMilli;
  mret (Some (OrderBookWithSource.mk symbol bids asks ibc ebc iac eac now)).

(** [mergeDepthSupplement]: the two guards on the external side each call
    [isDataFresh], so each reads the clock. *)
Definition mergeDepthSupplement (internal external : option CachedData.t)
    (symbol : string) : Timed (option OrderBookWithSource.t) :=
  useInternal ← freshDepth internal;
  let '(bids, asks, ibc, iac) :=
    match (useInternal : option OrderBook.t) with
    | Some ob =>
        (withSource SourceInternal (OrderBook.Bids ob),
         withSource SourceInternal (OrderBook.Asks ob),
         len (OrderBook.Bids ob), len (OrderBook.Asks ob))
    | None => ([], [], 0, 0)
    end in
  forBids ← (if len bids <? 20 then freshDepth external else mret None);
  let '(bids, ebc) :=
    match (forBids : option OrderBook.t) with
    | Some ob => (bids ++ withSource SourceExternal (OrderBook.Bids ob), len (OrderBook.Bids ob))
    | None => (bids, 0)
    end in
  forAsks ← (if len asks <? 20 then freshDepth external else mret None);
  let '(asks, eac) :=
    match (forAsks : option OrderBook.t) with
    | Some ob => (asks ++ withSource SourceExternal (OrderBook.Asks ob), len (OrderBook.Asks ob))
    | None => (asks, 0)
    end in
  let bids := sort.Slice bidLess bids in
  let asks := sort.Slice askLess asks in
  now ← time_Now_UnixMilli;
  mret (Some (OrderBookWithSource.mk symbol bids asks ibc ebc iac eac now)).

(** [mergeDepth] *)
Definition mergeDepth (m : DataMerger) (symbol : string) (config : SymbolConfig.t)
    : Timed (option MarketData.t) :=
  let internalCache := internalData m !! symbol in
  let externalCache := externalData m !! symbol in
  mergedDepth ←
    (if String.eqb (SymbolConfig.MergeStrategy config) MergeStrategyPriority
     then mergeDepthPriority internalCache externalCache symbol
     else if String.eqb (SymbolConfig.MergeStrategy config) MergeStrategySupplement
     then mergeDepthSupplement internalCache externalCache symbol
     else mergeDepthPriority internalCache externalCache symbol);
  match mergedDepth with
  | None => mret None
  | Some ob =>
      now ← time_Now_UnixMilli;
      mret (Some (MarketData.mk "merged" symbol DataTypeDepth SourceMerged now
                                (POrderBookWithSource ob)))
  end.

(** [mergeData] *)
Definition mergeData (m : DataMerger) (data : MarketData.t) (config : SymbolConfig.t)
    : Timed (option MarketData.t * DataMerger) :=
  m ← cacheData m data;
  if String.eqb (MarketData.Type_ data) DataTypeTicker then
    r ← mergeTicker m (MarketData.Symbol data) config; mret (r, m)
  else if String.eqb (MarketData.Type_ data) DataTypeDepth then
    r ← mergeDepth m (MarketData.Symbol data) config; mret (r, m)
  else if String.eqb (MarketData.Type_ data) DataTypeTrade then
    mret (Some data, m)
  else mret (Some data, m).

(** [ProcessData]: [None] is the nil return, the record is dropped. *)
Definition ProcessData (m : DataMerger) (data : MarketData.t)
    : Timed (option MarketData.t * DataMerger) :=
  match symbolConfigs m !! MarketData.Symbol data with
  | None => mret (Some data, m)
  | Some config =>
      if String.eqb (SymbolConfig.Mode config) ModeInternalOnly then
        if String.eqb (MarketData.Source data) SourceInternal
        then mret (Some data, m) else mret (None, m)
      else if String.eqb (SymbolConfig.Mode config) ModeExternalOnly then
        if String.eqb (MarketData.Source data) SourceExternal
        then mret (Some data, m) else mret (None, m)
      else if String.eqb (SymbolConfig.Mode config) ModeHybrid then
        mergeData m data config
      else mret (Some data, m)
  end.
End merger.

(** ** Go's [time] package, as far as the kline arithmetic uses it

    The package is Go's, not the repository's.  A [Location] is a time zone:
    an initial UTC offset and the later transitions, each taking effect at an
    instant and setting a new offset (seconds east of UTC).  A calendar date
    (the triple Year, Month, Day) is identified with the number of days that
    separate it from 1 January 1970: [time.Date] maps the three fields that
    [Year], [Month] and [Day] return back to that number. *)

Module time.
Record zoneTrans := mkZoneTrans {
  when : Z;      (* Unix seconds at which the transition takes effect *)
  offset : Z     (* seconds east of UTC from then on *)
}.

Record Location := mkLocation {
  initialOffset : Z;
  tx : list zoneTrans     (* in increasing order of [when] *)
}.

Definition UTC : Location := mkLocation 0 [].
Definition FixedZone (offset : Z) : Location := mkLocation offset [].

(** [Location.lookup]: the offset in effect at Unix second [sec] and the
    period [start, end) over which it is; [None] is an open end. *)
Fixpoint lookupFrom (cur : Z) (start : option Z) (tx : list zoneTrans) (sec : Z)
    : Z * option Z * option Z :=
  match tx with
  | [] => (cur, start, None)
  | t :: rest =>
      if sec <? when t then (cur, start, Some (when t))
      else lookupFrom (offset t) (Some (when t)) rest sec
  end.

Definition lookup (l : Location) (sec : Z) : Z * option Z * option Z :=
  lookupFrom (initialOffset l) None (tx l) sec.

(** A [Time], to millisecond precision, with the location it displays in.
    [unixMilli] is the instant itself, which a [Time] holds exactly for
    every int64 count of milliseconds. *)
Record Time := mkTime { unixMilli : Z; loc : Location }.

(** [t.UnixMilli()]: [t.unixSec()*1e3 + int64(t.nsec())/1e6], int64
    arithmetic. *)
Definition Time_UnixMilli (t : Time) : Z := wrap64 (unixMilli t).

(** [time.UnixMilli(msec)], a time in the process's local zone. *)
Definition UnixMilli (Local : Location) (msec : Z) : Time := mkTime msec Local.

Definition unixSec (t : Time) : Z := unixMilli t / 1000.

(** [t.abs()]: seconds of the wall clock the location shows. *)
Definition abs (t : Time) : Z :=
  let sec := unixSec t in
  sec + fst (fst (lookup (loc t) sec)).

Definition secondsPerMinute : Z := 60.
Definition secondsPerHour : Z := 3600.
Definition secondsPerDay : Z := 86400.

(** [t.Year(), t.Month(), t.Day()], as one day number. *)
Definition CalendarDate (t : Time) : Z := abs t / secondsPerDay.
Definition Hour (t : Time) : Z := (abs t mod secondsPerDay) / secondsPerHour.
Definition Minute (t : Time) : Z := (abs t mod secondsPerHour) / secondsPerMinute.
Definition Location_of (t : Time) : Location := loc t.

(** [time.Date(year, month, day, hour, min, sec, 0, loc)]: the wall-clock
    fields are taken as if they were UTC, then the zone offset found for
    that instant is subtracted; when the result falls outside the period
    that offset belongs to, the offset in effect at the result is used. *)
Definition Date (date hour min sec : Z) (l : Location) : Time :=
  let unix := date * secondsPerDay + hour * secondsPerHour + min * secondsPerMinute + sec in
  let '(offset, start, end_) := lookup l unix in
  let unix :=
    if offset =? 0 then unix
    else
      let utc := unix - offset in
      let outside :=
        match start with Some s => utc <? s | None => false end
        || match end_ with Some e => e <=? utc | None => false end in
      let offset := if outside then fst (fst (lookup l utc)) else offset in
      unix - offset in
  mkTime (unix * 1000) l.

(** [t.Add(d)], with [d] in milliseconds. *)
Definition Add (t : Time) (d : Z) : Time := mkTime (unixMilli t + d) (loc t).

Definition Minute_ms : Z := 60000.
Definition Hour_ms : Z := 3600000.
End time.

(** ** common/utils/time.go

    [time.UnixMilli] returns a time in [time.Local], the zone of the process;
    it is the parameter [Local] here. *)

Module utils.
Import time.

(** [GetKlineOpenTime]; Go's [/] on ints truncates, [Z.quot]. *)
Definition GetKlineOpenTime (Local : Location) (timestamp : Z) (interval : string) : Z :=
  let t := UnixMilli Local timestamp in
  if String.eqb interval "1m" then
    Time_UnixMilli (Date (CalendarDate t) (Hour t) (Minute t) 0 (Location_of t))
  else if String.eqb interval "5m" then
    let minute := Z.quot (Minute t) 5 * 5 in
    Time_UnixMilli (Date (CalendarDate t) (Hour t) minute 0 (Location_of t))
  else if String.eqb interval "15m" then
    let minute := Z.quot (Minute t) 15 * 15 in
    Time_UnixMilli (Date (CalendarDate t) (Hour t) minute 0 (Location_of t))
  else if String.eqb interval "30m" then
    let minute := Z.quot (Minute t) 30 * 30 in
    Time_UnixMilli (Date (CalendarDate t) (Hour t) minute 0 (Location_of t))
  else if String.eqb interval "1h" then
    Time_UnixMilli (Date (CalendarDate t) (Hour t) 0 0 (Location_of t))
  else if String.eqb interval "4h" then
    let hour := Z.quot (Hour t) 4 * 4 in
    Time_UnixMilli (Date (CalendarDate t) hour 0 0 (Location_of t))
  else if String.eqb interval "1d" then
    Time_UnixMilli (Date (CalendarDate t) 0 0 0 (Location_of t))
  else timestamp.

(** [GetKlineCloseTime] *)
Definition GetKlineCloseTime (Local : Location) (openTime : Z) (interval : string) : Z :=
  let t := UnixMilli Local openTime in
  if String.eqb interval "1m" then wrap64 (Time_UnixMilli (Add t (1 * Minute_ms)) - 1)
  else if String.eqb interval "5m" then wrap64 (Time_UnixMilli (Add t (5 * Minute_ms)) - 1)
  else if String.eqb interval "15m" then wrap64 (Time_UnixMilli (Add t (15 * Minute_ms)) - 1)
  else if String.eqb interval "30m" then wrap64 (Time_UnixMilli (Add t (30 * Minute_ms)) - 1)
  else if String.eqb interval "1h" then wrap64 (Time_UnixMilli (Add t (1 * Hour_ms)) - 1)
  else if String.eqb interval "4h" then wrap64 (Time_UnixMilli (Add t (4 * Hour_ms)) - 1)
  else if String.eqb interval "1d" then wrap64 (Time_UnixMilli (Add t (24 * Hour_ms)) - 1)
  else openTime.

(** [IsNewKline] *)
Definition IsNewKline (Local : Location) (currentOpenTime tradeTime : Z) (interval : string)
    : bool :=
  negb (GetKlineOpenTime Local tradeTime interval =? currentOpenTime).

(** [encoding/json] behind [utils.ToJSON]: which string a value encodes to,
    and whether it can be encoded at all, is the library's business. *)
Class JSONEncoder := { ToJSON : Payload -> option string }.
End utils.

(** ** services/processor/internal/storage/redis.go

    The Redis server is seen through the commands it executed.  A command
    (or a pipeline, which travels as one request) can fail; [fails] tells
    for each request, in the order they are issued, whether the client
    reports an error.  An error does not mean that nothing happened: a
    pipeline is no transaction, and a reply can be lost after the server
    acted.  [reached] tells, for a request that fails, which of its commands
    the server executed all the same. *)

Module storage.
Import constants utils.

Inductive HashValue := HFloat (x : float64) | HInt (x : Z).

Inductive Command :=
  | HSet (key : string) (fields : list (string * HashValue))
  | Set_ (key value : string) (ttlSeconds : Z)
  | LPush (key value : string)
  | LTrim (key : string) (start stop : Z)
  | Expire (key : string) (seconds : Z)
  | Publish (channel payload : string).

Record RedisStorage := mkRedisStorage {
  executed : list Command;   (* oldest first *)
  fails : nat -> bool;
  reached : nat -> list bool;
  issued : nat
}.

(** The commands of [cmds] that [mask] marks, in order. *)
Fixpoint marked (mask : list bool) (cmds : list Command) : list Command :=
  match mask, cmds with
  | b :: mask, c :: cmds => if b then c :: marked mask cmds else marked mask cmds
  | _, _ => []
  end.

(** One request carrying [cmds]; [true] when no error is reported. *)
Definition request (cmds : list Command) (s : RedisStorage) : bool * RedisStorage :=
  if fails s (issued s)
  then (false, mkRedisStorage (executed s ++ marked (reached s (issued s)) cmds)
                              (fails s) (reached s) (S (issued s)))
  else (true, mkRedisStorage (executed s ++ cmds) (fails s) (reached s) (S (issued s))).

Definition error := string.

(** [fmt.Sprintf("%s%s:%s", a, b, c)] *)
Definition Sprintf_ss_colon_s (a b c : string) : string :=
  String.append a (String.append b (String.append ":" c)).

Section Save.
Context {enc : JSONEncoder}.

(** [SaveKline] *)
Definition SaveKline (kline : Kline.t) (s : RedisStorage) : option error * RedisStorage :=
  let key := Sprintf_ss_colon_s RedisKeyKline (Kline.Symbol kline) (Kline.Interval kline) in
  match ToJSON (PKline kline) with
  | None => (Some "json: unsupported value", s)
  | Some data =>
      let '(ok, s) := request [LPush key data; LTrim key 0 999; Expire key (7 * 24 * 3600)] s in
      if ok then (None, s) else (Some "failed to save kline to redis", s)
  end.

(** [SaveTicker]; the results of [Expire], [ToJSON] and [Publish] are
    not looked at. *)
Definition SaveTicker (ticker : Ticker.t) (s : RedisStorage) : option error * RedisStorage :=
  let key := String.append RedisKeyTicker (Ticker.Symbol ticker) in
  let data :=
    [("last_price", HFloat (Ticker.LastPrice ticker));
     ("bid_price", HFloat (Ticker.BidPrice ticker));
     ("ask_price", HFloat (Ticker.AskPrice ticker));
     ("high_24h", HFloat (Ticker.High24h ticker));
     ("low_24h", HFloat (Ticker.Low24h ticker));
     ("volume_24h", HFloat (Ticker.Volume24h ticker));
     ("timestamp", HInt (Ticker.Timestamp ticker))] in
  let '(ok, s) := request [HSet key data] s in
  if negb ok then (Some "failed to save ticker to redis", s)
  else
    let '(_, s) := request [Expire key 3600] s in
    let channel := Sprintf_ss_colon_s RedisChannelMarket (Ticker.Symbol ticker) DataTypeTicker in
    let jsonData := default "" (ToJSON (PTicker ticker)) in
    let '(_, s) := request [Publish channel jsonData] s in
    (None, s).

(** [SaveDepth] *)
Definition SaveDepth (depth : OrderBook.t) (s : RedisStorage) : option error * RedisStorage :=
  let key := String.append RedisKeyDepth (OrderBook.Symbol depth) in
  match ToJSON (PDepth depth) with
  | None => (Some "json: unsupported value", s)
  | Some data =>
      let '(ok, s) := request [Set_ key data 3600] s in
      if negb ok then (Some "failed to save depth to redis", s)
      else
        let channel :=
          Sprintf_ss_colon_s RedisChannelMarket (OrderBook.Symbol depth) DataTypeDepth in
        let '(_, s) := request [Publish channel data] s in
        (None, s)
  end.

(** [SaveTrade] *)
Definition SaveTrade (trade : Trade.t) (s : RedisStorage) : option error * RedisStorage :=
  let key := String.append RedisKeyTrade (Trade.Symbol trade) in
  match ToJSON (PTrade trade) with
  | None => (Some "json: unsupported value", s)
  | Some data =>
      let '(ok, s) := request [LPush key data; LTrim key 0 99; Expire key 3600] s in
      if negb ok then (Some "failed to save trade to redis", s)
      else
        let channel := Sprintf_ss_colon_s RedisChannelMarket (Trade.Symbol trade) DataTypeTrade in
        let '(_, s) := request [Publish channel data] s in
        (None, s)
  end.
End Save.
End storage.

(** ** services/processor/internal/handler *)

Module handler.
Import constants.

(** [StorageInterface] (kline.go); [S] is the state of the store behind it. *)
Class StorageInterface (S : Type) := {
  SaveKline : Kline.t -> S -> option storage.error * S;
  SaveTicker : Ticker.t -> S -> option storage.error * S;
  SaveDepth : OrderBook.t -> S -> option storage.error * S;
  SaveTrade : Trade.t -> S -> option storage.error * S
}.

Module DepthManager.
Record t := mk {
  symbol : string;
  bids : list PriceLevel.t;
  asks : list PriceLevel.t
}.
End DepthManager.

Module KlineAggregator.
Record t := mk {
  symbol : string;
  interval : string;
  currentKline : option Kline.t
}.
End KlineAggregator.

Section Handlers.
Context {S : Type} {store : StorageInterface S}.
Context (Local : time.Location).

(** *** depth.go *)

(** [NewDepthManager] *)
Definition NewDepthManager (symbol : string) : DepthManager.t :=
  DepthManager.mk symbol [] [].

(** [sortDepth] *)
Definition sortDepth (m : DepthManager.t) : DepthManager.t :=
  DepthManager.mk (DepthManager.symbol m)
    (sort.Slice (fun a b => f64_gtb (PriceLevel.Price a) (PriceLevel.Price b))
                (DepthManager.bids m))
    (sort.Slice (fun a b => PrimFloat.ltb (PriceLevel.Price a) (PriceLevel.Price b))
                (DepthManager.asks m)).

(** [UpdateDepth]: the manager keeps the new book also when saving fails. *)
Definition UpdateDepth (m : DepthManager.t) (depth : OrderBook.t) (s : S)
    : option storage.error * DepthManager.t * S :=
  let m :=
    DepthManager.mk (DepthManager.symbol m) (OrderBook.Bids depth) (OrderBook.Asks depth) in
  let m := sortDepth m in
  let orderBook :=
    OrderBook.mk (DepthManager.symbol m) (DepthManager.bids m) (DepthManager.asks m)
                 (OrderBook.Timestamp depth) in
  let '(err, s) := SaveDepth orderBook s in
  (err, m, s).

(** [GetBestBid], [GetBestAsk], [GetSpread] *)
Definition GetBestBid (m : DepthManager.t) : option PriceLevel.t := head (DepthManager.bids m).
Definition GetBestAsk (m : DepthManager.t) : option PriceLevel.t := head (DepthManager.asks m).
Definition GetSpread (m : DepthManager.t) : float64 :=
  match GetBestBid m, GetBestAsk m with
  | Some bestBid, Some bestAsk => (PriceLevel.Price bestAsk - PriceLevel.Price bestBid)%float
  | _, _ => 0%float
  end.

(** [DepthHandler.HandleDepth] *)
Definition DepthHandler := gmap string DepthManager.t.

Definition HandleDepth (h : DepthHandler) (depth : OrderBook.t) (s : S)
    : option storage.error * DepthHandler * S :=
  let manager := default (NewDepthManager (OrderBook.Symbol depth))
                         (h !! OrderBook.Symbol depth) in
  let '(err, manager, s) := UpdateDepth manager depth s in
  (err, <[OrderBook.Symbol depth := manager]> h, s).

(** *** kline.go *)

(** [NewKlineAggregator] *)
Definition NewKlineAggregator (symbol interval : string) : KlineAggregator.t :=
  KlineAggregator.mk symbol interval None.

(** [updateKline], on the candle [k] that [a.currentKline] points to. *)
Definition updateKline (k : Kline.t) (trade : Trade.t) : Kline.t :=
  let high := if f64_gtb (Trade.Price trade) (Kline.High k)
              then Trade.Price trade else Kline.High k in
  let low := if PrimFloat.ltb (Trade.Price trade) (Kline.Low k)
             then Trade.Price trade else Kline.Low k in
  Kline.mk (Kline.Symbol k) (Kline.Interval k) (Kline.OpenTime k) (Kline.CloseTime k)
    (Kline.Open k) high low (Trade.Price trade)
    (Kline.Volume k + Trade.Amount trade)%float
    (Kline.QuoteVol k + Trade.Price trade * Trade.Amount trade)%float
    (Kline.TradeNum k + 1).

(** [saveKline] *)
Definition saveKline (a : KlineAggregator.t) (s : S) : option storage.error * S :=
  match KlineAggregator.currentKline a with
  | None => (None, s)
  | Some k => SaveKline k s
  end.

(** The candle [AddTrade] creates for a new period. *)
Definition newKline (a : KlineAggregator.t) (openTime : Z) (trade : Trade.t) : Kline.t :=
  Kline.mk (KlineAggregator.symbol a) (KlineAggregator.interval a) openTime
    (utils.GetKlineCloseTime Local openTime (KlineAggregator.interval a))
    (Trade.Price trade) (Trade.Price trade) (Trade.Price trade) (Trade.Price trade)
    0%float 0%float 0.

(** [AddTrade]: a failed save is logged, not returned; the error result
    is always nil. *)
Definition AddTrade (a : KlineAggregator.t) (trade : Trade.t) (s : S)
    : option storage.error * KlineAggregator.t * S :=
  let openTime :=
    utils.GetKlineOpenTime Local (Trade.Timestamp trade) (KlineAggregator.interval a) in
  let isNew :=
    match KlineAggregator.currentKline a with
    | None => true
    | Some k => negb (Kline.OpenTime k =? openTime)
    end in
  let '(a, s) :=
    if isNew then
      let s := match KlineAggregator.currentKline a with
               | Some _ => snd (saveKline a s)
               | None => s
               end in
      (KlineAggregator.mk (KlineAggregator.symbol a) (KlineAggregator.interval a)
                          (Some (newKline a openTime trade)), s)
    else (a, s) in
  let a :=
    match KlineAggregator.currentKline a with
    | Some k =>
        KlineAggregator.mk (KlineAggregator.symbol a) (KlineAggregator.interval a)
                           (Some (updateKline k trade))
    | None => a
    end in
  (None, a, s).

(** [GetCurrentKline] *)
Definition GetCurrentKline (a : KlineAggregator.t) : option Kline.t :=
  KlineAggregator.currentKline a.

(** [KlineHandler]: the aggregators by key [symbol:interval], and the
    fixed list of intervals. *)
Definition intervals : list string :=
  [Interval1m; Interval5m; Interval15m; Interval1h; Interval4h; Interval1d].

Definition KlineHandler := gmap string KlineAggregator.t.

(** [HandleTrade] *)
Definition HandleTrade (h : KlineHandler) (trade : Trade.t) (s : S)
    : option storage.error * KlineHandler * S :=
  let '(h, s) :=
    foldl (fun '(h, s) interval =>
             let key := String.append (Trade.Symbol trade) (String.append ":" interval) in
             let aggregator :=
               default (NewKlineAggregator (Trade.Symbol trade) interval) (h !! key) in
             let '(_, aggregator, s) := AddTrade aggregator trade s in
             (<[key := aggregator]> h, s))
          (h, s) intervals in
  (None, h, s).
End Handlers.

(** The processor hands a [RedisStorage] to its handlers. *)
#[global] Instance RedisStorage_StorageInterface {enc : utils.JSONEncoder}
    : StorageInterface storage.RedisStorage :=
  {| SaveKline := storage.SaveKline;
     SaveTicker := storage.SaveTicker;
     SaveDepth := storage.SaveDepth;
     SaveTrade := storage.SaveTrade |}.
End handler.

(** ** services/api/internal/websocket

    A [*Client] is a reference into a heap of client objects.  A buffered Go
    channel is the list of values it holds, oldest first, with its capacity
    and whether it was closed.  The goroutines (the Hub loop, two pumps per
    client, the Redis bridge) are modelled by the steps they take; a step
    reports when the goroutine that takes it blocks or panics. *)

Module websocket.
Abbreviation ClientRef := nat.

(** What a step of a goroutine leads to. *)
Inductive Outcome (A : Type) :=
  | Done (a : A)       (* the step completed *)
  | Blocked (a : A)    (* the goroutine is parked on a channel or a lock, in state [a] *)
  | Panic.             (* send on, or close of, a closed channel *)
Arguments Done {A} a.
Arguments Blocked {A} a.
Arguments Panic {A}.

(** Values of a decoded JSON object, as far as the handlers inspect them. *)
Inductive JSONValue := JString (s : string) | JOther.
Abbreviation Message := (gmap string JSONValue).

(** [msg[key].(string)] *)
Definition asString (msg : Message) (key : string) : option string :=
  match msg !! key with
  | Some (JString s) => Some s
  | _ => None
  end.

(** The frames queued on [client.send]. *)
Inductive Frame :=
  | Response (responseType : string) (data : option (string * string))
  | Error (errMsg : string)
  | Update (channel : string) (data : string).

(** client.go *)
Module Client.
Record t := mk {
  send : list Frame;      (* [make(chan interface{}, 256)] *)
  sendClosed : bool;
  connClosed : bool;
  id : string
}.
End Client.

Definition sendCapacity : nat := 256.

(** [NewClient] *)
Definition NewClient (id : string) : Client.t := Client.mk [] false false id.

(** [select { case c.send <- x: ... default: ... }] *)
Inductive TrySend := Sent (c : Client.t) | WouldBlock | SendOnClosed.

Definition trySend (c : Client.t) (x : Frame) : TrySend :=
  if Client.sendClosed c then SendOnClosed
  else if (length (Client.send c) <? sendCapacity)%nat
       then Sent (Client.mk (Client.send c ++ [x]) false (Client.connClosed c) (Client.id c))
       else WouldBlock.

(** [close(c.send)] *)
Definition closeSend (c : Client.t) : option Client.t :=
  if Client.sendClosed c then None
  else Some (Client.mk (Client.send c) true (Client.connClosed c) (Client.id c)).

(** subscription.go *)
Record SubscriptionManager := mkSubscriptionManager {
  channelSubscribers : gmap string (gset ClientRef);
  clientSubscriptions : gmap ClientRef (gset string)
}.

(** [NewSubscriptionManager] *)
Definition NewSubscriptionManager : SubscriptionManager := mkSubscriptionManager ∅ ∅.

(** [Subscribe] *)
Definition sm_Subscribe (sm : SubscriptionManager) (client : ClientRef) (channel : string)
    : SubscriptionManager :=
  mkSubscriptionManager
    (<[channel := {[client]} ∪ default ∅ (channelSubscribers sm !! channel)]>
       (channelSubscribers sm))
    (<[client := {[channel]} ∪ default ∅ (clientSubscriptions sm !! client)]>
       (clientSubscriptions sm)).

(** [delete(subscribers, client)] and the removal of an emptied channel. *)
Definition dropSubscriber (client : ClientRef) (channel : string)
    (cs : gmap string (gset ClientRef)) : gmap string (gset ClientRef) :=
  match cs !! channel with
  | Some subscribers =>
      let subscribers := subscribers ∖ {[client]} in
      if decide (size subscribers = 0%nat) then delete channel cs
      else <[channel := subscribers]> cs
  | None => cs
  end.

(** [Unsubscribe] *)
Definition sm_Unsubscribe (sm : SubscriptionManager) (client : ClientRef) (channel : string)
    : SubscriptionManager :=
  mkSubscriptionManager
    (dropSubscriber client channel (channelSubscribers sm))
    (match clientSubscriptions sm !! client with
     | Some channels =>
         let channels := channels ∖ {[channel]} in
         if decide (size channels = 0%nat) then delete client (clientSubscriptions sm)
         else <[client := channels]> (clientSubscriptions sm)
     | None => clientSubscriptions sm
     end).

(** [UnsubscribeAll] *)
Definition UnsubscribeAll (sm : SubscriptionManager) (client : ClientRef)
    : SubscriptionManager :=
  match clientSubscriptions sm !! client with
  | None => sm
  | Some channels =>
      mkSubscriptionManager
        (foldr (dropSubscriber client) (channelSubscribers sm) (elements channels))
        (delete client (clientSubscriptions sm))
  end.

(** [GetSubscribers]: a copy of the set. *)
Definition GetSubscribers (sm : SubscriptionManager) (channel : string) : gset ClientRef :=
  default ∅ (channelSubscribers sm !! channel).

(** [GetClientSubscriptions] *)
Definition GetClientSubscriptions (sm : SubscriptionManager) (client : ClientRef)
    : list string :=
  match clientSubscriptions sm !! client with
  | None => []
  | Some channels => elements channels
  end.

(** [IsSubscribed] *)
Definition IsSubscribed (sm : SubscriptionManager) (client : ClientRef) (channel : string)
    : bool :=
  match clientSubscriptions sm !! client with
  | None => false
  | Some channels => bool_decide (channel ∈ channels)
  end.

(** hub.go *)
Record BroadcastMessage := mkBroadcastMessage { Channel : string; Data : string }.

Record Hub := mkHub {
  clients : gset ClientRef;
  register : list ClientRef;             (* [make(chan *Client, 256)] *)
  unregister : list ClientRef;           (* [make(chan *Client, 256)] *)
  broadcast : list BroadcastMessage;     (* [make(chan *BroadcastMessage, 1024)] *)
  subscriptionManager : SubscriptionManager
}.

Definition registerCapacity : nat := 256.
Definition unregisterCapacity : nat := 256.
Definition broadcastCapacity : nat := 1024.

(** [NewHub] *)
Definition NewHub : Hub := mkHub ∅ [] [] [] NewSubscriptionManager.

(** The Hub together with the client objects its references point to. *)
Record State := mkState { hub : Hub; heap : gmap ClientRef Client.t }.

Definition withHub (st : State) (h : Hub) : State := mkState h (heap st).
Definition withClient (st : State) (ref : ClientRef) (c : Client.t) : State :=
  mkState (hub st) (<[ref := c]> (heap st)).
Definition withSubscriptions (st : State) (sm : SubscriptionManager) : State :=
  withHub st (mkHub (clients (hub st)) (register (hub st)) (unregister (hub st))
                    (broadcast (hub st)) sm).

(** [h.unregister <- client]: a plain channel send.  It completes when the
    buffer has room and parks the sending goroutine otherwise. *)
Definition sendUnregister (st : State) (client : ClientRef) : Outcome State :=
  if (length (unregister (hub st)) <? unregisterCapacity)%nat
  then Done (withHub st (mkHub (clients (hub st)) (register (hub st))
                               (unregister (hub st) ++ [client])
                               (broadcast (hub st)) (subscriptionManager (hub st))))
  else Blocked st.

(** [Hub.Register], [Hub.Unregister], [Hub.Broadcast]: sends made by other
    goroutines. *)
Definition Hub_Register (st : State) (client : ClientRef) : Outcome State :=
  if (length (register (hub st)) <? registerCapacity)%nat
  then Done (withHub st (mkHub (clients (hub st)) (register (hub st) ++ [client])
                               (unregister (hub st)) (broadcast (hub st))
                               (subscriptionManager (hub st))))
  else Blocked st.

Definition Hub_Unregister := sendUnregister.

Definition Hub_Broadcast (st : State) (channel data : string) : Outcome State :=
  if (length (broadcast (hub st)) <? broadcastCapacity)%nat
  then Done (withHub st (mkHub (clients (hub st)) (register (hub st)) (unregister (hub st))
                               (broadcast (hub st) ++ [mkBroadcastMessage channel data])
                               (subscriptionManager (hub st))))
  else Blocked st.

(** [Hub.Subscribe], [Hub.Unsubscribe] *)
Definition Hub_Subscribe (st : State) (client : ClientRef) (channel : string) : State :=
  withSubscriptions st (sm_Subscribe (subscriptionManager (hub st)) client channel).
Definition Hub_Unsubscribe (st : State) (client : ClientRef) (channel : string) : State :=
  withSubscriptions st (sm_Unsubscribe (subscriptionManager (hub st)) client channel).

(** The body of the [for client := range subscribers] loop of
    [broadcastToChannel], for the clients still to visit. *)
Fixpoint broadcastLoop (message : BroadcastMessage) (toVisit : list ClientRef) (st : State)
    : Outcome State :=
  match toVisit with
  | [] => Done st
  | client :: rest =>
      match heap st !! client with
      | None => Panic
      | Some c =>
          match trySend c (Update (Channel message) (Data message)) with
          | Sent c' => broadcastLoop message rest (withClient st client c')
          | SendOnClosed => Panic
          | WouldBlock =>
              match sendUnregister st client with
              | Done st' => broadcastLoop message rest st'
              | other => other
              end
          end
      end
  end.

(** [broadcastToChannel].  Go visits the keys of a map in an order of its
    own choosing: [range] is that choice. *)
Definition broadcastToChannel (range : gset ClientRef -> list ClientRef)
    (st : State) (message : BroadcastMessage) : Outcome State :=
  let subscribers := GetSubscribers (subscriptionManager (hub st)) (Channel message) in
  if decide (size subscribers = 0%nat) then Done st
  else broadcastLoop message (range subscribers) st.

(** The cases of the [select] in [Hub.Run]; each takes the value at the
    head of its channel.  The register case calls [h.ClientCount()] after
    it released [h.mu]. *)
Definition Run_register (st : State) : Outcome State :=
  match register (hub st) with
  | [] => Blocked st
  | client :: rest =>
      Done (withHub st (mkHub ({[client]} ∪ clients (hub st)) rest (unregister (hub st))
                              (broadcast (hub st)) (subscriptionManager (hub st))))
  end.

(** The unregister case.  A registered client is removed while the Hub
    holds [h.mu.Lock()], and the log line that follows, still under the
    lock, calls [h.ClientCount()], which takes [h.mu.RLock()]: a
    [sync.RWMutex] is not reentrant, so the Hub's goroutine parks there, in
    the state the removal left. *)
Definition Run_unregister (st : State) : Outcome State :=
  match unregister (hub st) with
  | [] => Blocked st
  | client :: rest =>
      let st := withHub st (mkHub (clients (hub st)) (register (hub st)) rest
                                  (broadcast (hub st)) (subscriptionManager (hub st))) in
      if decide (client ∈ clients (hub st)) then
        match heap st !! client with
        | None => Panic
        | Some c =>
            match closeSend c with
            | None => Panic
            | Some c' =>
                Blocked (mkState
                           (mkHub (clients (hub st) ∖ {[client]}) (register (hub st))
                                  (unregister (hub st)) (broadcast (hub st))
                                  (UnsubscribeAll (subscriptionManager (hub st)) client))
                           (<[client := c']> (heap st)))
            end
        end
      else Done st
  end.

Definition Run_broadcast (range : gset ClientRef -> list ClientRef) (st : State)
    : Outcome State :=
  match broadcast (hub st) with
  | [] => Blocked st
  | message :: rest =>
      broadcastToChannel range
        (withHub st (mkHub (clients (hub st)) (register (hub st)) (unregister (hub st))
                           rest (subscriptionManager (hub st))))
        message
  end.

(** client.go: [sendError] and [sendResponse] drop the frame when the
    queue is full. *)
Definition sendFrame (st : State) (ref : ClientRef) (x : Frame) : Outcome State :=
  match heap st !! ref with
  | None => Panic
  | Some c =>
      match trySend c x with
      | Sent c' => Done (withClient st ref c')
      | WouldBlock => Done st
      | SendOnClosed => Panic
      end
  end.

Definition sendError (st : State) (ref : ClientRef) (errMsg : string) : Outcome State :=
  sendFrame st ref (Error errMsg).
Definition sendResponse (st : State) (ref : ClientRef) (responseType : string)
    (data : option (string * string)) : Outcome State :=
  sendFrame st ref (Response responseType data).

(** [buildChannelName] *)
Definition buildChannelName (channel symbol : string) : string :=
  if negb (String.eqb symbol "") then String.append channel (String.append ":" symbol)
  else channel.

(** [handleSubscribe] *)
Definition handleSubscribe (st : State) (ref : ClientRef) (msg : Message) : Outcome State :=
  match asString msg "channel" with
  | None => sendError st ref "Missing 'channel' field"
  | Some channel =>
      let symbol := default "" (asString msg "symbol") in
      let fullChannel := buildChannelName channel symbol in
      let st := Hub_Subscribe st ref fullChannel in
      sendResponse st ref "subscribed" (Some (channel, symbol))
  end.

(** [handleUnsubscribe] *)
Definition handleUnsubscribe (st : State) (ref : ClientRef) (msg : Message) : Outcome State :=
  match asString msg "channel" with
  | None => sendError st ref "Missing 'channel' field"
  | Some channel =>
      let symbol := default "" (asString msg "symbol") in
      let fullChannel := buildChannelName channel symbol in
      let st := Hub_Unsubscribe st ref fullChannel in
      sendResponse st ref "unsubscribed" (Some (channel, symbol))
  end.

(** [handlePing] *)
Definition handlePing (st : State) (ref : ClientRef) : Outcome State :=
  sendResponse st ref "pong" None.

(** [handleMessage]; [None] is a frame that is not valid JSON. *)
Definition handleMessage (st : State) (ref : ClientRef) (message : option Message)
    : Outcome State :=
  match message with
  | None => sendError st ref "Invalid JSON format"
  | Some msg =>
      match asString msg "action" with
      | None => sendError st ref "Missing 'action' field"
      | Some action =>
          if String.eqb action "subscribe" then handleSubscribe st ref msg
          else if String.eqb action "unsubscribe" then handleUnsubscribe st ref msg
          else if String.eqb action "ping" then handlePing st ref
          else sendError st ref (String.append "Unknown action: " action)
      end
  end.

(** [writePump], one turn of its loop on [c.send]: it writes what is
    queued; once the channel is closed and drained it sends the close frame
    and returns, which closes the connection. *)
Definition writePump_turn (c : Client.t) : Client.t :=
  match Client.send c with
  | _ :: _ => Client.mk [] (Client.sendClosed c) (Client.connClosed c) (Client.id c)
  | [] => if Client.sendClosed c
          then Client.mk [] true true (Client.id c)
          else c
  end.

(** broadcaster.go: [handleRedisMessage] strips the prefix and hands the
    message to the Hub; a payload that is not valid JSON ([None]) is logged
    and skipped. *)
Definition TrimPrefix (s prefix : string) : string :=
  if String.prefix prefix s
  then String.substring (String.length prefix) (String.length s - String.length prefix) s
  else s.

Definition handleRedisMessage (st : State) (redisChannel : string) (payload : option string)
    : Outcome State :=
  let channel := TrimPrefix redisChannel "market:" in
  match payload with
  | None => Done st
  | Some data => Hub_Broadcast st channel data
  end.

(** [BroadcastTicker], [BroadcastDepth], [BroadcastTrade], [BroadcastKline]:
    the Redis channel each publishes on. *)
Definition BroadcastTicker_channel (symbol : string) : string :=
  String.append "market:" (String.append "ticker:" symbol).
Definition BroadcastDepth_channel (symbol : string) : string :=
  String.append "market:" (String.append "depth:" symbol).
Definition BroadcastTrade_channel (symbol : string) : string :=
  String.append "market:" (String.append "trade:" symbol).
Definition BroadcastKline_channel (symbol interval : string) : string :=
  String.append "market:"
    (String.append "kline:" (String.append symbol (String.append ":" interval))).
End websocket.

(** ** Vocabulary for statements about the merger *)

(** The reading the next call of [time.Now()] returns, and the one returned
    after [k] further calls. *)
Definition nextReading (w : World) : Z := readings w (ticks w).
Definition readingAfter (k : nat) (w : World) : Z := readings w (ticks w + k)%nat.

(** A cached side is fresh at [now] when it is present and was stamped less
    than 5000 ms before [now]. *)
Definition sideFresh (c : option CachedData.t) (now : Z) : bool :=
  match c with
  | Some d => now - CachedData.Timestamp d <? 5000
  | None => false
  end.

(** A side is stale from [w] on when it is not fresh at any reading the
    clock still has to return. *)
Definition sideStale (c : option CachedData.t) (w : World) : Prop :=
  forall n, (ticks w <= n)%nat -> sideFresh c (readings w n) = false.

(** The ticker a side contributes at [now]: present, with a ticker, fresh. *)
Definition freshTickerAt (c : option CachedData.t) (now : Z) : option Ticker.t :=
  if sideFresh c now then merger.cachedTicker c else None.

(** [c != nil && c.Depth != nil], and the book a side contributes at [now]. *)
Definition cachedDepth (c : option CachedData.t) : option OrderBook.t :=
  match c with Some d => CachedData.Depth d | None => None end.
Definition freshDepthAt (c : option CachedData.t) (now : Z) : option OrderBook.t :=
  if sideFresh c now then cachedDepth c else None.

(** How many clock readings the guard on one side consumes. *)
Definition guardReads (c : option CachedData.t) : nat :=
  match merger.cachedTicker c with Some _ => 1%nat | None => 0%nat end.

(** 24h volume a side's cache reports, whatever its age; zero when the side
    has no cached ticker. *)
Definition cachedVolume (c : option CachedData.t) : float64 :=
  match merger.cachedTicker c with Some tk => Ticker.Volume24h tk | None => 0%float end.

(** The merged ticker the specification describes, built from the chosen
    side [tk] tagged [source]. *)
Definition spec_mergedTicker (internal external : option CachedData.t)
    (symbol source : string) (tk : Ticker.t) : TickerWithSource.t :=
  TickerWithSource.mk symbol (Ticker.LastPrice tk) source
    (Ticker.BidPrice tk) (Ticker.AskPrice tk) (Ticker.High24h tk) (Ticker.Low24h tk)
    (cachedVolume internal) (cachedVolume external)
    (cachedVolume internal + cachedVolume external)%float
    (Ticker.Timestamp tk).

(** The specification's priority rule: the fresh internal side if there is
    one, else the fresh external side, else nothing.  [now1] is the time at
    which the internal side is examined, [now2] the time at which the
    external side is. *)
Definition spec_mergeTickerPriority (internal external : option CachedData.t)
    (symbol : string) (now1 now2 : Z) : option TickerWithSource.t :=
  match freshTickerAt internal now1 with
  | Some tk => Some (spec_mergedTicker internal external symbol constants.SourceInternal tk)
  | None =>
      match freshTickerAt external now2 with
      | Some tk => Some (spec_mergedTicker internal external symbol constants.SourceExternal tk)
      | None => None
      end
  end.

(** Over the next [k] readings the clock behaves as clocks ordinarily do
    within one call: it does not run backwards, and less than 5000 ms pass
    between the next reading and any of the [k] that follow it. *)
Definition clockSteady (w : World) (k : nat) : Prop :=
  forall i, (i <= k)%nat -> nextReading w <= readingAfter i w < nextReading w + 5000.

(** The side of the cache a record is filed under: [cacheData] files under
    the internal side what is tagged internal and under the external side
    everything else. *)
Definition fromInternal (data : MarketData.t) : bool :=
  String.eqb (MarketData.Source data) constants.SourceInternal.
Definition sideOf (data : MarketData.t) (m : merger.DataMerger) : gmap string CachedData.t :=
  if fromInternal data then merger.internalData m else merger.externalData m.
Definition otherSideOf (data : MarketData.t) (m : merger.DataMerger)
    : gmap string CachedData.t :=
  if fromInternal data then merger.externalData m else merger.internalData m.
Definition sourceOf (data : MarketData.t) : string :=
  if fromInternal data then constants.SourceInternal else constants.SourceExternal.

(** The levels of one side of a book, each tagged with [source]. *)
Definition tagged (source : string) (levels : list PriceLevel.t)
    : list PriceLevelWithSource.t :=
  map (fun l => PriceLevelWithSource.mk (PriceLevel.Price l) (PriceLevel.Amount l) source)
      levels.

(** The bids and the asks of a book that may be absent. *)
Definition bidsOf (ob : option OrderBook.t) : list PriceLevel.t :=
  from_option OrderBook.Bids [] ob.
Definition asksOf (ob : option OrderBook.t) : list PriceLevel.t :=
  from_option OrderBook.Asks [] ob.

(** How many clock readings the depth guard on one side consumes. *)
Definition depthGuardReads (c : option CachedData.t) : nat :=
  match cachedDepth c with Some _ => 1%nat | None => 0%nat end.

(** Every price of a tagged side is a number; a tagged side in descending
    and in ascending order of price, with Go's comparisons. *)
Definition taggedPricesAreNumbers (l : list PriceLevelWithSource.t) : Prop :=
  Forall (fun x => PrimFloat.is_nan (PriceLevelWithSource.Price x) = false) l.
Definition taggedBidsDescending (l : list PriceLevelWithSource.t) : Prop :=
  Sorted (fun a b => f64_geb (PriceLevelWithSource.Price a) (PriceLevelWithSource.Price b)
                     = true) l.
Definition taggedAsksAscending (l : list PriceLevelWithSource.t) : Prop :=
  Sorted (fun a b => PrimFloat.leb (PriceLevelWithSource.Price a)
                                   (PriceLevelWithSource.Price b) = true) l.

(** A merged depth record that carries no level at all. *)
Definition emptyMergedDepth (md : MarketData.t) : Prop :=
  exists ob, MarketData.Data md = POrderBookWithSource ob
    /\ OrderBookWithSource.Bids ob = [] /\ OrderBookWithSource.Asks ob = []
    /\ OrderBookWithSource.InternalBidsCount ob = 0
    /\ OrderBookWithSource.ExternalBidsCount ob = 0
    /\ OrderBookWithSource.InternalAsksCount ob = 0
    /\ OrderBookWithSource.ExternalAsksCount ob = 0.

(** ** Vocabulary for statements about publishing and fan-out *)

(** The channels of the [Publish] commands among [cmds], in order. *)
Definition publishedOn (cmds : list storage.Command) : list string :=
  omap (fun c => match c with storage.Publish channel _ => Some channel | _ => None end) cmds.

(** The reader loop of a client ([readPump]) over the frames it reads, each
    decoded as JSON or not decodable. *)
Fixpoint readPump_messages (st : websocket.State) (ref : websocket.ClientRef)
    (messages : list (option websocket.Message)) : websocket.Outcome websocket.State :=
  match messages with
  | [] => websocket.Done st
  | message :: rest =>
      match websocket.handleMessage st ref message with
      | websocket.Done st' => readPump_messages st' ref rest
      | other => other
      end
  end.

(** What holds of the state a step completes in; false when it does not
    complete. *)
Definition completesWith {A} (o : websocket.Outcome A) (P : A -> Prop) : Prop :=
  match o with
  | websocket.Done a => P a
  | _ => False
  end.

(** What holds of the state a goroutine is parked in; false when it is not
    parked. *)
Definition blocksWith {A} (o : websocket.Outcome A) (P : A -> Prop) : Prop :=
  match o with
  | websocket.Blocked a => P a
  | _ => False
  end.

(** The client [c] after the frame [x] was appended to its queue. *)
Definition pushed (c : websocket.Client.t) (x : websocket.Frame) : websocket.Client.t :=
  websocket.Client.mk (websocket.Client.send c ++ [x]) false
    (websocket.Client.connClosed c) (websocket.Client.id c).

(** The subscription index is consistent in the direction [UnsubscribeAll]
    relies on: a client listed under a channel has that channel in its own
    set. *)
Definition indexConsistent (sm : websocket.SubscriptionManager) : Prop :=
  forall channel subscribers client,
    websocket.channelSubscribers sm !! channel = Some subscribers ->
    client ∈ subscribers ->
    exists channels,
      websocket.clientSubscriptions sm !! client = Some channels /\ channel ∈ channels.

(** [client] is listed under [channel] in the channel-to-subscribers map. *)
Definition listed (cs : gmap string (gset websocket.ClientRef)) (channel : string)
    (client : websocket.ClientRef) : Prop :=
  exists subscribers, cs !! channel = Some subscribers /\ client ∈ subscribers.

(** The queue of a client, empty when the reference is dangling. *)
Definition queueOf (st : websocket.State) (ref : websocket.ClientRef) : list websocket.Frame :=
  from_option websocket.Client.send [] (websocket.heap st !! ref).

(** The frame [{"action":"subscribe","channel":channel,"symbol":symbol}]. *)
Definition subscribeFrame (channel symbol : string) : option websocket.Message :=
  Some (<["action" := websocket.JString "subscribe"]>
        (<["channel" := websocket.JString channel]>
         (<["symbol" := websocket.JString symbol]> ∅))).

(** A Hub that registered the clients [refs], each with an empty queue. *)
Definition hubWithClients (refs : list websocket.ClientRef) : websocket.State :=
  websocket.mkState
    (websocket.mkHub (list_to_set refs) [] [] [] websocket.NewSubscriptionManager)
    (list_to_map (map (fun r => (r, websocket.NewClient "")) refs)).

(** ** Vocabulary for statements about order books *)

(** [bids[i].price >= bids[i+1].price] and [asks[i].price <= asks[i+1].price],
    with Go's comparisons. *)
Definition bidsDescending (l : list PriceLevel.t) : Prop :=
  Sorted (fun a b => f64_geb (PriceLevel.Price a) (PriceLevel.Price b) = true) l.
Definition asksAscending (l : list PriceLevel.t) : Prop :=
  Sorted (fun a b => PrimFloat.leb (PriceLevel.Price a) (PriceLevel.Price b) = true) l.

(** Every price of the side is a number.  JSON has no NaN, and the books the
    processor receives are decoded from JSON. *)
Definition pricesAreNumbers (l : list PriceLevel.t) : Prop :=
  Forall (fun x => PrimFloat.is_nan (PriceLevel.Price x) = false) l.

(** The manager and the store after a run of full-replace updates. *)
Definition runUpdates {S : Type} {store : handler.StorageInterface S}
    (m : handler.DepthManager.t) (updates : list OrderBook.t) (s : S)
    : handler.DepthManager.t * S :=
  foldl (fun '(m, s) depth =>
           let '(_, m, s) := handler.UpdateDepth m depth s in (m, s))
        (m, s) updates.

(** ** Vocabulary for statements about candles *)

(** The length of an interval in milliseconds. *)
Definition periodMs (interval : string) : Z :=
  if String.eqb interval "1m" then 60000
  else if String.eqb interval "5m" then 5 * 60000
  else if String.eqb interval "15m" then 15 * 60000
  else if String.eqb interval "30m" then 30 * 60000
  else if String.eqb interval "1h" then 3600000
  else if String.eqb interval "4h" then 4 * 3600000
  else if String.eqb interval "1d" then 24 * 3600000
  else 0.

(** The UTC offset a zone has at Unix second [sec]. *)
Definition offsetAt (l : time.Location) (sec : Z) : Z := fst (fst (time.lookup l sec)).

(** No transition of the zone takes effect after [lo] and up to [hi]. *)
Definition steadyBetween (l : time.Location) (lo hi : Z) : Prop :=
  Forall (fun tr => time.when tr <= lo \/ hi < time.when tr) (time.tx l).

(** The instants, in Unix seconds, at which the computation of the open
    time of [t] consults the zone: they lie between one period before [t]
    and [t], moved by the zone's offset at [t] (earlier west of UTC, later
    east of it), because [time.Date] first looks the zone up at the
    wall-clock reading taken as if it were UTC. *)
Definition consultedFrom (l : time.Location) (t : Z) (interval : string) : Z :=
  t / 1000 - periodMs interval / 1000 + Z.min 0 (offsetAt l (t / 1000)).
Definition consultedTo (l : time.Location) (t : Z) (interval : string) : Z :=
  t / 1000 + Z.max 0 (offsetAt l (t / 1000)).

(** [t] is at least one period of [interval] away from both int64 limits. *)
Definition withinInt64 (t : Z) (interval : string) : Prop :=
  int64_min + periodMs interval <= t <= int64_max - periodMs interval.

(** The aggregator and the store after a run of trades, fed in order. *)
Definition feedTrades {S : Type} {store : handler.StorageInterface S} (Local : time.Location)
    (a : handler.KlineAggregator.t) (trades : list Trade.t) (s : S)
    : handler.KlineAggregator.t * S :=
  foldl (fun '(a, s) trade =>
           let '(_, a, s) := handler.AddTrade Local a trade s in (a, s))
        (a, s) trades.

(** [trade] opens a new period for the aggregator: there is no open candle,
    or the open candle belongs to another period. *)
Definition opensNewPeriod (Local : time.Location) (a : handler.KlineAggregator.t)
    (trade : Trade.t) : Prop :=
  match handler.KlineAggregator.currentKline a with
  | None => True
  | Some k =>
      Kline.OpenTime k <>
        utils.GetKlineOpenTime Local (Trade.Timestamp trade) (handler.KlineAggregator.interval a)
  end.

(** The store after the open candle, if there is one, was handed to it. *)
Definition persistOpenCandle {S : Type} {store : handler.StorageInterface S}
    (a : handler.KlineAggregator.t) (s : S) : S :=
  match handler.KlineAggregator.currentKline a with
  | Some k => snd (handler.SaveKline k s)
  | None => s
  end.

(** ** Concrete data used by the examples *)

Module Examples.
Import constants.

Definition hybridPriority : SymbolConfig.t :=
  SymbolConfig.mk "BTCUSDT" ModeHybrid "internal" "binance" MergeStrategyPriority true "".
Definition hybridSupplement : SymbolConfig.t :=
  SymbolConfig.mk "BTCUSDT" ModeHybrid "internal" "binance" MergeStrategySupplement true "".

Definition t0 : Z := 1700000000000.

(** A clock that advances by one millisecond per reading. *)
Definition steadyClock : World := mkWorld (fun n => t0 + Z.of_nat n) 0.

Definition externalTicker : MarketData.t :=
  MarketData.mk "binance" "BTCUSDT" DataTypeTicker SourceExternal t0
    (PTicker (Ticker.mk "BTCUSDT" 45010 45005 45015 46000 44000 1200 t0)).
Definition externalDepth : MarketData.t :=
  MarketData.mk "binance" "BTCUSDT" DataTypeDepth SourceExternal t0
    (PDepth (OrderBook.mk "BTCUSDT" [PriceLevel.mk 44998 2] [PriceLevel.mk 45002 1] t0)).
Definition internalTrade : MarketData.t :=
  MarketData.mk "internal" "BTCUSDT" DataTypeTrade SourceInternal t0
    (PTrade (Trade.mk "BTCUSDT" "t-1" 45000 0.5 "buy" t0)).

(** An internal side whose ticker and book were cached seven seconds
    before [t0]. *)
Definition internalTickerOld : Ticker.t :=
  Ticker.mk "BTCUSDT" 45000 44999 45001 46000 44000 300 (t0 - 7000).
Definition internalBookOld : OrderBook.t :=
  OrderBook.mk "BTCUSDT" [PriceLevel.mk 44999 1.5] [PriceLevel.mk 45001 1] (t0 - 7000).
Definition staleInternal : CachedData.t :=
  CachedData.mk (Some internalTickerOld) (Some internalBookOld) [] (t0 - 7000).
Definition mergerWithStaleInternal : merger.DataMerger :=
  merger.mkDataMerger {[ "BTCUSDT" := hybridPriority ]} {[ "BTCUSDT" := staleInternal ]} ∅.

(** Both sides cached long ago: the internal one seven seconds, the
    external one eight seconds before [t0]. *)
Definition externalTickerOld : Ticker.t :=
  Ticker.mk "BTCUSDT" 45008 45003 45013 46050 43950 1100 (t0 - 8000).
Definition externalBookOld : OrderBook.t :=
  OrderBook.mk "BTCUSDT" [PriceLevel.mk 44997 3] [PriceLevel.mk 45003 2] (t0 - 8000).
Definition staleExternal : CachedData.t :=
  CachedData.mk (Some externalTickerOld) (Some externalBookOld) [] (t0 - 8000).
Definition mergerWithStaleSides : merger.DataMerger :=
  merger.mkDataMerger {[ "BTCUSDT" := hybridPriority ]}
    {[ "BTCUSDT" := staleInternal ]} {[ "BTCUSDT" := staleExternal ]}.
Definition internalDepth : MarketData.t :=
  MarketData.mk "internal" "BTCUSDT" DataTypeDepth SourceInternal t0
    (PDepth (OrderBook.mk "BTCUSDT" [PriceLevel.mk 44999 1.5] [PriceLevel.mk 45001 1] t0)).

(** America/New_York around the end of daylight saving time in 2024:
    UTC-4 until 2024-11-03 06:00:00 UTC, UTC-5 from then on. *)
Definition NewYork2024 : time.Location :=
  time.mkLocation (-14400) [time.mkZoneTrans 1730613600 (-18000)].

(** 2024-11-03 23:30:00 in New York (2024-11-04 04:30:00 UTC). *)
Definition lateEvening : Z := 1730694600000.

(** 2024-11-06 23:30:00 in New York, three days after the transition. *)
Definition laterThatWeek : Z := 1730953800000.

(** 2024-11-03 01:30:00 EST in New York (06:30:00 UTC), half an hour after
    the clocks went back: the wall clock shows 01:30 for the second time. *)
Definition repeatedHour : Z := 1730615400000.

(** An encoder that maps every value to the same text; which text a value
    encodes to does not matter for the commands that are issued. *)
#[global] Instance opaqueEncoder : utils.JSONEncoder := {| utils.ToJSON := fun _ => Some "{}" |}.

(** A Redis server that executes every request. *)
Definition reliableRedis : storage.RedisStorage :=
  storage.mkRedisStorage [] (fun _ => false) (fun _ => []) 0.

(** Scenario S1 of the specification: [T] floors to [O] for interval 1m. *)
Definition O_1m : Z := 1700000040000.
Definition tradeS1 : Trade.t := Trade.mk "BTCUSDT" "t-1" 45000 0.5 "buy" (O_1m + 12345).
Definition tradeS1_same : Trade.t :=
  Trade.mk "BTCUSDT" "t-1b" 45020 0.125 "sell" (O_1m + 59999).
Definition tradeS1_next : Trade.t :=
  Trade.mk "BTCUSDT" "t-2" 45050 0.25 "sell" (O_1m + 60000 + 10).

(** Scenario S3: the internal side was cached 7000 ms before the merge, the
    external side 100 ms before it. *)
Definition now_S3 : Z := t0 + 7000.
Definition internalS3 : CachedData.t :=
  CachedData.mk (Some (Ticker.mk "BTCUSDT" 45000 44999 45001 46000 44000 300 t0))
                None [] t0.
Definition externalS3 : CachedData.t :=
  CachedData.mk (Some (Ticker.mk "BTCUSDT" 45010 45005 45015 46100 43900 1200 (t0 + 6900)))
                None [] (t0 + 6900).

(** Scenario S2: one bid on each side, both cached within 5 s. *)
Definition internalS2 : CachedData.t :=
  CachedData.mk None (Some (OrderBook.mk "BTCUSDT" [PriceLevel.mk 44999 1.5] [] t0)) [] t0.
Definition externalS2 : CachedData.t :=
  CachedData.mk None (Some (OrderBook.mk "BTCUSDT" [PriceLevel.mk 44998 2] [] t0)) [] t0.

(** A book side of [n] levels, one price unit apart, starting at [first]
    and going down (bids) or up (asks). *)
Definition price (z : Z) : float64 := PrimFloat.of_uint63 (Uint63.of_Z z).
Definition bidLevels (first : Z) (n : nat) : list PriceLevel.t :=
  map (fun i => PriceLevel.mk (price (first - Z.of_nat i)) 1) (seq 0 n).
Definition askLevels (first : Z) (n : nat) : list PriceLevel.t :=
  map (fun i => PriceLevel.mk (price (first + Z.of_nat i)) 1) (seq 0 n).
Definition deepBook : OrderBook.t :=
  OrderBook.mk "BTCUSDT" (bidLevels 44999 101) (askLevels 45001 101) t0.
Definition shuffledBook : OrderBook.t :=
  OrderBook.mk "BTCUSDT"
    [PriceLevel.mk 44998 2; PriceLevel.mk 44999 1.5; PriceLevel.mk 44997 1]
    [PriceLevel.mk 45003 1; PriceLevel.mk 45001 0.5; PriceLevel.mk 45002 4] t0.

Definition tickerBTC : Ticker.t :=
  Ticker.mk "BTCUSDT" 45000 44999 45001 46000 44000 300 t0.
Definition bookBTC : OrderBook.t :=
  OrderBook.mk "BTCUSDT" [PriceLevel.mk 44999 1.5] [PriceLevel.mk 45001 1] t0.
Definition tradeBTC : Trade.t := Trade.mk "BTCUSDT" "t-1" 45000 0.5 "buy" t0.

Definition twentyOneSymbols : list string :=
  ["BTCUSDT"; "ETHUSDT"; "BNBUSDT"; "SOLUSDT"; "XRPUSDT"; "ADAUSDT"; "DOGEUSDT";
   "TRXUSDT"; "DOTUSDT"; "LTCUSDT"; "AVAXUSDT"; "LINKUSDT"; "ATOMUSDT"; "UNIUSDT";
   "XLMUSDT"; "ETCUSDT"; "FILUSDT"; "APTUSDT"; "NEARUSDT"; "ARBUSDT"; "OPUSDT"].

(** A channel with 258 subscribers: the clients 1 to 257 do not read and
    their queues are full, client 258 keeps up. *)
Definition stalledClient : websocket.Client.t :=
  websocket.Client.mk (replicate 256 (websocket.Update "ticker:BTCUSDT" "{}")) false false "".
Definition crowd : list websocket.ClientRef := seq 1 258.
Definition crowdedHub : websocket.State :=
  websocket.mkState
    (websocket.mkHub (list_to_set crowd) [] [] []
       (websocket.mkSubscriptionManager
          {[ "ticker:BTCUSDT" := list_to_set crowd ]}
          (list_to_map (map (fun r => (r, {[ "ticker:BTCUSDT" ]})) crowd))))
    (list_to_map
       (map (fun r => (r, if (r <=? 257)%nat then stalledClient else websocket.NewClient ""))
            crowd)).
Definition nextTicker : websocket.BroadcastMessage :=
  websocket.mkBroadcastMessage "ticker:BTCUSDT" "{}".
End Examples.

(** ** Go's [strings] package and conversions, as far as the adapters use them *)

Module strings.
(** [HasSuffix]: [len(s) >= len(suffix) && s[len(s)-len(suffix):] == suffix] *)
Definition HasSuffix (s suffix : string) : bool :=
  (String.length suffix <=? String.length s)%nat
  && String.eqb (String.substring (String.length s - String.length suffix)
                                  (String.length suffix) s) suffix.

(** [TrimSuffix]: [s[:len(s)-len(suffix)]] when [s] has the suffix. *)
Definition TrimSuffix (s suffix : string) : string :=
  if HasSuffix s suffix
  then String.substring 0 (String.length s - String.length suffix) s
  else s.

(** [ReplaceAll(s, old, "")] for a one-byte [old]: every such byte is
    dropped. *)
Fixpoint ReplaceAll_byte_empty (s : string) (old : Ascii.ascii) : string :=
  match s with
  | EmptyString => EmptyString
  | String c s' =>
      if Ascii.eqb c old then ReplaceAll_byte_empty s' old
      else String c (ReplaceAll_byte_empty s' old)
  end.

(** [Split(s, sep)] for a one-byte [sep]: the pieces between the
    separators, one more than there are separators. *)
Fixpoint Split_byte (s : string) (sep : Ascii.ascii) : list string :=
  match s with
  | EmptyString => [EmptyString]
  | String c s' =>
      if Ascii.eqb c sep then EmptyString :: Split_byte s' sep
      else match Split_byte s' sep with
           | piece :: pieces => String c piece :: pieces
           | [] => [String c EmptyString]
           end
  end.
End strings.

(** [time.Duration] is an int64 count of nanoseconds.  [float64(d)] rounds
    to the nearest float64; [time.Duration(f)] drops the fraction.  Where
    the value does not fit an int64 Go leaves the result to the
    implementation; it is 0 here. *)
Module duration.
Definition Nanosecond : Z := 1.
Definition Second : Z := 1000000000.

Definition float64_of_int64 (z : Z) : float64 :=
  if z <? 0 then PrimFloat.opp (PrimFloat.of_uint63 (Uint63.of_Z (- z)))
  else PrimFloat.of_uint63 (Uint63.of_Z z).

Definition int64_of_float64 (f : float64) : Z :=
  match Prim2SF f with
  | S754_finite s m e =>
      let v := if 0 <=? e then Z.pos m * 2 ^ e else Z.pos m / 2 ^ (- e) in
      let v := if s then - v else v in
      if (- 2 ^ 63 <=? v) && (v <? 2 ^ 63) then v else 0
  | _ => 0
  end.
End duration.

(** ** services/collector/internal/adapters: the OKX adapter

    The network is seen through what the adapter does to it: the
    connection attempts it makes, each of which succeeds or not, the
    messages it writes, each of which goes through or not, and the pauses
    it takes. *)

Module okx.
Import constants Stdlib.Strings.Ascii.

Record ReconnectConfig := mkReconnectConfig {
  MaxRetries : Z;
  InitialDelay : Z;        (* time.Duration *)
  MaxDelay : Z;            (* time.Duration *)
  Multiplier : float64
}.

(** The subscribe message [{"op":"subscribe","args":[{"channel":..,"instId":..},..]}]. *)
Record SubscribeMessage := mkSubscribeMessage { op : string; args : list (string * string) }.

Record Network := mkNetwork {
  dialSucceeds : nat -> bool;     (* whether the n-th [Dial] connects *)
  dialed : nat;
  writeSucceeds : nat -> bool;    (* whether the n-th [WriteJSON] goes through *)
  writes : nat;
  sent : list SubscribeMessage;   (* what went through, oldest first *)
  slept : list Z                  (* the arguments of [time.Sleep], oldest first *)
}.

Record OKXAdapter := mkOKXAdapter {
  wsURL : string;
  connected : bool;
  reconnect : bool;
  subscriptions : list string;
  reconnectConf : ReconnectConfig
}.

Definition error := string.

(** [NewOKXAdapter] *)
Definition NewOKXAdapter (wsURL : string) : OKXAdapter :=
  let wsURL := if String.eqb wsURL "" then "wss://ws.okx.com:8443/ws/v5/public" else wsURL in
  mkOKXAdapter wsURL false true []
    (mkReconnectConfig 10 (1 * duration.Second) (60 * duration.Second) 2%float).

(** [dialer.Dial] *)
Definition Dial (net : Network) : bool * Network :=
  (dialSucceeds net (dialed net),
   mkNetwork (dialSucceeds net) (S (dialed net)) (writeSucceeds net) (writes net)
             (sent net) (slept net)).

(** [conn.WriteJSON] *)
Definition WriteJSON (msg : SubscribeMessage) (net : Network) : bool * Network :=
  let ok := writeSucceeds net (writes net) in
  (ok,
   mkNetwork (dialSucceeds net) (dialed net) (writeSucceeds net) (S (writes net))
             (if ok then sent net ++ [msg] else sent net) (slept net)).

(** [time.Sleep] *)
Definition Sleep (d : Z) (net : Network) : Network :=
  mkNetwork (dialSucceeds net) (dialed net) (writeSucceeds net) (writes net)
            (sent net) (slept net ++ [d]).

(** [Connect]: the two goroutines it starts on success read from the new
    connection and are not part of this model. *)
Definition Connect (o : OKXAdapter) (net : Network) : option error * OKXAdapter * Network :=
  let '(ok, net) := Dial net in
  if ok
  then (None, mkOKXAdapter (wsURL o) true (reconnect o) (subscriptions o) (reconnectConf o), net)
  else (Some "failed to connect to okx", o, net).

(** [formatSymbol]: BTCUSDT -> BTC-USDT *)
Definition formatSymbol (symbol : string) : string :=
  if strings.HasSuffix symbol "USDT"
  then String.append (strings.TrimSuffix symbol "USDT") "-USDT"
  else symbol.

(** [parseSymbol]: BTC-USDT -> BTCUSDT *)
Definition parseSymbol (instId : string) : string :=
  strings.ReplaceAll_byte_empty instId "-"%char.

(** The [switch channel] of [Subscribe]; [None] is the [default: continue]. *)
Definition okxChannel (channel : string) : option string :=
  if String.eqb channel DataTypeTicker then Some "tickers"
  else if String.eqb channel DataTypeDepth then Some "books5"
  else if String.eqb channel DataTypeTrade then Some "trades"
  else if String.eqb channel DataTypeKline then Some "candle1m"
  else None.

(** The two nested loops of [Subscribe]: the arguments of the message and
    the strings saved for a later resubscription. *)
Definition subscribeArgs (symbols channels : list string)
    : list (string * string) * list string :=
  foldl (fun '(args, subscriptions) symbol =>
           let instId := formatSymbol symbol in
           foldl (fun '(args, subscriptions) channel =>
                    match okxChannel channel with
                    | Some okxChannel =>
                        (args ++ [(okxChannel, instId)],
                         subscriptions
                           ++ [String.append okxChannel (String.append ":" instId)])
                    | None => (args, subscriptions)
                    end)
                 (args, subscriptions) channels)
        ([], []) symbols.

(** [Subscribe] *)
Definition Subscribe (o : OKXAdapter) (symbols channels : list string) (net : Network)
    : option error * OKXAdapter * Network :=
  if negb (connected o) then (Some "not connected", o, net)
  else
    let '(args, subscriptions) := subscribeArgs symbols channels in
    let '(ok, net) := WriteJSON (mkSubscribeMessage "subscribe" args) net in
    if ok
    then (None,
          mkOKXAdapter (wsURL o) (connected o) (reconnect o)
                       (okx.subscriptions o ++ subscriptions) (reconnectConf o),
          net)
    else (Some "failed to subscribe", o, net).

(** The loop of [resubscribe]: the arguments rebuilt from the saved
    strings; a string that does not split in two at colons is skipped. *)
Definition resubscribeArgs (subscriptions : list string) : list (string * string) :=
  foldl (fun args sub =>
           match strings.Split_byte sub ":"%char with
           | [channel; instId] => args ++ [(channel, instId)]
           | _ => args
           end)
        [] subscriptions.

(** [resubscribe] *)
Definition resubscribe (o : OKXAdapter) (net : Network) : option error * Network :=
  if (length (subscriptions o) =? 0)%nat then (None, net)
  else
    let args := resubscribeArgs (subscriptions o) in
    let '(ok, net) := WriteJSON (mkSubscribeMessage "subscribe" args) net in
    if ok then (None, net) else (Some "write failed", net).

(** The two statements of [handleReconnect] that move to the next delay. *)
Definition nextDelay (conf : ReconnectConfig) (delay : Z) : Z :=
  let delay :=
    duration.int64_of_float64 (duration.float64_of_int64 delay * Multiplier conf)%float in
  if MaxDelay conf <? delay then MaxDelay conf else delay.

(** The loop of [handleReconnect], for the [remaining] =
    [MaxRetries - retries] turns it still has. *)
Fixpoint reconnectLoop (remaining : nat) (delay : Z) (o : OKXAdapter) (net : Network)
    : OKXAdapter * Network :=
  match remaining with
  | O => (o, net)
  | S remaining =>
      let net := Sleep delay net in
      let '(err, o', net) := Connect o net in
      match err with
      | None => (o', snd (resubscribe o' net))
      | Some _ => reconnectLoop remaining (nextDelay (reconnectConf o) delay) o' net
      end
  end.

(** [handleReconnect] *)
Definition handleReconnect (o : OKXAdapter) (net : Network) : OKXAdapter * Network :=
  reconnectLoop (Z.to_nat (MaxRetries (reconnectConf o))) (InitialDelay (reconnectConf o)) o net.
End okx.

(** ** common/utils/helper.go *)

Module helper.
(** [MaxFloat], [MinFloat] *)
Definition MaxFloat (a b : float64) : float64 := if f64_gtb a b then a else b.
Definition MinFloat (a b : float64) : float64 := if PrimFloat.ltb a b then a else b.

(** [ValidateInterval]: the lookup in the map literal; a missing key reads
    as [false]. *)
Definition validIntervals : gmap string bool :=
  <["1m" := true]> (<["5m" := true]> (<["15m" := true]> (<["30m" := true]>
  (<["1h" := true]> (<["4h" := true]> (<["1d" := true]> (<["1w" := true]> ∅))))))).
Definition ValidateInterval (interval : string) : bool :=
  default false (validIntervals !! interval).
End helper.

(** ** services/api/internal/logic/market/getdepthlogic.go *)

Module api.
Import constants.

(** [models.PriceLevel], which [types.PriceLevel] shadows from here on. *)
Abbreviation models_PriceLevel := PriceLevel.t.
Abbreviation models_Price := PriceLevel.Price.
Abbreviation models_Amount := PriceLevel.Amount.

(** [types.DepthRequest], [types.PriceLevel], [types.DepthResponse] *)
Module DepthRequest.
Record t := mk { Symbol : string; Limit : Z }.
End DepthRequest.

Module PriceLevel.
Record t := mk { Price : float64; Amount : float64 }.
End PriceLevel.

Module DepthResponse.
Record t := mk {
  Symbol : string;
  Bids : list PriceLevel.t;
  Asks : list PriceLevel.t;
  Timestamp : Z
}.
End DepthResponse.

(** [json.Unmarshal] into a [models.OrderBook]; [None] is an error. *)
Class JSONDecoder := { Unmarshal_OrderBook : string -> option OrderBook.t }.

(** What a call ends in: a response, an error, or the run-time panic of an
    index out of range. *)
Inductive Result (A : Type) :=
  | Ok (a : A)
  | Err (e : string)
  | IndexOutOfRange.
Arguments Ok {A} a.
Arguments Err {A} e.
Arguments IndexOutOfRange {A}.

(** The clamp of the limit and the loop [for i := 0; i < limit; i++] that
    copies [levels[i]]; [None] when an index is out of range. *)
Definition copyLevels (limit : Z) (levels : list models_PriceLevel) : option (list PriceLevel.t) :=
  let limit := if merger.len levels <? limit then merger.len levels else limit in
  foldl (fun out i =>
           out ← out;
           level ← levels !! i;
           Some (out ++ [PriceLevel.mk (models_Price level) (models_Amount level)]))
        (Some []) (seq 0 (Z.to_nat limit)).

(** [GetDepth]; [redisGet] is what Redis answers to a [GET], [None] when
    the key is missing or the request fails. *)
Definition GetDepth {dec : JSONDecoder} (req : DepthRequest.t)
    (redisGet : string -> option string) : Result DepthResponse.t :=
  let key := String.append RedisKeyDepth (DepthRequest.Symbol req) in
  match redisGet key with
  | None => Err "failed to get depth"
  | Some data =>
      match Unmarshal_OrderBook data with
      | None => Err "failed to parse depth data"
      | Some depth =>
          match copyLevels (DepthRequest.Limit req) (OrderBook.Bids depth),
                copyLevels (DepthRequest.Limit req) (OrderBook.Asks depth) with
          | Some bids, Some asks =>
              Ok (DepthResponse.mk (DepthRequest.Symbol req) bids asks
                                   (OrderBook.Timestamp depth))
          | _, _ => IndexOutOfRange
          end
      end
  end.
End api.

(** ** services/api/internal/websocket/hub.go: shutdown *)

Module shutdown.
Import websocket.

(** The loop of [closeAllClients] over the clients still to visit:
    [close(client.send)], which panics on a closed channel, then
    [UnsubscribeAll]. *)
Fixpoint closeLoop (toVisit : list ClientRef) (st : State) : Outcome State :=
  match toVisit with
  | [] => Done st
  | client :: rest =>
      match heap st !! client with
      | None => Panic
      | Some c =>
          match closeSend c with
          | None => Panic
          | Some c' =>
              closeLoop rest
                (mkState
                   (mkHub (clients (hub st)) (register (hub st)) (unregister (hub st))
                          (broadcast (hub st))
                          (UnsubscribeAll (subscriptionManager (hub st)) client))
                   (<[client := c']> (heap st)))
          end
      end
  end.

(** [closeAllClients]; [range] is the order Go visits the client set in. *)
Definition closeAllClients (range : gset ClientRef -> list ClientRef) (st : State)
    : Outcome State :=
  match closeLoop (range (clients (hub st))) st with
  | Done st =>
      Done (withHub st (mkHub ∅ (register (hub st)) (unregister (hub st))
                              (broadcast (hub st)) (subscriptionManager (hub st))))
  | other => other
  end.
End shutdown.

(** ** Vocabulary for statements about the subscription index *)

(** A map of sets read as a relation: [v] is in the set stored under [k]. *)
Definition related `{Countable K} `{Countable V} (m : gmap K (gset V)) (k : K) (v : V) : Prop :=
  exists s, m !! k = Some s /\ v ∈ s.

(** The calls the Hub and the clients make on the subscription manager. *)
Inductive SubscriptionCall :=
  | CallSubscribe (client : websocket.ClientRef) (channel : string)
  | CallUnsubscribe (client : websocket.ClientRef) (channel : string)
  | CallUnsubscribeAll (client : websocket.ClientRef).

Definition callSubscription (sm : websocket.SubscriptionManager) (call : SubscriptionCall)
    : websocket.SubscriptionManager :=
  match call with
  | CallSubscribe client channel => websocket.sm_Subscribe sm client channel
  | CallUnsubscribe client channel => websocket.sm_Unsubscribe sm client channel
  | CallUnsubscribeAll client => websocket.UnsubscribeAll sm client
  end.

(** The manager after a run of calls on a new one. *)
Definition afterCalls (calls : list SubscriptionCall) : websocket.SubscriptionManager :=
  foldl callSubscription websocket.NewSubscriptionManager calls.

(** The two maps of the manager describe the same subscriptions, and neither
    stores an empty set. *)
Definition indexCoherent (sm : websocket.SubscriptionManager) : Prop :=
  (forall channel client,
     related (websocket.channelSubscribers sm) channel client
     <-> related (websocket.clientSubscriptions sm) client channel)
  /\ (forall channel, websocket.channelSubscribers sm !! channel <> Some ∅)
  /\ (forall client, websocket.clientSubscriptions sm !! client <> Some ∅).

(** Removing [v] from the set under [k] and dropping the key when its set is
    left empty: what [Unsubscribe] does on each of the two maps. *)
Definition dropped `{Countable K} `{Countable V} (m : gmap K (gset V)) (k : K) (v : V)
    : gmap K (gset V) :=
  match m !! k with
  | Some s => if decide (size (s ∖ {[v]}) = 0%nat) then delete k m else <[k := s ∖ {[v]}]> m
  | None => m
  end.

(** ** Vocabulary for further statements about the merger *)

(** The merger and the clock after the collector handed it [records], in
    order. *)
Definition processAll (m : merger.DataMerger) (records : list MarketData.t) (w : World)
    : merger.DataMerger * World :=
  foldl (fun '(m, w) data => let '(_, m', w') := merger.ProcessData m data w in (m', w'))
        (m, w) records.

(** No cached side holds more than 100 trades. *)
Definition tradesWithinRing (m : merger.DataMerger) : Prop :=
  forall symbol c,
    merger.internalData m !! symbol = Some c \/ merger.externalData m !! symbol = Some c ->
    (length (CachedData.Trades c) <= 100)%nat.

(** ** Vocabulary for further statements about the store *)

(** The four save operations of the store, as one call. *)
Inductive SaveCall :=
  | CallSaveKline (kline : Kline.t)
  | CallSaveTicker (ticker : Ticker.t)
  | CallSaveDepth (depth : OrderBook.t)
  | CallSaveTrade (trade : Trade.t).

Definition save {enc : utils.JSONEncoder} (call : SaveCall) (s : storage.RedisStorage)
    : option storage.error * storage.RedisStorage :=
  match call with
  | CallSaveKline kline => storage.SaveKline kline s
  | CallSaveTicker ticker => storage.SaveTicker ticker s
  | CallSaveDepth depth => storage.SaveDepth depth s
  | CallSaveTrade trade => storage.SaveTrade trade s
  end.

(** ** Vocabulary for further statements about candles *)

(** Go's [a <= b] on float64. *)
Definition f64_leb (a b : float64) : bool := PrimFloat.leb a b.

(** A candle whose low is not above its open and close, whose high is not
    below them, and which counts at least one trade. *)
Definition candleWellFormed (k : Kline.t) : Prop :=
  f64_leb (Kline.Low k) (Kline.Open k) = true
  /\ f64_leb (Kline.Open k) (Kline.High k) = true
  /\ f64_leb (Kline.Low k) (Kline.Close k) = true
  /\ f64_leb (Kline.Close k) (Kline.High k) = true
  /\ 1 <= Kline.TradeNum k.

(** What holds of an aggregator for [symbol] and [interval] between two
    trades: it keeps its symbol and interval, and its open candle, if any,
    is well formed and carries them. *)
Definition aggregatorSteady (symbol interval : string) (a : handler.KlineAggregator.t)
    : Prop :=
  handler.KlineAggregator.symbol a = symbol
  /\ handler.KlineAggregator.interval a = interval
  /\ forall k, handler.KlineAggregator.currentKline a = Some k ->
       candleWellFormed k /\ Kline.Symbol k = symbol /\ Kline.Interval k = interval.

(** ** Vocabulary for statements about the OKX adapter *)

(** Whether the byte [c] occurs in [s]. *)
Fixpoint hasByte (c : Ascii.ascii) (s : string) : bool :=
  match s with
  | EmptyString => false
  | String c' s' => Ascii.eqb c' c || hasByte c s'
  end.

(** The adapter after a run of [Subscribe] calls, each given its symbols
    and its channels. *)
Definition subscribeAll (o : okx.OKXAdapter) (calls : list (list string * list string))
    (net : okx.Network) : okx.OKXAdapter * okx.Network :=
  foldl (fun '(o, net) '(symbols, channels) =>
           let '(_, o, net) := okx.Subscribe o symbols channels net in (o, net))
        (o, net) calls.

(** The pauses of a reconnection that never gets through: 1 s, doubling,
    capped at 60 s, ten of them. *)
Definition backoffSchedule : list Z :=
  map (fun seconds => seconds * duration.Second) [1; 2; 4; 8; 16; 32; 60; 60; 60; 60].

(** The network after [n] further connection attempts, with [pauses] taken. *)
Definition afterAttempts (net : okx.Network) (n : nat) (pauses : list Z) : okx.Network :=
  okx.mkNetwork (okx.dialSucceeds net) (n + okx.dialed net) (okx.writeSucceeds net)
                (okx.writes net) (okx.sent net) (okx.slept net ++ pauses).

(** The adapter once [Connect] went through. *)
Definition reconnected (o : okx.OKXAdapter) : okx.OKXAdapter :=
  okx.mkOKXAdapter (okx.wsURL o) true (okx.reconnect o) (okx.subscriptions o)
                   (okx.reconnectConf o).

(** ** Vocabulary for statements about the candle handler *)

(** The handler and the store after a run of trades, handled in order,
    starting with no aggregator. *)
Definition handleAll {S : Type} {store : handler.StorageInterface S} (Local : time.Location)
    (trades : list Trade.t) (s : S) : handler.KlineHandler * S :=
  foldl (fun '(h, s) trade =>
           let '(_, h, s) := handler.HandleTrade Local h trade s in (h, s))
        (∅, s) trades.

(** The key the handler files the aggregator of a symbol and an interval
    under. *)
Definition aggregatorKey (symbol interval : string) : string :=
  String.append symbol (String.append ":" interval).

(** Every aggregator is filed under the key of its own symbol and interval,
    its interval is one of the six, and its open candle carries both. *)
Definition wellFiled (h : handler.KlineHandler) : Prop :=
  forall key a, h !! key = Some a ->
    In (handler.KlineAggregator.interval a) handler.intervals
    /\ key = aggregatorKey (handler.KlineAggregator.symbol a) (handler.KlineAggregator.interval a)
    /\ forall k, handler.KlineAggregator.currentKline a = Some k ->
         Kline.Symbol k = handler.KlineAggregator.symbol a
         /\ Kline.Interval k = handler.KlineAggregator.interval a.

(** The aggregator under [key] holds the candle of [trade] for [interval]. *)
Definition holdsCandle (Local : time.Location) (h : handler.KlineHandler) (trade : Trade.t)
    (interval : string) : Prop :=
  exists a k,
    h !! aggregatorKey (Trade.Symbol trade) interval = Some a
    /\ handler.KlineAggregator.currentKline a = Some k
    /\ Kline.Symbol k = Trade.Symbol trade
    /\ Kline.Interval k = interval
    /\ Kline.Close k = Trade.Price trade
    /\ Kline.OpenTime k = utils.GetKlineOpenTime Local (Trade.Timestamp trade) interval.

(** ** Vocabulary for statements that span the processor and the API *)

(** What Redis answers to [GET key] after it executed the commands of [s]:
    the value of the last [SET] on the key, as long as it has not expired. *)
Definition redisGet (s : storage.RedisStorage) (key : string) : option string :=
  last (omap (fun c => match c with
                       | storage.Set_ k v _ => if String.eqb k key then Some v else None
                       | _ => None
                       end)
             (storage.executed s)).

(** The book [UpdateDepth] hands to the store for an incoming [depth]:
    both sides sorted, under the symbol of the manager. *)
Definition sortedBook (symbol : string) (depth : OrderBook.t) : OrderBook.t :=
  OrderBook.mk symbol
    (sort.Slice (fun a b => f64_gtb (PriceLevel.Price a) (PriceLevel.Price b))
                (OrderBook.Bids depth))
    (sort.Slice (fun a b => PrimFloat.ltb (PriceLevel.Price a) (PriceLevel.Price b))
                (OrderBook.Asks depth))
    (OrderBook.Timestamp depth).

(** ** Concrete data used by the further examples *)

(** The queue of the client [r] is full: a non-blocking send on it takes
    the [default] branch. *)
Definition queueFull (st : websocket.State) (r : websocket.ClientRef) : bool :=
  match websocket.heap st !! r with
  | Some c => negb (length (websocket.Client.send c) <? websocket.sendCapacity)%nat
  | None => false
  end.

Module MoreExamples.
(** Two registered clients with empty queues; client 1 follows the BTCUSDT
    ticker, client 2 follows nothing. *)
Definition oneListener : websocket.State :=
  websocket.mkState
    (websocket.mkHub {[1%nat; 2%nat]} [] [] []
       (afterCalls [CallSubscribe 1%nat "ticker:BTCUSDT"]))
    {[1%nat := websocket.NewClient "c-1"; 2%nat := websocket.NewClient "c-2"]}.

(** A registered client that does not read: its queue is full; it follows
    the BTCUSDT ticker, and one update for that channel waits in the Hub's
    broadcast channel. *)
Definition slowListener : websocket.State :=
  websocket.mkState
    (websocket.mkHub {[1%nat]} [] [] [Examples.nextTicker]
       (afterCalls [CallSubscribe 1%nat "ticker:BTCUSDT"]))
    {[1%nat := Examples.stalledClient]}.

(** A Redis connection that loses every reply: each request is reported
    as failed although the server executed its first command. *)
Definition redisRepliesLost : storage.RedisStorage :=
  storage.mkRedisStorage [] (fun _ => true) (fun _ => [true]) 0.

(** A Redis server that is down: every request fails. *)
Definition redisDown : storage.RedisStorage :=
  storage.mkRedisStorage [] (fun _ => true) (fun _ => []) 0.

(** A decoder that reads every text as the same book. *)
Definition readsShuffledBook : api.JSONDecoder :=
  {| api.Unmarshal_OrderBook := fun _ => Some Examples.shuffledBook |}.

(** A decoder that reads every text as the sorted form of the shuffled
    book. *)
Definition readsSortedBook : api.JSONDecoder :=
  {| api.Unmarshal_OrderBook := fun _ => Some (sortedBook "BTCUSDT" Examples.shuffledBook) |}.
End MoreExamples.

(** * Properties *)

(** ** Reading the clock *)

Ltac timed := unfold mbind, mret, Timed_bind, Timed_ret in *.

(** ** float64 facts *)

Lemma f64_ltb_irrefl (x : float64) : PrimFloat.ltb x x = false.
Proof.
  rewrite FloatAxioms.ltb_spec. unfold SFltb.
  destruct (Prim2SF x) as [s|s| |s m e]; simpl; try reflexivity;
    destruct s; try reflexivity;
    rewrite Z.compare_refl;
    change (PosDef.Pos.compare_cont Eq m m) with (Pos.compare m m);
    rewrite Pos.compare_refl; reflexivity.
Qed.

Lemma f64_gtb_irrefl (x : float64) : f64_gtb x x = false.
Proof. apply f64_ltb_irrefl. Qed.

(** Adding a value to zero gives the same number back (and the identical
    float unless the value is the negative zero). *)
Lemma f64_zero_add (a : float64) : f64_same (0 + a)%float a.
Proof.
  pose proof (FloatAxioms.add_spec 0%float a) as H.
  change (Prim2SF 0%float) with (S754_zero false) in H.
  unfold SF64add, SFadd in H.
  destruct (Prim2SF a) as [s|s| |s m e] eqn:Ha.
  - destruct s.
    + right. rewrite FloatAxioms.eqb_spec, H, Ha. reflexivity.
    + left. apply Prim2SF_inj. congruence.
  - left. apply Prim2SF_inj. congruence.
  - left. apply Prim2SF_inj. congruence.
  - left. apply Prim2SF_inj. congruence.
Qed.

Lemma SFcompare_swap x y : SFcompare y x = option_map CompOpp (SFcompare x y).
Proof.
  destruct x as [sx|sx| |sx mx ex], y as [sy|sy| |sy my ey]; simpl;
    try reflexivity; try (destruct sx; reflexivity); try (destruct sy; reflexivity);
    try (destruct sx, sy; reflexivity).
  destruct sx, sy; simpl; try reflexivity;
    rewrite (Z.compare_antisym ex ey);
    destruct (ex ?= ey)%Z; simpl; try reflexivity;
    change (PosDef.Pos.compare_cont Eq my mx) with (Pos.compare my mx);
    change (PosDef.Pos.compare_cont Eq mx my) with (Pos.compare mx my);
    rewrite (Pos.compare_antisym mx my);
    destruct (Pos.compare mx my); reflexivity.
Qed.

Lemma SFcompare_None x y : SFcompare x y = None -> x = S754_nan \/ y = S754_nan.
Proof.
  destruct x as [sx|sx| |sx mx ex], y as [sy|sy| |sy my ey]; simpl; intros H;
    try discriminate; auto.
Qed.

Lemma f64_is_nan_SF (a : float64) : PrimFloat.is_nan a = false -> Prim2SF a <> S754_nan.
Proof.
  unfold PrimFloat.is_nan. rewrite FloatAxioms.eqb_spec. intros H Hn.
  rewrite Hn in H. discriminate.
Qed.

(** [<] is asymmetric, on all floats. *)
Lemma f64_ltb_asym (a b : float64) : PrimFloat.ltb a b = true -> PrimFloat.ltb b a = false.
Proof.
  rewrite !FloatAxioms.ltb_spec. unfold SFltb.
  rewrite (SFcompare_swap (Prim2SF a) (Prim2SF b)).
  destruct (SFcompare (Prim2SF a) (Prim2SF b)) as [[| |]|]; simpl; congruence.
Qed.

(** On numbers, [not (a < b)] is [b <= a]. *)
Lemma f64_not_lt_ge (a b : float64) :
  PrimFloat.is_nan a = false -> PrimFloat.is_nan b = false ->
  PrimFloat.ltb a b = false -> PrimFloat.leb b a = true.
Proof.
  intros Ha Hb. apply f64_is_nan_SF in Ha, Hb.
  rewrite FloatAxioms.ltb_spec, FloatAxioms.leb_spec. unfold SFltb, SFleb.
  rewrite (SFcompare_swap (Prim2SF a) (Prim2SF b)).
  destruct (SFcompare (Prim2SF a) (Prim2SF b)) as [[| |]|] eqn:E; simpl; try congruence.
  destruct (SFcompare_None _ _ E); contradiction.
Qed.

(** ** [sort.Slice] *)

Section SortProps.
Context {A : Type} (less : A -> A -> bool).
Hypothesis less_asym : forall a b, less a b = true -> less b a = false.

Local Abbreviation inOrder := (sort.inOrder less).

Lemma insert_HdRel y x l :
  inOrder y x -> HdRel inOrder y l -> HdRel inOrder y (sort.insert less x l).
Proof.
  intros Hyx Hl. destruct l as [|z l]; simpl; [constructor; exact Hyx|].
  destruct (less z x); constructor; [|exact Hyx].
  inversion Hl; assumption.
Qed.

Lemma insert_Sorted x l : Sorted inOrder l -> Sorted inOrder (sort.insert less x l).
Proof.
  induction l as [|y l IH]; intros Hs; simpl.
  - repeat constructor.
  - inversion Hs as [|? ? Hl Hy]; subst.
    destruct (less y x) eqn:E.
    + constructor; [apply IH, Hl|].
      apply insert_HdRel; [apply less_asym, E | exact Hy].
    + constructor; [exact Hs|]. constructor. exact E.
Qed.

Lemma Slice_Sorted l : Sorted inOrder (sort.Slice less l).
Proof.
  induction l as [|x l IH]; simpl; [constructor|]. apply insert_Sorted, IH.
Qed.

Lemma insert_Permutation x l : Permutation (sort.insert less x l) (x :: l).
Proof.
  induction l as [|y l IH]; simpl; [reflexivity|].
  destruct (less y x); [|reflexivity].
  rewrite IH. apply perm_swap.
Qed.

Lemma Slice_Permutation l : Permutation (sort.Slice less l) l.
Proof.
  induction l as [|x l IH]; simpl; [reflexivity|].
  rewrite insert_Permutation, IH. reflexivity.
Qed.

Lemma Slice_length l : length (sort.Slice less l) = length l.
Proof. apply Permutation_length, Slice_Permutation. Qed.
End SortProps.

Section MergerProps.
Import constants merger.

Lemma freshTicker_run c w :
  freshTicker c w =
    (freshTickerAt c (nextReading w),
     match cachedTicker c with
     | Some _ => mkWorld (readings w) (S (ticks w))
     | None => w
     end).
Proof.
  unfold freshTicker, freshTickerAt, sideFresh, cachedTicker, isDataFresh, nextReading.
  destruct c as [d|]; [|reflexivity].
  destruct (CachedData.Ticker d) as [tk|].
  - timed. unfold time_Now_UnixMilli. simpl.
    change DataFreshnessThreshold with 5000.
    destruct (_ <? 5000); reflexivity.
  - destruct (_ <? 5000); reflexivity.
Qed.

Lemma freshTickerAt_cached c now tk :
  freshTickerAt c now = Some tk -> cachedTicker c = Some tk.
Proof. unfold freshTickerAt. destruct (sideFresh c now); congruence. Qed.

(** What the priority merge returns, in terms of the two freshness tests. *)
Lemma mergeTickerPriority_run internal external symbol w :
  fst (mergeTickerPriority internal external symbol w) =
    spec_mergeTickerPriority internal external symbol
      (nextReading w) (readingAfter (guardReads internal) w).
Proof.
  unfold mergeTickerPriority, spec_mergeTickerPriority. timed.
  rewrite freshTicker_run.
  destruct (freshTickerAt internal (nextReading w)) as [ti|] eqn:Hi.
  - apply freshTickerAt_cached in Hi.
    simpl. unfold mergeVolumes, spec_mergedTicker, cachedVolume. rewrite Hi. simpl.
    destruct (cachedTicker external); reflexivity.
  - rewrite freshTicker_run.
    assert (Hnow : nextReading
              (match cachedTicker internal with
               | Some _ => mkWorld (readings w) (S (ticks w))
               | None => w
               end) = readingAfter (guardReads internal) w).
    { unfold nextReading, readingAfter, guardReads.
      destruct (cachedTicker internal); simpl; f_equal; lia. }
    rewrite Hnow.
    destruct (freshTickerAt external _) as [te|] eqn:He; [|reflexivity].
    apply freshTickerAt_cached in He.
    simpl. unfold mergeVolumes, spec_mergedTicker, cachedVolume. rewrite He. simpl.
    destruct (cachedTicker internal); reflexivity.
Qed.

(** C6: the priority merge of two cached sides is the ticker the
    specification describes: top-of-book and 24h statistics from the fresh
    internal side, tagged internal; otherwise from the fresh external
    side, tagged external; both per-source volumes taken from the caches
    whatever their age, and their sum as the total. *)
Theorem mergeTickerPriority_spec internal external symbol w :
  fst (mergeTickerPriority internal external symbol w) =
    spec_mergeTickerPriority internal external symbol
      (nextReading w) (readingAfter (guardReads internal) w).
Proof. apply mergeTickerPriority_run. Qed.

(** Scenario S3: with the internal side 7000 ms old and the external side
    100 ms old, the external side supplies the price and the total volume
    is the sum of both cached volumes. *)
Example S3_internal_stale :
  let w := mkWorld (fun _ => Examples.now_S3) 0 in
  option_map
    (fun r => (TickerWithSource.LastPriceSource r, TickerWithSource.LastPrice r,
               TickerWithSource.InternalVolume24h r, TickerWithSource.ExternalVolume24h r,
               TickerWithSource.TotalVolume24h r))
    (fst (mergeTickerPriority (Some Examples.internalS3) (Some Examples.externalS3)
            "BTCUSDT" w))
  = Some ("external", 45010%float, 300%float, 1200%float, 1500%float).
Proof. vm_compute. reflexivity. Qed.

(** Scenario S2: the merged bids, best first, each tagged with its side. *)
Example S2_depth_priority :
  let w := mkWorld (fun _ => Examples.t0 + 100) 0 in
  option_map OrderBookWithSource.Bids
    (fst (mergeDepthPriority (Some Examples.internalS2) (Some Examples.externalS2)
            "BTCUSDT" w))
  = Some [PriceLevelWithSource.mk 44999 1.5 "internal";
          PriceLevelWithSource.mk 44998 2 "external"].
Proof. vm_compute. reflexivity. Qed.

(** C7: the supplement ticker merge is the priority ticker merge, as a
    function of the two caches, the symbol and the clock; and so the record
    [mergeTicker] emits is the same under either configured strategy. *)
Theorem mergeTickerSupplement_is_priority :
  (forall internal external symbol w,
      mergeTickerSupplement internal external symbol w =
      mergeTickerPriority internal external symbol w)
  /\ (forall m symbol cfgP cfgS w,
      SymbolConfig.MergeStrategy cfgP = MergeStrategyPriority ->
      SymbolConfig.MergeStrategy cfgS = MergeStrategySupplement ->
      mergeTicker m symbol cfgS w = mergeTicker m symbol cfgP w).
Proof.
  split; [reflexivity|].
  intros m symbol cfgP cfgS w HP HS.
  unfold mergeTicker. rewrite HP, HS. reflexivity.
Qed.

Lemma mergeTickerSupplement_is_priority_witness :
  let cfgP := SymbolConfig.mk "BTCUSDT" ModeHybrid "internal" "binance" "priority" true "" in
  let cfgS := SymbolConfig.mk "BTCUSDT" ModeHybrid "internal" "binance" "supplement" true "" in
  let m := NewDataMerger [cfgP] in
  let w := mkWorld (fun _ => 1700000000000) 0 in
  mergeTicker m "BTCUSDT" cfgS w = mergeTicker m "BTCUSDT" cfgP w.
Proof.
  intros cfgP cfgS m w.
  apply (proj2 mergeTickerSupplement_is_priority m "BTCUSDT" cfgP cfgS w); reflexivity.
Defined.

(** *** At the merge: stale sides *)

Lemma freshDepth_run c w :
  freshDepth c w =
    (freshDepthAt c (nextReading w),
     match cachedDepth c with
     | Some _ => mkWorld (readings w) (S (ticks w))
     | None => w
     end).
Proof.
  unfold freshDepth, freshDepthAt, sideFresh, cachedDepth, isDataFresh, nextReading.
  destruct c as [d|]; [|reflexivity].
  destruct (CachedData.Depth d) as [ob|].
  - timed. unfold time_Now_UnixMilli. simpl.
    change DataFreshnessThreshold with 5000.
    destruct (_ <? 5000); reflexivity.
  - destruct (_ <? 5000); reflexivity.
Qed.

Lemma sideStale_next c w : sideStale c w -> sideFresh c (nextReading w) = false.
Proof. intros H. apply H. lia. Qed.

Lemma sideStale_tick c w :
  sideStale c w -> sideStale c (mkWorld (readings w) (S (ticks w))).
Proof. intros H n Hn. simpl in *. apply H. lia. Qed.

Lemma sideStale_after_guard {A} c (o : option A) w :
  sideStale c w ->
  sideStale c (match o with Some _ => mkWorld (readings w) (S (ticks w)) | None => w end).
Proof. destruct o; [apply sideStale_tick | trivial]. Qed.

Lemma freshDepth_stale c c' w :
  sideStale c w -> sideStale c' w ->
  fst (freshDepth c w) = None /\ sideStale c' (snd (freshDepth c w)).
Proof.
  intros H H'. rewrite freshDepth_run. simpl. split.
  - unfold freshDepthAt. rewrite (sideStale_next _ _ H). reflexivity.
  - apply sideStale_after_guard, H'.
Qed.

Ltac by_strategy :=
  repeat match goal with
         | |- context [String.eqb ?a ?b] => destruct (String.eqb a b)
         end.

(** With both sides stale the ticker merge yields nothing, under either
    strategy. *)
Lemma mergeTicker_stale m symbol config w :
  sideStale (internalData m !! symbol) w ->
  sideStale (externalData m !! symbol) w ->
  fst (mergeTicker m symbol config w) = None.
Proof.
  intros Hi He.
  assert (Hp : fst (mergeTickerPriority (internalData m !! symbol)
                      (externalData m !! symbol) symbol w) = None).
  { rewrite mergeTickerPriority_run. unfold spec_mergeTickerPriority, freshTickerAt.
    rewrite (sideStale_next _ _ Hi).
    replace (sideFresh (externalData m !! symbol) _) with false; [reflexivity|].
    symmetry. apply He. lia. }
  unfold mergeTicker, mergeTickerSupplement. timed.
  by_strategy;
    destruct (mergeTickerPriority _ _ symbol w) as [r w']; simpl in Hp; subst r;
    reflexivity.
Qed.

(** With both sides stale the depth merges still return a book: one without
    levels. *)
Lemma mergeDepthPriority_stale internal external symbol w :
  sideStale internal w -> sideStale external w ->
  exists now, fst (mergeDepthPriority internal external symbol w) =
    Some (OrderBookWithSource.mk symbol [] [] 0 0 0 0 now).
Proof.
  intros Hi He. unfold mergeDepthPriority. timed.
  destruct (freshDepth_stale internal external w Hi He) as [Hi1 He'].
  destruct (freshDepth internal w) as [ri wi]. simpl in Hi1, He'. subst ri.
  destruct (freshDepth_stale external external wi He' He') as [He1 _].
  destruct (freshDepth external wi) as [re we]. simpl in He1. subst re.
  simpl. eexists. reflexivity.
Qed.

Lemma mergeDepthSupplement_stale internal external symbol w :
  sideStale internal w -> sideStale external w ->
  exists now, fst (mergeDepthSupplement internal external symbol w) =
    Some (OrderBookWithSource.mk symbol [] [] 0 0 0 0 now).
Proof.
  intros Hi He. unfold mergeDepthSupplement. timed.
  destruct (freshDepth_stale internal external w Hi He) as [Hi1 He'].
  destruct (freshDepth internal w) as [ri wi]. simpl in Hi1, He'. subst ri.
  simpl.
  destruct (freshDepth_stale external external wi He' He') as [He1 He''].
  destruct (freshDepth external wi) as [re we]. simpl in He1, He''. subst re.
  destruct (freshDepth_stale external external we He'' He'') as [He2 _].
  destruct (freshDepth external we) as [re2 we2]. simpl in He2. subst re2.
  simpl. eexists. reflexivity.
Qed.

Lemma mergeDepth_stale m symbol config w :
  sideStale (internalData m !! symbol) w ->
  sideStale (externalData m !! symbol) w ->
  exists md, fst (mergeDepth m symbol config w) = Some md /\ emptyMergedDepth md.
Proof.
  intros Hi He.
  destruct (mergeDepthPriority_stale _ _ symbol w Hi He) as [n1 H1].
  destruct (mergeDepthSupplement_stale _ _ symbol w Hi He) as [n2 H2].
  unfold mergeDepth. timed.
  by_strategy;
    [ destruct (mergeDepthPriority _ _ symbol w) as [r w']; simpl in H1
    | destruct (mergeDepthSupplement _ _ symbol w) as [r w']; simpl in H2
    | destruct (mergeDepthPriority _ _ symbol w) as [r w']; simpl in H1 ];
    subst r; simpl; (eexists; split; [reflexivity|]; eexists; simpl; repeat split).
Qed.
(** *** What the guards and the merges compute, reading by reading *)

(** The world after [k] further readings of the clock. *)
Lemma nextReading_tick w : nextReading (mkWorld (readings w) (S (ticks w))) = readingAfter 1 w.
Proof. unfold nextReading, readingAfter. simpl. f_equal. lia. Qed.

Lemma readingAfter_tick k w :
  readingAfter k (mkWorld (readings w) (S (ticks w))) = readingAfter (S k) w.
Proof. unfold readingAfter. simpl. f_equal. lia. Qed.

Lemma readingAfter_0 w : readingAfter 0 w = nextReading w.
Proof. unfold readingAfter, nextReading. f_equal. lia. Qed.

Lemma nextReading_after_depth_guard c w :
  nextReading (match cachedDepth c with
               | Some _ => mkWorld (readings w) (S (ticks w))
               | None => w
               end) = readingAfter (depthGuardReads c) w.
Proof.
  unfold depthGuardReads. destruct (cachedDepth c).
  - apply nextReading_tick.
  - symmetry. apply readingAfter_0.
Qed.

Lemma readingAfter_after_depth_guard k c w :
  readingAfter k (match cachedDepth c with
                  | Some _ => mkWorld (readings w) (S (ticks w))
                  | None => w
                  end) = readingAfter (depthGuardReads c + k) w.
Proof.
  unfold depthGuardReads. destruct (cachedDepth c).
  - apply readingAfter_tick.
  - reflexivity.
Qed.

Lemma len_tagged source levels : len (tagged source levels) = len levels.
Proof. unfold len, tagged. rewrite length_map. reflexivity. Qed.

Lemma len_withSource source levels : len (withSource source levels) = len levels.
Proof. unfold len, withSource. rewrite length_map. reflexivity. Qed.

Lemma withSource_tagged source levels : withSource source levels = tagged source levels.
Proof. reflexivity. Qed.

(** The cut to the first 100 levels. *)
Lemma capped_take {A} (l : list A) : (if 100 <? len l then take 100 l else l) = take 100 l.
Proof.
  unfold len. destruct (100 <? Z.of_nat (length l)) eqn:E; [reflexivity|].
  apply Z.ltb_ge in E. symmetry. apply take_ge. lia.
Qed.

(** The book the priority merge returns, in terms of what each side
    contributes at the reading at which its guard examines it. *)
Lemma mergeDepthPriority_run internal external symbol w :
  let bi := freshDepthAt internal (nextReading w) in
  let be := freshDepthAt external (readingAfter (depthGuardReads internal) w) in
  exists now,
    fst (mergeDepthPriority internal external symbol w) =
      Some (OrderBookWithSource.mk symbol
              (take 100 (sort.Slice bidLess
                           (tagged SourceInternal (bidsOf bi) ++ tagged SourceExternal (bidsOf be))))
              (take 100 (sort.Slice askLess
                           (tagged SourceInternal (asksOf bi) ++ tagged SourceExternal (asksOf be))))
              (len (bidsOf bi)) (len (bidsOf be)) (len (asksOf bi)) (len (asksOf be)) now).
Proof.
  cbv zeta. unfold mergeDepthPriority. timed.
  rewrite freshDepth_run.
  pose proof (nextReading_after_depth_guard internal w) as Hn1.
  set (w1 := match cachedDepth internal with
             | Some _ => mkWorld (readings w) (S (ticks w))
             | None => w
             end) in *.
  destruct (freshDepthAt internal (nextReading w)) as [ib|]; cbv beta iota zeta;
    rewrite freshDepth_run, Hn1;
    destruct (freshDepthAt external (readingAfter (depthGuardReads internal) w)) as [eb|];
    unfold time_Now_UnixMilli; cbv beta iota zeta; cbn [fst bidsOf asksOf from_option];
    rewrite !capped_take, ?withSource_tagged; cbn [tagged map app];
    rewrite ?app_nil_r; eexists; reflexivity.
Qed.

(** The same for the supplement merge, whose two guards on the external
    side read the clock one after the other. *)
Lemma mergeDepthSupplement_run internal external symbol w :
  let bi := freshDepthAt internal (nextReading w) in
  let k1 := depthGuardReads internal in
  let forBids := len (bidsOf bi) <? 20 in
  let be := if forBids then freshDepthAt external (readingAfter k1 w) else None in
  let k2 := (k1 + if forBids then depthGuardReads external else 0)%nat in
  let forAsks := len (asksOf bi) <? 20 in
  let ae := if forAsks then freshDepthAt external (readingAfter k2 w) else None in
  exists now,
    fst (mergeDepthSupplement internal external symbol w) =
      Some (OrderBookWithSource.mk symbol
              (sort.Slice bidLess
                 (tagged SourceInternal (bidsOf bi) ++ tagged SourceExternal (bidsOf be)))
              (sort.Slice askLess
                 (tagged SourceInternal (asksOf bi) ++ tagged SourceExternal (asksOf ae)))
              (len (bidsOf bi)) (len (bidsOf be)) (len (asksOf bi)) (len (asksOf ae)) now).
Proof.
  cbv zeta. unfold mergeDepthSupplement. timed.
  rewrite freshDepth_run.
  pose proof (nextReading_after_depth_guard internal w) as Hn1.
  pose proof (fun k => readingAfter_after_depth_guard k internal w) as Hw1.
  set (w1 := match cachedDepth internal with
             | Some _ => mkWorld (readings w) (S (ticks w))
             | None => w
             end) in *.
  pose proof (nextReading_after_depth_guard external w1) as Hn2.
  rewrite Hw1 in Hn2.
  set (w2 := match cachedDepth external with
             | Some _ => mkWorld (readings w1) (S (ticks w1))
             | None => w1
             end) in *.
  destruct (freshDepthAt internal (nextReading w)) as [ib|]; cbv beta iota zeta;
    cbn [bidsOf asksOf from_option]; rewrite ?len_withSource;
    [ destruct (len (OrderBook.Bids ib) <? 20) eqn:Eb
    | change (len (@nil PriceLevelWithSource.t) <? 20) with true;
      change (len (@nil PriceLevel.t) <? 20) with true ];
    cbv beta iota zeta.
  all: try (rewrite freshDepth_run, Hn1; fold w2;
            destruct (freshDepthAt external (readingAfter (depthGuardReads internal) w))
              as [eb|]; cbv beta iota zeta).
  all: rewrite ?len_withSource.
  all: try match goal with
           | |- context [len (OrderBook.Asks ?ib) <? 20] =>
               destruct (len (OrderBook.Asks ib) <? 20) eqn:Ea
           end; cbv beta iota zeta.
  all: try rewrite freshDepth_run; rewrite ?Hn1, ?Hn2, ?Nat.add_0_r.
  all: try match goal with
           | |- context [freshDepthAt ?e ?r] =>
               destruct (freshDepthAt e r) as [ea|]
           end.
  all: unfold time_Now_UnixMilli; cbv beta iota zeta;
       cbn [fst bidsOf asksOf from_option tagged map app];
       rewrite ?withSource_tagged, ?app_nil_r; eexists; reflexivity.
Qed.

(** *** Caching comes first *)

Lemma sideFresh_later c a b : sideFresh c a = false -> a <= b -> sideFresh c b = false.
Proof. destruct c as [d|]; simpl; [|reflexivity]. rewrite !Z.ltb_ge. lia. Qed.

Lemma sideFresh_stamped c now :
  now - CachedData.Timestamp c < 5000 -> sideFresh (Some c) now = true.
Proof. intros H. simpl. apply Z.ltb_lt, H. Qed.

(** What [cacheData] leaves behind, whatever the record: the entry of the
    record's side is stamped with the clock reading, holds the record's
    ticker or book when the record carries one under the matching type, and
    keeps what it held before otherwise; the other side is not touched. *)
Lemma cacheData_entry m data w :
  exists c,
    cacheData m data w =
      (if fromInternal data
       then mkDataMerger (symbolConfigs m)
              (<[MarketData.Symbol data := c]> (internalData m)) (externalData m)
       else mkDataMerger (symbolConfigs m)
              (internalData m) (<[MarketData.Symbol data := c]> (externalData m)),
       mkWorld (readings w) (S (ticks w)))
    /\ CachedData.Timestamp c = nextReading w
    /\ (MarketData.Type_ data <> DataTypeTicker ->
        CachedData.Ticker c
        = CachedData.Ticker (default emptyCachedData (sideOf data m !! MarketData.Symbol data)))
    /\ (MarketData.Type_ data <> DataTypeDepth ->
        CachedData.Depth c
        = CachedData.Depth (default emptyCachedData (sideOf data m !! MarketData.Symbol data)))
    /\ (forall tk, MarketData.Type_ data = DataTypeTicker -> MarketData.Data data = PTicker tk ->
          CachedData.Ticker c = Some tk)
    /\ (forall ob, MarketData.Type_ data = DataTypeDepth -> MarketData.Data data = PDepth ob ->
          CachedData.Depth c = Some ob).
Proof.
  unfold cacheData, sideOf, fromInternal. timed. unfold time_Now_UnixMilli, nextReading.
  set (c0 := default emptyCachedData
               ((if String.eqb (MarketData.Source data) SourceInternal
                 then internalData m else externalData m) !! MarketData.Symbol data)).
  assert (Hc0 : (if String.eqb (MarketData.Source data) SourceInternal
                 then default emptyCachedData (internalData m !! MarketData.Symbol data)
                 else default emptyCachedData (externalData m !! MarketData.Symbol data)) = c0)
    by (unfold c0; destruct (String.eqb _ SourceInternal); reflexivity).
  rewrite Hc0. clearbody c0. clear Hc0.
  destruct (String.eqb (MarketData.Type_ data) DataTypeTicker) eqn:Et;
    [apply String.eqb_eq in Et
    |apply String.eqb_neq in Et;
     destruct (String.eqb (MarketData.Type_ data) DataTypeDepth) eqn:Ed;
     [apply String.eqb_eq in Ed
     |apply String.eqb_neq in Ed;
      destruct (String.eqb (MarketData.Type_ data) DataTypeTrade)]];
    destruct (MarketData.Data data) eqn:Ep;
    (eexists; split; [reflexivity|]; cbn [CachedData.Timestamp CachedData.Ticker CachedData.Depth];
     repeat split; try reflexivity; try congruence;
     try (intros; exfalso; rewrite Et in *; discriminate);
     try (intros; exfalso; rewrite Ed in *; discriminate)).
Qed.

(** The record [mergeTicker] emits, under any strategy. *)
Lemma mergeTicker_run m symbol config w :
  match spec_mergeTickerPriority (internalData m !! symbol) (externalData m !! symbol) symbol
          (nextReading w) (readingAfter (guardReads (internalData m !! symbol)) w) with
  | Some tk =>
      exists now,
        fst (mergeTicker m symbol config w)
        = Some (MarketData.mk "merged" symbol DataTypeTicker SourceMerged now
                              (PTickerWithSource tk))
  | None => fst (mergeTicker m symbol config w) = None
  end.
Proof.
  pose proof (mergeTickerPriority_run (internalData m !! symbol) (externalData m !! symbol)
                symbol w) as Hp.
  destruct (spec_mergeTickerPriority _ _ _ _ _) as [tk|];
    unfold mergeTicker, mergeTickerSupplement; timed;
    by_strategy;
    destruct (mergeTickerPriority _ _ symbol w) as [r w']; simpl in Hp; subst r;
    unfold time_Now_UnixMilli; simpl; try reflexivity; eexists; reflexivity.
Qed.

(** The record [mergeDepth] emits: the book of the supplement merge under
    the supplement strategy, the book of the priority merge under any
    other. *)
Lemma mergeDepth_run m symbol config w :
  exists ob now,
    fst (mergeDepth m symbol config w)
    = Some (MarketData.mk "merged" symbol DataTypeDepth SourceMerged now
                          (POrderBookWithSource ob))
    /\ fst ((if String.eqb (SymbolConfig.MergeStrategy config) MergeStrategySupplement
             then mergeDepthSupplement else mergeDepthPriority)
              (internalData m !! symbol) (externalData m !! symbol) symbol w) = Some ob.
Proof.
  destruct (mergeDepthPriority_run (internalData m !! symbol) (externalData m !! symbol)
              symbol w) as [n1 H1].
  destruct (mergeDepthSupplement_run (internalData m !! symbol) (externalData m !! symbol)
              symbol w) as [n2 H2].
  cbv zeta in H1, H2.
  unfold mergeDepth. timed.
  destruct (String.eqb (SymbolConfig.MergeStrategy config) MergeStrategyPriority) eqn:Ep.
  - apply String.eqb_eq in Ep. rewrite Ep.
    change (String.eqb MergeStrategyPriority MergeStrategySupplement) with false.
    destruct (mergeDepthPriority _ _ symbol w) as [r w']. simpl in H1. subst r.
    unfold time_Now_UnixMilli. simpl. eexists. eexists. split; reflexivity.
  - destruct (String.eqb (SymbolConfig.MergeStrategy config) MergeStrategySupplement).
    + destruct (mergeDepthSupplement _ _ symbol w) as [r w']. simpl in H2. subst r.
      unfold time_Now_UnixMilli. simpl. eexists. eexists. split; reflexivity.
    + destruct (mergeDepthPriority _ _ symbol w) as [r w']. simpl in H1. subst r.
      unfold time_Now_UnixMilli. simpl. eexists. eexists. split; reflexivity.
Qed.

Lemma ProcessData_hybrid m data config w :
  symbolConfigs m !! MarketData.Symbol data = Some config ->
  SymbolConfig.Mode config = ModeHybrid ->
  ProcessData m data w = mergeData m data config w.
Proof. intros Hc Hm. unfold ProcessData. rewrite Hc, Hm. reflexivity. Qed.

(** [mergeData] leaves the merger as [cacheData] left it. *)
Lemma mergeData_state m data config w :
  snd (fst (mergeData m data config w)) = fst (cacheData m data w).
Proof.
  unfold mergeData. timed. destruct (cacheData m data w) as [m' w'].
  destruct (String.eqb _ DataTypeTicker).
  { destruct (mergeTicker m' _ config w') as [r w'']. reflexivity. }
  destruct (String.eqb _ DataTypeDepth).
  { destruct (mergeDepth m' _ config w') as [r w'']. reflexivity. }
  destruct (String.eqb _ DataTypeTrade); reflexivity.
Qed.

(** What [mergeData] emits for a ticker and for a depth record: the result
    of the merge on the merger and the clock that [cacheData] left. *)
Lemma mergeData_ticker m data config w :
  MarketData.Type_ data = DataTypeTicker ->
  fst (fst (mergeData m data config w))
  = fst (mergeTicker (fst (cacheData m data w)) (MarketData.Symbol data) config
           (snd (cacheData m data w))).
Proof.
  intros Ht. unfold mergeData. timed. destruct (cacheData m data w) as [m' w'].
  rewrite Ht. simpl. destruct (mergeTicker m' _ config w'). reflexivity.
Qed.

Lemma mergeData_depth m data config w :
  MarketData.Type_ data = DataTypeDepth ->
  fst (fst (mergeData m data config w))
  = fst (mergeDepth (fst (cacheData m data w)) (MarketData.Symbol data) config
           (snd (cacheData m data w))).
Proof.
  intros Ht. unfold mergeData. timed. destruct (cacheData m data w) as [m' w'].
  rewrite Ht. simpl. destruct (mergeDepth m' _ config w'). reflexivity.
Qed.

(** Both sides of the cache after a record was cached. *)
Lemma cacheData_sides m data w c :
  fst (cacheData m data w) =
    (if fromInternal data
     then mkDataMerger (symbolConfigs m)
            (<[MarketData.Symbol data := c]> (internalData m)) (externalData m)
     else mkDataMerger (symbolConfigs m)
            (internalData m) (<[MarketData.Symbol data := c]> (externalData m))) ->
  sideOf data (fst (cacheData m data w)) !! MarketData.Symbol data = Some c
  /\ otherSideOf data (fst (cacheData m data w)) !! MarketData.Symbol data
     = otherSideOf data m !! MarketData.Symbol data.
Proof.
  intros ->. unfold sideOf, otherSideOf.
  destruct (fromInternal data); simpl; split; try reflexivity; apply lookup_insert_eq.
Qed.

(** C2 (amended): for a symbol in hybrid mode whose two cached sides are
    both stale when a record arrives, processing the record does not emit
    nothing.  The record is cached first and stamps its side, so with a
    clock that advances by less than 5000 ms during the call the merge finds
    the incoming side fresh and the other side absent: an incoming ticker
    yields a merged ticker with the incoming record's prices, tagged with
    its side, and the 24h volumes of both caches; an incoming book yields a
    merged book made of the incoming levels alone, tagged with their side
    and cut to 100 a side except under the supplement strategy, with the
    other side's counts at zero. *)
Theorem hybrid_stale_sides m data config w :
  symbolConfigs m !! MarketData.Symbol data = Some config ->
  SymbolConfig.Mode config = ModeHybrid ->
  sideFresh (internalData m !! MarketData.Symbol data) (nextReading w) = false ->
  sideFresh (externalData m !! MarketData.Symbol data) (nextReading w) = false ->
  clockSteady w 3 ->
  let symbol := MarketData.Symbol data in
  let out := fst (fst (ProcessData m data w)) in
  let m' := snd (fst (ProcessData m data w)) in
  let cut (l : list PriceLevelWithSource.t) :=
    if String.eqb (SymbolConfig.MergeStrategy config) MergeStrategySupplement
    then l else take 100 l in
  (forall tk,
     MarketData.Type_ data = DataTypeTicker -> MarketData.Data data = PTicker tk ->
     exists md,
       out = Some md
       /\ MarketData.Source md = SourceMerged
       /\ MarketData.Data md
          = PTickerWithSource
              (spec_mergedTicker (internalData m' !! symbol) (externalData m' !! symbol)
                 symbol (sourceOf data) tk))
  /\ (forall ob,
     MarketData.Type_ data = DataTypeDepth -> MarketData.Data data = PDepth ob ->
     exists md book bids asks,
       out = Some md
       /\ MarketData.Source md = SourceMerged
       /\ MarketData.Data md = POrderBookWithSource book
       /\ Permutation bids (tagged (sourceOf data) (OrderBook.Bids ob))
       /\ Permutation asks (tagged (sourceOf data) (OrderBook.Asks ob))
       /\ OrderBookWithSource.Bids book = cut bids
       /\ OrderBookWithSource.Asks book = cut asks
       /\ OrderBookWithSource.InternalBidsCount book
          = (if fromInternal data then len (OrderBook.Bids ob) else 0)
       /\ OrderBookWithSource.InternalAsksCount book
          = (if fromInternal data then len (OrderBook.Asks ob) else 0)
       /\ OrderBookWithSource.ExternalBidsCount book
          = (if fromInternal data then 0 else len (OrderBook.Bids ob))
       /\ OrderBookWithSource.ExternalAsksCount book
          = (if fromInternal data then 0 else len (OrderBook.Asks ob))).
Proof.
  intros Hc Hm Hi He Hclock symbol out m' cut.
  subst symbol out m'. rewrite (ProcessData_hybrid _ _ _ _ Hc Hm), mergeData_state.
  destruct (cacheData_entry m data w) as (c & Hcd & Hts & _ & _ & Htk & Hob).
  assert (Hm1 : fst (cacheData m data w) = fst (cacheData m data w)) by reflexivity.
  rewrite Hcd in Hm1 at 2. cbn [fst] in Hm1.
  destruct (cacheData_sides m data w c Hm1) as [Hown Hother].
  assert (Hw1 : snd (cacheData m data w) = mkWorld (readings w) (S (ticks w)))
    by (rewrite Hcd; reflexivity).
  set (m1 := fst (cacheData m data w)) in *.
  (* the incoming side is fresh, the other side stale, at every reading of the merge *)
  assert (Hfresh : forall i, (1 <= i <= 3)%nat -> sideFresh (Some c) (readingAfter i w) = true).
  { intros i Hi3. apply sideFresh_stamped. rewrite Hts.
    destruct (Hclock i) as [_ H]; lia. }
  assert (Hstale : forall i, (i <= 3)%nat ->
            sideFresh (otherSideOf data m !! MarketData.Symbol data) (readingAfter i w)
            = false).
  { intros i Hi3. apply sideFresh_later with (a := nextReading w).
    - unfold otherSideOf. destruct (fromInternal data); assumption.
    - apply Hclock, Hi3. }
  rewrite <- Hother in Hstale.
  clear Hcd Hm1 Hother Hi He Hclock.
  set (symbol := MarketData.Symbol data) in *.
  split.
  - (* a ticker *)
    intros tk Ht Hp. specialize (Htk tk Ht Hp).
    rewrite (mergeData_ticker _ _ _ _ Ht), Hw1. fold m1 symbol.
    pose proof (mergeTicker_run m1 symbol config (mkWorld (readings w) (S (ticks w)))) as Hrun.
    rewrite nextReading_tick, readingAfter_tick in Hrun.
    unfold spec_mergeTickerPriority, freshTickerAt, sourceOf in *.
    unfold sideOf, otherSideOf in Hown, Hstale.
    destruct (fromInternal data).
    + rewrite Hown in Hrun. rewrite (Hfresh 1%nat) in Hrun by lia.
      cbn [cachedTicker] in Hrun. rewrite Htk in Hrun.
      destruct Hrun as [now Hrun]. rewrite Hown.
      eexists. split; [exact Hrun|]. split; reflexivity.
    + rewrite (Hstale 1%nat) in Hrun by lia.
      rewrite Hown in Hrun. rewrite Hfresh in Hrun
        by (unfold guardReads; destruct (cachedTicker (internalData m1 !! symbol)); lia).
      cbn [cachedTicker] in Hrun. rewrite Htk in Hrun.
      destruct Hrun as [now Hrun]. rewrite Hown.
      eexists. split; [exact Hrun|]. split; reflexivity.
  - (* a book *)
    intros ob Ht Hp. specialize (Hob ob Ht Hp).
    rewrite (mergeData_depth _ _ _ _ Ht), Hw1. fold m1 symbol.
    destruct (mergeDepth_run m1 symbol config (mkWorld (readings w) (S (ticks w))))
      as (book & now & Hout & Hbook).
    rewrite Hout. exists (MarketData.mk "merged" symbol DataTypeDepth SourceMerged now
                                        (POrderBookWithSource book)), book.
    assert (Hin : forall i, (1 <= i <= 3)%nat ->
              freshDepthAt (Some c) (readingAfter i w) = Some ob).
    { intros i Hi3. unfold freshDepthAt. rewrite (Hfresh i Hi3). exact Hob. }
    assert (Hout' : forall i, (i <= 3)%nat ->
              freshDepthAt (otherSideOf data m1 !! symbol) (readingAfter i w) = None).
    { intros i Hi3. unfold freshDepthAt. rewrite (Hstale i Hi3). reflexivity. }
    assert (Hg : forall x, (depthGuardReads x <= 1)%nat)
      by (intros x; unfold depthGuardReads; destruct (cachedDepth x); lia).
    unfold cut, sourceOf. unfold sideOf in Hown. unfold otherSideOf in Hout'.
    destruct (String.eqb (SymbolConfig.MergeStrategy config) MergeStrategySupplement).
    + (* supplement *)
      destruct (mergeDepthSupplement_run (internalData m1 !! symbol) (externalData m1 !! symbol)
                  symbol (mkWorld (readings w) (S (ticks w)))) as [now' Hs].
      cbv zeta in Hs. rewrite Hbook in Hs. apply (inj Some) in Hs. subst book.
      rewrite nextReading_tick, !readingAfter_tick.
      pose proof (Hg (internalData m1 !! symbol)) as Hg1.
      pose proof (Hg (externalData m1 !! symbol)) as Hg2.
      pose proof (Hg (Some c)) as Hg0.
      destruct (fromInternal data).
      * rewrite Hown, (Hin 1%nat) by lia. cbn [bidsOf asksOf from_option].
        assert (Hb : bidsOf (if len (OrderBook.Bids ob) <? 20
                             then freshDepthAt (externalData m1 !! symbol)
                                    (readingAfter (S (depthGuardReads (Some c))) w)
                             else None) = []).
        { destruct (len (OrderBook.Bids ob) <? 20); [rewrite Hout' by lia|]; reflexivity. }
        assert (Ha : asksOf (if len (OrderBook.Asks ob) <? 20
                             then freshDepthAt (externalData m1 !! symbol)
                                    (readingAfter
                                       (S (depthGuardReads (Some c)
                                           + (if len (OrderBook.Bids ob) <? 20
                                              then depthGuardReads (externalData m1 !! symbol)
                                              else 0))) w)
                             else None) = []).
        { destruct (len (OrderBook.Asks ob) <? 20); [|reflexivity].
          rewrite Hout'; [reflexivity|].
          destruct (len (OrderBook.Bids ob) <? 20); lia. }
        rewrite Hb, Ha. cbn [tagged map len length]. rewrite !app_nil_r.
        eexists. eexists. split; [reflexivity|]. split; [reflexivity|]. split; [reflexivity|].
        cbn [OrderBookWithSource.Bids OrderBookWithSource.Asks
             OrderBookWithSource.InternalBidsCount OrderBookWithSource.InternalAsksCount
             OrderBookWithSource.ExternalBidsCount OrderBookWithSource.ExternalAsksCount].
        split; [apply Slice_Permutation|]. split; [apply Slice_Permutation|].
        repeat split; reflexivity.
      * rewrite (Hout' 1%nat) by lia. cbn [bidsOf asksOf from_option].
        change (len (@nil PriceLevel.t) <? 20) with true. cbv iota.
        rewrite Hown, !Hin by lia.
        cbn [bidsOf asksOf from_option tagged map app len length].
        eexists. eexists. split; [reflexivity|]. split; [reflexivity|]. split; [reflexivity|].
        cbn [OrderBookWithSource.Bids OrderBookWithSource.Asks
             OrderBookWithSource.InternalBidsCount OrderBookWithSource.InternalAsksCount
             OrderBookWithSource.ExternalBidsCount OrderBookWithSource.ExternalAsksCount].
        split; [apply Slice_Permutation|]. split; [apply Slice_Permutation|].
        repeat split; reflexivity.
    + (* priority *)
      destruct (mergeDepthPriority_run (internalData m1 !! symbol) (externalData m1 !! symbol)
                  symbol (mkWorld (readings w) (S (ticks w)))) as [now' Hs].
      cbv zeta in Hs. rewrite Hbook in Hs. apply (inj Some) in Hs. subst book.
      rewrite nextReading_tick, !readingAfter_tick.
      pose proof (Hg (internalData m1 !! symbol)) as Hg1.
      pose proof (Hg (Some c)) as Hg0.
      destruct (fromInternal data).
      * rewrite Hown, (Hin 1%nat), Hout' by lia.
        cbn [bidsOf asksOf from_option tagged map len length]. rewrite !app_nil_r.
        eexists. eexists. split; [reflexivity|]. split; [reflexivity|]. split; [reflexivity|].
        cbn [OrderBookWithSource.Bids OrderBookWithSource.Asks
             OrderBookWithSource.InternalBidsCount OrderBookWithSource.InternalAsksCount
             OrderBookWithSource.ExternalBidsCount OrderBookWithSource.ExternalAsksCount].
        split; [apply Slice_Permutation|]. split; [apply Slice_Permutation|].
        repeat split; reflexivity.
      * rewrite (Hout' 1%nat), Hown, Hin by lia.
        cbn [bidsOf asksOf from_option tagged map app len length].
        eexists. eexists. split; [reflexivity|]. split; [reflexivity|]. split; [reflexivity|].
        cbn [OrderBookWithSource.Bids OrderBookWithSource.Asks
             OrderBookWithSource.InternalBidsCount OrderBookWithSource.InternalAsksCount
             OrderBookWithSource.ExternalBidsCount OrderBookWithSource.ExternalAsksCount].
        split; [apply Slice_Permutation|]. split; [apply Slice_Permutation|].
        repeat split; reflexivity.
Qed.

Lemma hybrid_stale_sides_witness :
  exists md r,
    fst (fst (ProcessData Examples.mergerWithStaleSides Examples.externalTicker
                Examples.steadyClock)) = Some md
    /\ MarketData.Data md = PTickerWithSource r
    /\ TickerWithSource.LastPriceSource r = SourceExternal
    /\ TickerWithSource.LastPrice r = 45010%float.
Proof.
  assert (Hclock : clockSteady Examples.steadyClock 3).
  { intros i Hi. unfold nextReading, readingAfter. simpl. lia. }
  destruct (hybrid_stale_sides Examples.mergerWithStaleSides Examples.externalTicker
              Examples.hybridPriority Examples.steadyClock
              eq_refl eq_refl eq_refl eq_refl Hclock) as [HT _].
  destruct (HT (Ticker.mk "BTCUSDT" 45010 45005 45015 46000 44000 1200 Examples.t0)
               eq_refl eq_refl) as (md & Hout & _ & Hdata).
  exists md. eexists. split; [exact Hout|]. split; [exact Hdata|]. split; reflexivity.
Defined.

(** C2, as stated, fails: with both cached sides older than 5000 ms when
    the record arrives and a clock that advances by one millisecond per
    reading, an incoming ticker and an incoming book are each answered with
    a merged record, built from the incoming side. *)
Lemma hybrid_stale_record_emitted :
  let m := Examples.mergerWithStaleSides in
  let w := Examples.steadyClock in
  let emitted data := fst (fst (ProcessData m data w)) in
  symbolConfigs m !! "BTCUSDT" = Some Examples.hybridPriority
  /\ SymbolConfig.Mode Examples.hybridPriority = ModeHybrid
  /\ sideFresh (internalData m !! "BTCUSDT") (nextReading w) = false
  /\ sideFresh (externalData m !! "BTCUSDT") (nextReading w) = false
  /\ emitted Examples.externalTicker <> None
  /\ emitted Examples.externalDepth <> None
  /\ option_map MarketData.Source (emitted Examples.externalTicker) = Some SourceMerged
  /\ option_map MarketData.Source (emitted Examples.externalDepth) = Some SourceMerged.
Proof.
  intros m w emitted.
  split; [reflexivity|]. split; [reflexivity|].
  split; [vm_compute; reflexivity|]. split; [vm_compute; reflexivity|].
  split; [vm_compute; discriminate|]. split; [vm_compute; discriminate|].
  split; vm_compute; reflexivity.
Qed.

(** *** One timestamp per side *)

Lemma cacheData_configs m data w :
  symbolConfigs (fst (cacheData m data w)) = symbolConfigs m.
Proof.
  unfold cacheData. timed. unfold time_Now_UnixMilli. simpl.
  destruct (String.eqb (MarketData.Source data) SourceInternal); reflexivity.
Qed.

(** C10: a side has one timestamp, and every cached record overwrites it,
    whatever its kind and whichever side it comes from.  After any record
    [r1] was processed for a hybrid symbol, the entry of its side carries
    the clock reading as its timestamp and, unless [r1] itself replaced
    them, the ticker and the book it held before, however old.  When a
    record [r2] of the other side is processed while less than 5000 ms have
    passed since that reading, the merge it triggers treats the side of
    [r1] as fresh: its cached ticker supplies the merged ticker (for the
    external side: whenever the internal side holds none), and its cached
    book is counted into the merged book (for the external side under the
    supplement strategy: on each side of the book where the internal
    levels number less than 20). *)
Theorem any_record_refreshes_side m config symbol r1 r2 w w' :
  symbolConfigs m !! symbol = Some config ->
  SymbolConfig.Mode config = ModeHybrid ->
  MarketData.Symbol r1 = symbol ->
  MarketData.Symbol r2 = symbol ->
  fromInternal r2 = negb (fromInternal r1) ->
  (forall i, (i <= 3)%nat -> readingAfter i w' - nextReading w < 5000) ->
  let m1 := snd (fst (ProcessData m r1 w)) in
  let out2 := fst (fst (ProcessData m1 r2 w')) in
  let m2 := snd (fst (ProcessData m1 r2 w')) in
  let c0 := default emptyCachedData (sideOf r1 m !! symbol) in
  exists c1,
    sideOf r1 m1 !! symbol = Some c1
    /\ CachedData.Timestamp c1 = nextReading w
    /\ (MarketData.Type_ r1 <> DataTypeTicker -> CachedData.Ticker c1 = CachedData.Ticker c0)
    /\ (MarketData.Type_ r1 <> DataTypeDepth -> CachedData.Depth c1 = CachedData.Depth c0)
    /\ (forall t1,
          CachedData.Ticker c1 = Some t1 -> MarketData.Type_ r2 = DataTypeTicker ->
          exists md r,
            out2 = Some md
            /\ MarketData.Data md = PTickerWithSource r
            /\ (fromInternal r1 = true \/ cachedTicker (internalData m2 !! symbol) = None ->
                TickerWithSource.LastPriceSource r = sourceOf r1
                /\ TickerWithSource.LastPrice r = Ticker.LastPrice t1
                /\ TickerWithSource.BidPrice r = Ticker.BidPrice t1
                /\ TickerWithSource.AskPrice r = Ticker.AskPrice t1
                /\ TickerWithSource.High24h r = Ticker.High24h t1
                /\ TickerWithSource.Low24h r = Ticker.Low24h t1))
    /\ (forall d1,
          CachedData.Depth c1 = Some d1 -> MarketData.Type_ r2 = DataTypeDepth ->
          exists md ob,
            out2 = Some md
            /\ MarketData.Data md = POrderBookWithSource ob
            /\ (fromInternal r1 = true ->
                OrderBookWithSource.InternalBidsCount ob = len (OrderBook.Bids d1)
                /\ OrderBookWithSource.InternalAsksCount ob = len (OrderBook.Asks d1))
            /\ (fromInternal r1 = false ->
                (SymbolConfig.MergeStrategy config <> MergeStrategySupplement
                 \/ OrderBookWithSource.InternalBidsCount ob < 20 ->
                 OrderBookWithSource.ExternalBidsCount ob = len (OrderBook.Bids d1))
                /\ (SymbolConfig.MergeStrategy config <> MergeStrategySupplement
                    \/ OrderBookWithSource.InternalAsksCount ob < 20 ->
                    OrderBookWithSource.ExternalAsksCount ob = len (OrderBook.Asks d1)))).
Proof.
  intros Hc Hm Hs1 Hs2 Hside Hclock m1 out2 m2 c0.
  subst symbol m1 out2 m2 c0.
  rewrite (ProcessData_hybrid _ _ _ _ Hc Hm), mergeData_state.
  (* the first record *)
  destruct (cacheData_entry m r1 w) as (c1 & Hcd1 & Hts1 & Hkeep_t & Hkeep_d & _ & _).
  assert (Hm1 : fst (cacheData m r1 w) = fst (cacheData m r1 w)) by reflexivity.
  rewrite Hcd1 in Hm1 at 2. cbn [fst] in Hm1.
  destruct (cacheData_sides m r1 w c1 Hm1) as [Hown1 _].
  assert (Hc1 : symbolConfigs (fst (cacheData m r1 w)) !! MarketData.Symbol r2 = Some config)
    by (rewrite cacheData_configs, Hs2; exact Hc).
  set (m1 := fst (cacheData m r1 w)) in *. clearbody m1. clear Hcd1 Hm1.
  exists c1. split; [exact Hown1|]. split; [exact Hts1|].
  split; [exact Hkeep_t|]. split; [exact Hkeep_d|].
  (* the second record *)
  rewrite (ProcessData_hybrid _ _ _ _ Hc1 Hm), mergeData_state.
  destruct (cacheData_entry m1 r2 w') as (c2 & Hcd2 & _).
  assert (Hm2 : fst (cacheData m1 r2 w') = fst (cacheData m1 r2 w')) by reflexivity.
  rewrite Hcd2 in Hm2 at 2. cbn [fst] in Hm2.
  destruct (cacheData_sides m1 r2 w' c2 Hm2) as [_ Hother2].
  assert (Hw2 : snd (cacheData m1 r2 w') = mkWorld (readings w') (S (ticks w')))
    by (rewrite Hcd2; reflexivity).
  set (m2 := fst (cacheData m1 r2 w')) in *. clear Hcd2 Hm2.
  rewrite Hs2 in *. set (symbol := MarketData.Symbol r1) in *.
  assert (Hside1 : sideOf r1 m2 !! symbol = Some c1).
  { unfold sideOf, otherSideOf in *. rewrite Hside in Hother2.
    destruct (fromInternal r1); simpl in Hother2; rewrite Hother2; exact Hown1. }
  assert (Hfresh : forall i, (1 <= i <= 3)%nat -> sideFresh (Some c1) (readingAfter i w') = true).
  { intros i Hi3. apply sideFresh_stamped. rewrite Hts1. apply Hclock. lia. }
  assert (Hg : forall x, (guardReads x <= 1)%nat)
    by (intros x; unfold guardReads; destruct (cachedTicker x); lia).
  assert (Hdg : forall x, (depthGuardReads x <= 1)%nat)
    by (intros x; unfold depthGuardReads; destruct (cachedDepth x); lia).
  clear Hown1 Hother2 Hkeep_t Hkeep_d Hclock Hc Hc1 Hts1.
  unfold sideOf, sourceOf in *.
  split.
  - (* a ticker merge *)
    intros t1 Ht1 Hty.
    rewrite (mergeData_ticker _ _ _ _ Hty), Hw2, Hs2. fold symbol m2.
    pose proof (mergeTicker_run m2 symbol config (mkWorld (readings w') (S (ticks w')))) as Hrun.
    rewrite nextReading_tick, readingAfter_tick in Hrun.
    unfold spec_mergeTickerPriority, freshTickerAt in Hrun.
    pose proof (Hg (internalData m2 !! symbol)) as Hg1.
    destruct (fromInternal r1).
    + rewrite Hside1 in Hrun. rewrite (Hfresh 1%nat) in Hrun by lia.
      cbn [cachedTicker] in Hrun. rewrite Ht1 in Hrun.
      destruct Hrun as [now Hrun].
      eexists. eexists. split; [exact Hrun|]. split; [reflexivity|].
      intros _. simpl. repeat split.
    + destruct (if sideFresh (internalData m2 !! symbol) (readingAfter 1 w')
                then cachedTicker (internalData m2 !! symbol) else None) as [ti|] eqn:Ei.
      * destruct Hrun as [now Hrun].
        eexists. eexists. split; [exact Hrun|]. split; [reflexivity|].
        intros [Hf|Hnone]; [discriminate|].
        rewrite Hnone in Ei. destruct (sideFresh _ _); discriminate.
      * rewrite Hside1 in Hrun. rewrite Hfresh in Hrun by lia.
        cbn [cachedTicker] in Hrun. rewrite Ht1 in Hrun.
        destruct Hrun as [now Hrun].
        eexists. eexists. split; [exact Hrun|]. split; [reflexivity|].
        intros _. simpl. repeat split.
  - (* a depth merge *)
    intros d1 Hd1 Hty.
    rewrite (mergeData_depth _ _ _ _ Hty), Hw2, Hs2. fold symbol m2.
    destruct (mergeDepth_run m2 symbol config (mkWorld (readings w') (S (ticks w'))))
      as (book & now & Hout & Hbook).
    rewrite Hout. eexists. exists book. split; [reflexivity|]. split; [reflexivity|].
    assert (Hin : forall i, (1 <= i <= 3)%nat ->
              freshDepthAt (Some c1) (readingAfter i w') = Some d1).
    { intros i Hi3. unfold freshDepthAt. rewrite (Hfresh i Hi3). exact Hd1. }
    pose proof (Hdg (internalData m2 !! symbol)) as Hg1.
    pose proof (Hdg (externalData m2 !! symbol)) as Hg2.
    destruct (String.eqb (SymbolConfig.MergeStrategy config) MergeStrategySupplement) eqn:Es.
    + (* supplement *)
      destruct (mergeDepthSupplement_run (internalData m2 !! symbol) (externalData m2 !! symbol)
                  symbol (mkWorld (readings w') (S (ticks w')))) as [now' Hrun].
      cbv zeta in Hrun. rewrite Hbook in Hrun. apply (inj Some) in Hrun. subst book.
      rewrite nextReading_tick, !readingAfter_tick.
      cbn [OrderBookWithSource.InternalBidsCount OrderBookWithSource.InternalAsksCount
           OrderBookWithSource.ExternalBidsCount OrderBookWithSource.ExternalAsksCount].
      destruct (fromInternal r1).
      * split; [|intros; discriminate]. intros _.
        rewrite Hside1, (Hin 1%nat) by lia. split; reflexivity.
      * split; [intros; discriminate|]. intros _.
        rewrite Hside1. split; intros [Hne|Hlt].
        -- exfalso. apply Hne. apply String.eqb_eq, Es.
        -- apply Z.ltb_lt in Hlt. rewrite Hlt, Hin by lia. reflexivity.
        -- exfalso. apply Hne. apply String.eqb_eq, Es.
        -- apply Z.ltb_lt in Hlt. rewrite Hlt.
           rewrite Hin; [reflexivity|].
           pose proof (Hdg (Some c1)) as Hg3.
           match goal with |- context [if ?b then _ else _] => destruct b end; lia.
    + (* priority *)
      destruct (mergeDepthPriority_run (internalData m2 !! symbol) (externalData m2 !! symbol)
                  symbol (mkWorld (readings w') (S (ticks w')))) as [now' Hrun].
      cbv zeta in Hrun. rewrite Hbook in Hrun. apply (inj Some) in Hrun. subst book.
      rewrite nextReading_tick, !readingAfter_tick.
      cbn [OrderBookWithSource.InternalBidsCount OrderBookWithSource.InternalAsksCount
           OrderBookWithSource.ExternalBidsCount OrderBookWithSource.ExternalAsksCount].
      destruct (fromInternal r1).
      * split; [|intros; discriminate]. intros _.
        rewrite Hside1, (Hin 1%nat) by lia. split; reflexivity.
      * split; [intros; discriminate|]. intros _.
        rewrite Hside1, Hin by lia. split; intros _; reflexivity.
Qed.

Lemma any_record_refreshes_side_witness :
  let m1 := snd (fst (ProcessData Examples.mergerWithStaleInternal Examples.internalTrade
                        Examples.steadyClock)) in
  let w' := mkWorld (readings Examples.steadyClock) 1 in
  exists md r, fst (fst (ProcessData m1 Examples.externalTicker w')) = Some md
    /\ MarketData.Data md = PTickerWithSource r
    /\ TickerWithSource.LastPriceSource r = SourceInternal
    /\ TickerWithSource.LastPrice r = Ticker.LastPrice Examples.internalTickerOld.
Proof.
  intros m1 w'.
  assert (Hclock : forall i, (i <= 3)%nat ->
            readingAfter i (mkWorld (readings Examples.steadyClock) 1)
            - nextReading Examples.steadyClock < 5000).
  { intros i Hi. unfold nextReading, readingAfter. simpl. lia. }
  destruct (any_record_refreshes_side Examples.mergerWithStaleInternal
              Examples.hybridPriority "BTCUSDT"
              Examples.internalTrade Examples.externalTicker Examples.steadyClock
              (mkWorld (readings Examples.steadyClock) 1)
              eq_refl eq_refl eq_refl eq_refl eq_refl Hclock)
    as (c1 & Hc1 & _ & Hkeep & _ & HT & _).
  assert (Ht1 : CachedData.Ticker c1 = Some Examples.internalTickerOld).
  { rewrite Hkeep by discriminate. reflexivity. }
  destruct (HT Examples.internalTickerOld Ht1 eq_refl) as (md & r & H1 & H2 & H3).
  destruct H3 as (H3 & H4 & _); [left; reflexivity|].
  exists md, r. repeat split; assumption.
Defined.

End MergerProps.

(** ** Candle boundaries *)

Section KlineTimeProps.
Import time utils.

Lemma wrap64_id x : int64_min <= x <= int64_max -> wrap64 x = x.
Proof.
  unfold wrap64, int64_min, int64_max. intros H.
  rewrite Z.mod_small; lia.
Qed.

(** Subtracting one from a wrapped value and wrapping again is wrapping
    the exact difference. *)
Lemma wrap64_pred x : wrap64 (wrap64 x - 1) = wrap64 (x - 1).
Proof.
  unfold wrap64.
  replace ((x + 9223372036854775808) mod 18446744073709551616 - 9223372036854775808 - 1
           + 9223372036854775808)
    with ((x + 9223372036854775808) mod 18446744073709551616 - 1) by lia.
  replace (x - 1 + 9223372036854775808) with (x + 9223372036854775808 - 1) by lia.
  rewrite Zminus_mod_idemp_l. reflexivity.
Qed.

Lemma maintained_cases (P : string -> Prop) :
  P "1m" -> P "5m" -> P "15m" -> P "1h" -> P "4h" -> P "1d" ->
  forall interval, In interval handler.intervals -> P interval.
Proof.
  intros H1 H2 H3 H4 H5 H6 interval Hin.
  unfold handler.intervals in Hin. simpl in Hin.
  destruct Hin as [<-|[<-|[<-|[<-|[<-|[<-|[]]]]]]]; assumption.
Qed.

(** The close time is the open time plus the period minus one, in any
    zone, as long as that sum is an int64. *)
Lemma close_is_open_plus_period Local openTime interval :
  In interval handler.intervals ->
  int64_min <= openTime + periodMs interval - 1 <= int64_max ->
  GetKlineCloseTime Local openTime interval = openTime + periodMs interval - 1.
Proof.
  revert interval.
  apply (maintained_cases
           (fun interval =>
              int64_min <= openTime + periodMs interval - 1 <= int64_max ->
              GetKlineCloseTime Local openTime interval = openTime + periodMs interval - 1));
    intros H; unfold GetKlineCloseTime; simpl String.eqb; cbv iota;
    unfold Time_UnixMilli, Add, UnixMilli; cbn [unixMilli];
    rewrite wrap64_pred; apply wrap64_id; exact H.
Qed.

(** *** Zones *)

(** Between two instants with no transition in between, the zone answers
    every lookup alike, and the period it reports covers both. *)
Lemma lookupFrom_steady lo hi s : forall trs cur start,
  Forall (fun tr => when tr <= lo \/ hi < when tr) trs ->
  match start with Some st => st <= lo | None => True end ->
  lo <= s <= hi ->
  lookupFrom cur start trs s = lookupFrom cur start trs lo
  /\ match snd (fst (lookupFrom cur start trs lo)) with Some st => st <= lo | None => True end
  /\ match snd (lookupFrom cur start trs lo) with Some e => hi < e | None => True end.
Proof.
  induction trs as [|tr trs IH]; intros cur start Hall Hstart Hs; simpl.
  - repeat split. exact Hstart.
  - apply Forall_cons in Hall as [Htr Hall].
    destruct Htr as [Hbefore|Hafter].
    + assert (E1 : (s <? when tr) = false) by (apply Z.ltb_ge; lia).
      assert (E2 : (lo <? when tr) = false) by (apply Z.ltb_ge; lia).
      rewrite E1, E2. apply IH; [exact Hall|exact Hbefore|exact Hs].
    + assert (E1 : (s <? when tr) = true) by (apply Z.ltb_lt; lia).
      assert (E2 : (lo <? when tr) = true) by (apply Z.ltb_lt; lia).
      rewrite E1, E2. simpl. repeat split; [exact Hstart|exact Hafter].
Qed.

Lemma lookup_steady l lo hi s :
  steadyBetween l lo hi -> lo <= s <= hi ->
  lookup l s = lookup l lo
  /\ match snd (fst (lookup l lo)) with Some st => st <= lo | None => True end
  /\ match snd (lookup l lo) with Some e => hi < e | None => True end.
Proof. intros Hl Hs. unfold lookup. apply lookupFrom_steady; [exact Hl|exact I|exact Hs]. Qed.

Lemma offsetAt_steady l lo hi s :
  steadyBetween l lo hi -> lo <= s <= hi -> offsetAt l s = offsetAt l lo.
Proof.
  intros Hl Hs. unfold offsetAt. destruct (lookup_steady l lo hi s Hl Hs) as [-> _]. reflexivity.
Qed.

(** With no transition between the instants it consults, [time.Date]
    subtracts the one offset the zone has there. *)
Lemma Date_steady l lo hi date hour min sec :
  let unix := date * 86400 + hour * 3600 + min * 60 + sec in
  steadyBetween l lo hi ->
  lo <= unix <= hi ->
  lo <= unix - offsetAt l lo <= hi ->
  unixMilli (Date date hour min sec l) = (unix - offsetAt l lo) * 1000.
Proof.
  intros unix Hl Hu Hutc. unfold Date.
  change (date * secondsPerDay + hour * secondsPerHour + min * secondsPerMinute + sec)
    with unix.
  destruct (lookup_steady l lo hi unix Hl Hu) as (Hlk & Hst & Hen).
  unfold offsetAt in *. rewrite Hlk.
  destruct (lookup l lo) as [[o st] en]. cbn [fst snd] in *.
  destruct (Z.eqb_spec o 0) as [->|Hne]; cbn [unixMilli]; [f_equal; lia|].
  assert (Hin : (match st with Some s => unix - o <? s | None => false end
                 || match en with Some e => e <=? unix - o | None => false end) = false).
  { apply orb_false_iff. split.
    - destruct st as [s|]; [apply Z.ltb_ge; lia|reflexivity].
    - destruct en as [e|]; [apply Z.leb_gt; lia|reflexivity]. }
  rewrite Hin. reflexivity.
Qed.

Local Ltac euclid := Z.to_euclidean_division_equations; lia.

(** Where the zone does not change its offset between the instants the
    computation consults, the open time is the floor of the timestamp to
    the interval on the local wall clock. *)
Lemma open_time_steady Local t interval :
  In interval handler.intervals ->
  withinInt64 t interval ->
  steadyBetween Local (consultedFrom Local t interval) (consultedTo Local t interval) ->
  let open := GetKlineOpenTime Local t interval in
  open <= t < open + periodMs interval
  /\ (open + offsetAt Local (t / 1000) * 1000) mod periodMs interval = 0.
Proof.
  intros Hin Hrange Hsteady. cbv zeta.
  set (o := offsetAt Local (t / 1000)).
  assert (Ho : offsetAt Local (consultedFrom Local t interval) = o).
  { symmetry. apply (offsetAt_steady _ _ _ _ Hsteady).
    unfold consultedFrom, consultedTo. fold o.
    assert (0 <= periodMs interval / 1000)
      by (revert interval Hin Hrange Hsteady o;
          apply (maintained_cases (fun i => _ -> _ -> 0 <= periodMs i / 1000));
          intros; vm_compute; discriminate).
    lia. }
  assert (Habs : forall x, abs (UnixMilli Local x) = x / 1000 + offsetAt Local (x / 1000))
    by reflexivity.
  revert interval Hin Hrange Hsteady Ho.
  apply (maintained_cases
           (fun interval =>
              withinInt64 t interval ->
              steadyBetween Local (consultedFrom Local t interval) (consultedTo Local t interval) ->
              offsetAt Local (consultedFrom Local t interval) = o ->
              GetKlineOpenTime Local t interval <= t
                < GetKlineOpenTime Local t interval + periodMs interval
              /\ (GetKlineOpenTime Local t interval + o * 1000) mod periodMs interval = 0));
    intros Hrange Hsteady Ho;
    unfold GetKlineOpenTime; simpl String.eqb; cbv iota;
    unfold Location_of, Time_UnixMilli; cbn [loc UnixMilli];
    unfold CalendarDate, Hour, Minute; rewrite !Habs; fold o;
    unfold secondsPerDay, secondsPerHour, secondsPerMinute;
    (erewrite (Date_steady Local _ _ _ _ _ _ Hsteady);
     [ rewrite Ho
     | unfold consultedFrom, consultedTo; fold o; unfold periodMs; simpl String.eqb; cbv iota;
       euclid
     | rewrite Ho; unfold consultedFrom, consultedTo; fold o; unfold periodMs;
       simpl String.eqb; cbv iota; euclid ]);
    unfold withinInt64, int64_min, int64_max, periodMs in *;
    simpl String.eqb in *; cbv iota in *;
    (rewrite wrap64_id; [split; euclid | unfold int64_min, int64_max; euclid]).
Qed.

(** In a zone with a constant offset the open time is the floor of the
    timestamp to the interval on the local wall clock. *)
Lemma open_time_fixed_zone off t interval :
  In interval handler.intervals ->
  withinInt64 t interval ->
  let open := GetKlineOpenTime (FixedZone off) t interval in
  open <= t < open + periodMs interval
  /\ (open + off * 1000) mod periodMs interval = 0.
Proof.
  intros Hin Hrange.
  apply (open_time_steady (FixedZone off) t interval Hin Hrange). constructor.
Qed.

(** C9 (amended): for every maintained interval and every timestamp that
    is at least one period away from the int64 limits, if no transition of
    the local zone takes effect between the instants the computation
    consults (from one period before the timestamp to the timestamp, moved
    by the zone's offset), then the close time is the open time plus the
    period minus one, the timestamp lies between the open and the close
    time, and the open time is the wall-clock floor of the timestamp to the
    interval. *)
Theorem kline_boundaries Local t interval :
  In interval handler.intervals ->
  withinInt64 t interval ->
  steadyBetween Local (consultedFrom Local t interval) (consultedTo Local t interval) ->
  let open := GetKlineOpenTime Local t interval in
  let close := GetKlineCloseTime Local open interval in
  close = open + periodMs interval - 1
  /\ open <= t <= close
  /\ (open + offsetAt Local (t / 1000) * 1000) mod periodMs interval = 0.
Proof.
  intros Hin Hrange Hsteady open close.
  pose proof (open_time_steady Local t interval Hin Hrange Hsteady) as [Hwin Hfloor].
  fold open in Hwin, Hfloor.
  assert (Hclose : close = open + periodMs interval - 1).
  { apply close_is_open_plus_period; [exact Hin|].
    unfold withinInt64 in Hrange. lia. }
  split; [exact Hclose|]. split; [lia|exact Hfloor].
Qed.

Lemma kline_boundaries_witness :
  let t := Examples.laterThatWeek in
  let open := GetKlineOpenTime Examples.NewYork2024 t "1d" in
  let close := GetKlineCloseTime Examples.NewYork2024 open "1d" in
  close = open + periodMs "1d" - 1 /\ open <= t <= close.
Proof.
  intros t open close.
  assert (Hin : In "1d" handler.intervals) by (vm_compute; tauto).
  assert (Hrange : withinInt64 Examples.laterThatWeek "1d").
  { unfold withinInt64, int64_min, int64_max, Examples.laterThatWeek.
    change (periodMs "1d") with 86400000. lia. }
  assert (Hsteady : steadyBetween Examples.NewYork2024
                      (consultedFrom Examples.NewYork2024 Examples.laterThatWeek "1d")
                      (consultedTo Examples.NewYork2024 Examples.laterThatWeek "1d")).
  { constructor; [left; vm_compute; discriminate|constructor]. }
  destruct (kline_boundaries Examples.NewYork2024 Examples.laterThatWeek "1d"
              Hin Hrange Hsteady) as (Hc & Hb & _).
  split; [exact Hc | exact Hb].
Defined.

(** C9, as stated, fails where the local zone changes its offset: on the
    25-hour day that ends daylight saving time in New York, a trade at
    23:30 local time lies after the close time of its own daily candle. *)
Lemma kline_boundaries_dst_counterexample :
  let t := Examples.lateEvening in
  let open := GetKlineOpenTime Examples.NewYork2024 t "1d" in
  let close := GetKlineCloseTime Examples.NewYork2024 open "1d" in
  In "1d" handler.intervals
  /\ open = 1730606400000
  /\ close = 1730692799999
  /\ ~ (open <= t <= close).
Proof.
  intros t open close.
  split; [vm_compute; tauto|].
  split; [reflexivity|]. split; [reflexivity|].
  vm_compute. intros [_ H]. apply H. reflexivity.
Qed.

(** Why the instants consulted reach beyond the candle: half an hour after
    the same transition the wall clock shows 01:30 for the second time, and
    [time.Date] resolves it to the first.  The one-minute candle computed
    for that trade lies a full hour before it, although no transition falls
    into the minute of the trade. *)
Example kline_boundaries_repeated_hour :
  let t := Examples.repeatedHour in
  let open := GetKlineOpenTime Examples.NewYork2024 t "1m" in
  let close := GetKlineCloseTime Examples.NewYork2024 open "1m" in
  open = t - 3600000 /\ close = open + 59999 /\ close < t.
Proof. vm_compute. repeat split. Qed.

(** Why the timestamp must stay a period away from the int64 limits: the
    close time of a one-minute candle that opens less than a minute before
    the largest int64 wraps around to a negative value. *)
Example kline_close_wraps :
  GetKlineCloseTime UTC 9223372036854720000 "1m" = -9223372036854771617.
Proof. vm_compute. reflexivity. Qed.
End KlineTimeProps.

(** ** Candles *)

Section KlineProps.
Import handler.
Context {S : Type} {store : StorageInterface S}.
Variable Local : time.Location.

Lemma updateKline_newKline a openTime trade :
  let k := updateKline (newKline Local a openTime trade) trade in
  Kline.Open k = Trade.Price trade
  /\ Kline.High k = Trade.Price trade
  /\ Kline.Low k = Trade.Price trade
  /\ Kline.Close k = Trade.Price trade
  /\ f64_same (Kline.Volume k) (Trade.Amount trade)
  /\ Kline.TradeNum k = 1
  /\ Kline.OpenTime k = openTime.
Proof.
  unfold updateKline, newKline. simpl.
  rewrite f64_gtb_irrefl, f64_ltb_irrefl.
  repeat split. apply f64_zero_add.
Qed.

(** A trade of a new period: the open candle, if any, goes to the store,
    then the new candle is created and updated. *)
Lemma AddTrade_new_period a trade s :
  opensNewPeriod Local a trade ->
  AddTrade Local a trade s =
    (None,
     KlineAggregator.mk (KlineAggregator.symbol a) (KlineAggregator.interval a)
       (Some (updateKline
                (newKline Local a
                   (utils.GetKlineOpenTime Local (Trade.Timestamp trade)
                      (KlineAggregator.interval a)) trade) trade)),
     persistOpenCandle a s).
Proof.
  unfold opensNewPeriod, AddTrade, persistOpenCandle, saveKline.
  destruct (KlineAggregator.currentKline a) as [k|]; [|reflexivity].
  intros Hne. apply Z.eqb_neq in Hne. rewrite Hne. reflexivity.
Qed.

(** A trade of the period of the open candle: the candle is updated and the
    store is not touched. *)
Lemma AddTrade_same_period a trade k s :
  KlineAggregator.currentKline a = Some k ->
  Kline.OpenTime k =
    utils.GetKlineOpenTime Local (Trade.Timestamp trade) (KlineAggregator.interval a) ->
  AddTrade Local a trade s =
    (None,
     KlineAggregator.mk (KlineAggregator.symbol a) (KlineAggregator.interval a)
       (Some (updateKline k trade)),
     s).
Proof.
  intros Hk Ho. unfold AddTrade. rewrite Hk, <- Ho, Z.eqb_refl. simpl.
  rewrite Hk. reflexivity.
Qed.

Lemma feedTrades_cons a trade trades s :
  feedTrades Local a (trade :: trades) s =
    feedTrades Local (snd (fst (AddTrade Local a trade s))) trades
               (snd (AddTrade Local a trade s)).
Proof.
  unfold feedTrades. simpl. destruct (AddTrade Local a trade s) as [[e a'] s']. reflexivity.
Qed.

(** Trades of the period of the open candle never reach the store. *)
Lemma feedTrades_same_period trades : forall a k s,
  KlineAggregator.currentKline a = Some k ->
  (forall t, In t trades ->
     utils.GetKlineOpenTime Local (Trade.Timestamp t) (KlineAggregator.interval a) =
     Kline.OpenTime k) ->
  snd (feedTrades Local a trades s) = s.
Proof.
  induction trades as [|t trades IH]; intros a k s Hk Hall; [reflexivity|].
  rewrite feedTrades_cons.
  rewrite (AddTrade_same_period a t k s Hk) by (symmetry; apply Hall; left; reflexivity).
  simpl. eapply IH; [reflexivity|].
  simpl. intros t' Hin. apply Hall. right. exact Hin.
Qed.

(** C8: a trade that opens a new period first hands the open candle (if
    any) to the store, then starts a candle with open = high = low = close
    = price, zero volume and no trades, and applies the trade to it: the
    candle in memory then has O = H = L = C = price, the trade's amount as
    volume and one trade.  Further trades of the same period leave the
    store as it is: the new candle is not persisted before a trade of
    another period arrives. *)
Theorem AddTrade_opens_candle a trade trades s :
  opensNewPeriod Local a trade ->
  (forall t, In t trades ->
     utils.GetKlineOpenTime Local (Trade.Timestamp t) (KlineAggregator.interval a) =
     utils.GetKlineOpenTime Local (Trade.Timestamp trade) (KlineAggregator.interval a)) ->
  let openTime :=
    utils.GetKlineOpenTime Local (Trade.Timestamp trade) (KlineAggregator.interval a) in
  let a1 := snd (fst (AddTrade Local a trade s)) in
  let s1 := snd (AddTrade Local a trade s) in
  s1 = persistOpenCandle a s
  /\ (exists k0, KlineAggregator.currentKline a1 = Some (updateKline k0 trade)
        /\ Kline.OpenTime k0 = openTime
        /\ Kline.CloseTime k0 =
             utils.GetKlineCloseTime Local openTime (KlineAggregator.interval a)
        /\ Kline.Open k0 = Trade.Price trade
        /\ Kline.High k0 = Trade.Price trade
        /\ Kline.Low k0 = Trade.Price trade
        /\ Kline.Close k0 = Trade.Price trade
        /\ Kline.Volume k0 = 0%float
        /\ Kline.TradeNum k0 = 0)
  /\ (exists k, KlineAggregator.currentKline a1 = Some k
        /\ Kline.OpenTime k = openTime
        /\ Kline.Open k = Trade.Price trade
        /\ Kline.High k = Trade.Price trade
        /\ Kline.Low k = Trade.Price trade
        /\ Kline.Close k = Trade.Price trade
        /\ f64_same (Kline.Volume k) (Trade.Amount trade)
        /\ Kline.TradeNum k = 1)
  /\ snd (feedTrades Local a (trade :: trades) s) = persistOpenCandle a s.
Proof.
  intros Hnew Hsame openTime a1 s1.
  subst a1 s1. rewrite feedTrades_cons.
  rewrite (AddTrade_new_period a trade s Hnew). cbn [fst snd].
  fold openTime.
  destruct (updateKline_newKline a openTime trade) as (HO & HH & HL & HC & HV & HN & HT).
  split; [reflexivity|]. split; [|split].
  - exists (newKline Local a openTime trade). repeat split.
  - eexists. split; [reflexivity|]. repeat split; assumption.
  - eapply feedTrades_same_period; [reflexivity|].
    simpl. intros t Hin. apply Hsame, Hin.
Qed.
End KlineProps.

Lemma AddTrade_opens_candle_witness :
  let a := handler.NewKlineAggregator "BTCUSDT" "1m" in
  let r := handler.AddTrade time.UTC a Examples.tradeS1 Examples.reliableRedis in
  snd r = Examples.reliableRedis
  /\ (exists k, handler.KlineAggregator.currentKline (snd (fst r)) = Some k
        /\ Kline.OpenTime k = Examples.O_1m
        /\ Kline.Close k = 45000%float
        /\ f64_same (Kline.Volume k) 0.5%float
        /\ Kline.TradeNum k = 1)
  /\ snd (feedTrades time.UTC a [Examples.tradeS1; Examples.tradeS1_same]
            Examples.reliableRedis) = Examples.reliableRedis.
Proof.
  intros a r.
  assert (Hsame : forall t, In t [Examples.tradeS1_same] ->
            utils.GetKlineOpenTime time.UTC (Trade.Timestamp t) "1m" =
            utils.GetKlineOpenTime time.UTC (Trade.Timestamp Examples.tradeS1) "1m").
  { intros t [<-|[]]. vm_compute. reflexivity. }
  destruct (AddTrade_opens_candle time.UTC a Examples.tradeS1 [Examples.tradeS1_same]
              Examples.reliableRedis I Hsame)
    as (Hs & _ & (k & Hk & HT & _ & _ & _ & HC & HV & HN) & Hrun).
  split; [exact Hs|]. split; [|exact Hrun].
  exists k. repeat split; assumption.
Defined.

(** Scenario S1, second half: the trade of the next minute persists the
    first candle at the head of the list [kline:BTCUSDT:1m]. *)
Example S1_next_trade_persists :
  let a := handler.NewKlineAggregator "BTCUSDT" "1m" in
  let '(a, s) := feedTrades time.UTC a [Examples.tradeS1; Examples.tradeS1_next]
                   Examples.reliableRedis in
  storage.executed s =
    [storage.LPush "kline:BTCUSDT:1m" "{}";
     storage.LTrim "kline:BTCUSDT:1m" 0 999;
     storage.Expire "kline:BTCUSDT:1m" 604800]
  /\ option_map Kline.OpenTime (handler.KlineAggregator.currentKline a)
     = Some (Examples.O_1m + 60000).
Proof. vm_compute. split; reflexivity. Qed.

(** ** Order books in the DepthManager *)

Section DepthProps.
Import handler.
Context {S : Type} {store : StorageInterface S}.

Lemma Sorted_weaken {A} (R R' : A -> A -> Prop) (P : A -> Prop) l :
  (forall a b, P a -> P b -> R a b -> R' a b) ->
  Forall P l -> Sorted R l -> Sorted R' l.
Proof.
  intros HR HP Hs. induction Hs as [|a l Hs IH Hd]; [constructor|].
  inversion HP as [|? ? Pa Pl]; subst.
  constructor; [apply IH, Pl|].
  destruct Hd as [|b l Hab]; constructor.
  inversion Pl; subst. apply HR; assumption.
Qed.

Lemma sorted_bids l :
  pricesAreNumbers l ->
  bidsDescending
    (sort.Slice (fun a b => f64_gtb (PriceLevel.Price a) (PriceLevel.Price b)) l).
Proof.
  intros Hn. unfold bidsDescending.
  eapply Sorted_weaken with (P := fun x => PrimFloat.is_nan (PriceLevel.Price x) = false);
    [| |apply Slice_Sorted].
  - intros a b Ha Hb Hab. unfold sort.inOrder, f64_gtb, f64_geb in *.
    apply f64_not_lt_ge; assumption.
  - unfold pricesAreNumbers in Hn. rewrite (Slice_Permutation _ l). exact Hn.
  - intros a b. unfold f64_gtb. apply f64_ltb_asym.
Qed.

Lemma sorted_asks l :
  pricesAreNumbers l ->
  asksAscending
    (sort.Slice (fun a b => PrimFloat.ltb (PriceLevel.Price a) (PriceLevel.Price b)) l).
Proof.
  intros Hn. unfold asksAscending.
  eapply Sorted_weaken with (P := fun x => PrimFloat.is_nan (PriceLevel.Price x) = false);
    [| |apply Slice_Sorted].
  - intros a b Ha Hb Hab. unfold sort.inOrder in *.
    apply f64_not_lt_ge; assumption.
  - unfold pricesAreNumbers in Hn. rewrite (Slice_Permutation _ l). exact Hn.
  - intros a b. apply f64_ltb_asym.
Qed.

(** What one update leaves in the manager: the incoming sides, sorted. *)
Lemma UpdateDepth_manager m depth s :
  snd (fst (UpdateDepth m depth s)) =
    sortDepth (DepthManager.mk (DepthManager.symbol m)
                 (OrderBook.Bids depth) (OrderBook.Asks depth)).
Proof. unfold UpdateDepth. destruct (SaveDepth _ s). reflexivity. Qed.

Lemma runUpdates_snoc m updates depth s :
  runUpdates m (updates ++ [depth]) s =
    (let '(m', s') := runUpdates m updates s in
     let '(_, m'', s'') := UpdateDepth m' depth s' in (m'', s'')).
Proof.
  unfold runUpdates. rewrite foldl_app. simpl.
  destruct (foldl _ (m, s) updates) as [m' s']. reflexivity.
Qed.

(** C3 (amended): after any sequence of full-replace updates with numeric
    prices, the manager's bids are sorted by price descending and its asks
    by price ascending, and each side has exactly as many levels as the
    same side of the last update (none before the first update). *)
Theorem DepthManager_sorted symbol updates s :
  Forall (fun d => pricesAreNumbers (OrderBook.Bids d)
                   /\ pricesAreNumbers (OrderBook.Asks d)) updates ->
  let m := fst (runUpdates (NewDepthManager symbol) updates s) in
  bidsDescending (DepthManager.bids m)
  /\ asksAscending (DepthManager.asks m)
  /\ length (DepthManager.bids m) =
       length (from_option OrderBook.Bids [] (last updates))
  /\ length (DepthManager.asks m) =
       length (from_option OrderBook.Asks [] (last updates)).
Proof.
  intros Hnum. cbv zeta.
  destruct updates as [|d0 rest _] using rev_ind.
  - simpl. repeat split; constructor.
  - apply Forall_app in Hnum as [_ Hd]. inversion Hd as [|? ? [Hb Ha] _]; subst.
    rewrite runUpdates_snoc, last_snoc.
    destruct (runUpdates (NewDepthManager symbol) rest s) as [m' s'].
    pose proof (UpdateDepth_manager m' d0 s') as Hm.
    destruct (UpdateDepth m' d0 s') as [[e m''] s'']. simpl in Hm. subst m''.
    simpl. repeat split.
    + apply sorted_bids, Hb.
    + apply sorted_asks, Ha.
    + apply Slice_length.
    + apply Slice_length.
Qed.
End DepthProps.

Lemma DepthManager_sorted_witness :
  let m := fst (runUpdates (handler.NewDepthManager "BTCUSDT") [Examples.shuffledBook]
                  Examples.reliableRedis) in
  bidsDescending (handler.DepthManager.bids m)
  /\ asksAscending (handler.DepthManager.asks m)
  /\ length (handler.DepthManager.bids m) = 3%nat
  /\ length (handler.DepthManager.asks m) = 3%nat.
Proof.
  apply (DepthManager_sorted "BTCUSDT" [Examples.shuffledBook] Examples.reliableRedis).
  repeat constructor.
Defined.

(** C3, as stated, fails on the bound: a snapshot with 101 levels a side is
    kept whole. *)
Lemma DepthManager_holds_101_levels :
  let m := fst (runUpdates (handler.NewDepthManager "BTCUSDT") [Examples.deepBook]
                  Examples.reliableRedis) in
  pricesAreNumbers (OrderBook.Bids Examples.deepBook)
  /\ pricesAreNumbers (OrderBook.Asks Examples.deepBook)
  /\ length (handler.DepthManager.bids m) = 101%nat
  /\ length (handler.DepthManager.asks m) = 101%nat
  /\ ~ (length (handler.DepthManager.bids m) <= 100)%nat.
Proof.
  intros m.
  assert (Hb : length (handler.DepthManager.bids m) = 101%nat) by (vm_compute; reflexivity).
  assert (Ha : length (handler.DepthManager.asks m) = 101%nat) by (vm_compute; reflexivity).
  split; [apply (bool_decide_unpack _); vm_compute; reflexivity|].
  split; [apply (bool_decide_unpack _); vm_compute; reflexivity|].
  split; [exact Hb|]. split; [exact Ha|]. lia.
Qed.

(** ** Publishing to Redis *)

Section StorageProps.
Import constants storage.
Context {enc : utils.JSONEncoder}.

Lemma publishedOn_app l1 l2 : publishedOn (l1 ++ l2) = publishedOn l1 ++ publishedOn l2.
Proof. unfold publishedOn. apply omap_app. Qed.

Lemma marked_sublist mask : forall cmds, sublist (marked mask cmds) cmds.
Proof.
  induction mask as [|b mask IH]; intros cmds; [destruct cmds; apply sublist_nil_l|].
  destruct cmds as [|c cmds]; simpl; [constructor|].
  destruct b; [apply sublist_skip|apply sublist_cons]; apply IH.
Qed.

Lemma publishedOn_sublist l1 l2 : sublist l1 l2 -> sublist (publishedOn l1) (publishedOn l2).
Proof.
  unfold publishedOn. induction 1 as [|c l1 l2 _ IH|c l1 l2 _ IH]; simpl.
  - constructor.
  - destruct c; simpl; try exact IH. apply sublist_skip, IH.
  - destruct c; simpl; try exact IH. apply sublist_cons, IH.
Qed.

(** A request adds to the channels published on some of the channels its
    own commands publish on: all of them when it goes through. *)
Lemma request_published cmds s :
  exists l, publishedOn (executed (snd (request cmds s))) = publishedOn (executed s) ++ l
            /\ sublist l (publishedOn cmds).
Proof.
  unfold request. destruct (fails s (issued s)); simpl.
  - exists (publishedOn (marked (reached s (issued s)) cmds)).
    rewrite publishedOn_app. split; [reflexivity|].
    apply publishedOn_sublist, marked_sublist.
  - exists (publishedOn cmds). rewrite publishedOn_app. split; reflexivity.
Qed.

(** A request without a [Publish] among its commands publishes nothing. *)
Lemma request_silent cmds s :
  publishedOn cmds = [] ->
  publishedOn (executed (snd (request cmds s))) = publishedOn (executed s).
Proof.
  intros Hn. destruct (request_published cmds s) as (l & Hl & Hsub).
  rewrite Hn in Hsub. apply sublist_nil_r in Hsub. subst l.
  rewrite app_nil_r in Hl. exact Hl.
Qed.

(** A request that is one [Publish] publishes on that channel or not at
    all. *)
Lemma request_publish channel payload s :
  exists l,
    publishedOn (executed (snd (request [Publish channel payload] s)))
    = publishedOn (executed s) ++ l
    /\ (l = [] \/ l = [channel]).
Proof.
  destruct (request_published [Publish channel payload] s) as (l & Hl & Hsub).
  exists l. split; [exact Hl|].
  change (publishedOn [Publish channel payload]) with [channel] in Hsub.
  inversion Hsub as [|x l1 l2 H1|x l1 l2 H1]; subst.
  - apply sublist_nil_r in H1. subst. right. reflexivity.
  - apply sublist_nil_r in H1. left. exact H1.
Qed.

Local Ltac silent_request H :=
  match goal with
  | |- context [request ?c ?s] =>
      pose proof (request_silent c s eq_refl) as H;
      destruct (request c s) as [? ?]; cbn [snd] in H
  end.

Local Ltac publish_request H Hcase :=
  match goal with
  | |- context [request [Publish ?ch ?p] ?s] =>
      destruct (request_publish ch p s) as (? & H & Hcase);
      destruct (request [Publish ch p] s) as [? ?]; cbn [snd] in H
  end.

(** Whatever [SaveTicker] publishes goes to [market:{symbol}:ticker]. *)
Lemma SaveTicker_publishes ticker s :
  exists l,
    publishedOn (executed (snd (SaveTicker ticker s))) = publishedOn (executed s) ++ l
    /\ (l = [] \/ l = [String.append "market:" (String.append (Ticker.Symbol ticker) ":ticker")]).
Proof.
  unfold SaveTicker.
  silent_request H1. destruct b; cbn [negb]; cbv iota;
    [|exists []; cbn [snd]; rewrite app_nil_r; auto].
  silent_request H2. publish_request H3 Hcase.
  cbn [snd]. eexists. split; [rewrite H3, H2, H1; reflexivity|exact Hcase].
Qed.

(** Whatever [SaveDepth] publishes goes to [market:{symbol}:depth]. *)
Lemma SaveDepth_publishes depth s :
  exists l,
    publishedOn (executed (snd (SaveDepth depth s))) = publishedOn (executed s) ++ l
    /\ (l = [] \/
        l = [String.append "market:" (String.append (OrderBook.Symbol depth) ":depth")]).
Proof.
  unfold SaveDepth.
  destruct (utils.ToJSON (PDepth depth)) as [data|];
    [|exists []; rewrite app_nil_r; auto].
  silent_request H1. destruct b; cbn [negb]; cbv iota;
    [|exists []; cbn [snd]; rewrite app_nil_r; auto].
  publish_request H3 Hcase.
  cbn [snd]. eexists. split; [rewrite H3, H1; reflexivity|exact Hcase].
Qed.

(** Whatever [SaveTrade] publishes goes to [market:{symbol}:trade]. *)
Lemma SaveTrade_publishes trade s :
  exists l,
    publishedOn (executed (snd (SaveTrade trade s))) = publishedOn (executed s) ++ l
    /\ (l = [] \/ l = [String.append "market:" (String.append (Trade.Symbol trade) ":trade")]).
Proof.
  unfold SaveTrade.
  destruct (utils.ToJSON (PTrade trade)) as [data|];
    [|exists []; rewrite app_nil_r; auto].
  silent_request H1. destruct b; cbn [negb]; cbv iota;
    [|exists []; cbn [snd]; rewrite app_nil_r; auto].
  publish_request H3 Hcase.
  cbn [snd]. eexists. split; [rewrite H3, H1; reflexivity|exact Hcase].
Qed.
End StorageProps.

(** C1: on a ticker, a depth snapshot and a trade for BTCUSDT the storage
    service publishes on [market:BTCUSDT:ticker], [market:BTCUSDT:depth] and
    [market:BTCUSDT:trade]: the symbol comes before the kind, not after it as
    in [market:ticker:BTCUSDT], the channel the bridge of the fan-out hub
    publishes on and strips to the name clients subscribe under. *)
Theorem storage_publishes_symbol_before_kind :
  let published save := publishedOn (storage.executed (snd (save Examples.reliableRedis))) in
  published (storage.SaveTicker Examples.tickerBTC) = ["market:BTCUSDT:ticker"]
  /\ published (storage.SaveDepth Examples.bookBTC) = ["market:BTCUSDT:depth"]
  /\ published (storage.SaveTrade Examples.tradeBTC) = ["market:BTCUSDT:trade"]
  /\ websocket.BroadcastTicker_channel "BTCUSDT" = "market:ticker:BTCUSDT"
  /\ websocket.BroadcastDepth_channel "BTCUSDT" = "market:depth:BTCUSDT"
  /\ websocket.BroadcastTrade_channel "BTCUSDT" = "market:trade:BTCUSDT"
  /\ "market:BTCUSDT:ticker" <> "market:ticker:BTCUSDT".
Proof. vm_compute. repeat split; discriminate. Qed.

(** The consequence downstream: a client subscribed with channel "ticker"
    and symbol "BTCUSDT" is indexed under [ticker:BTCUSDT]; the ticker the
    storage service publishes reaches the Hub as channel [BTCUSDT:ticker],
    which has no subscriber, and the client's queue holds only the reply to
    its subscription. *)
Example stored_ticker_not_delivered :
  completesWith
    (websocket.handleMessage (hubWithClients [1%nat]) 1%nat (subscribeFrame "ticker" "BTCUSDT"))
    (fun st1 =>
       websocket.GetClientSubscriptions (websocket.subscriptionManager (websocket.hub st1)) 1%nat
         = ["ticker:BTCUSDT"]
       /\ completesWith (websocket.handleRedisMessage st1 "market:BTCUSDT:ticker" (Some "{}"))
            (fun st2 =>
               websocket.broadcast (websocket.hub st2)
                 = [websocket.mkBroadcastMessage "BTCUSDT:ticker" "{}"]
               /\ completesWith (websocket.Run_broadcast elements st2)
                    (fun st3 =>
                       queueOf st3 1%nat
                         = [websocket.Response "subscribed" (Some ("ticker", "BTCUSDT"))]))).
Proof. vm_compute. repeat split. Qed.

(** ** Subscriptions *)

Section SubscriptionProps.
Import websocket.

(** [handleSubscribe] records the channel whatever the number of channels
    the client already holds: nothing in it counts them. *)
Lemma handleSubscribe_records st ref msg channel c :
  asString msg "channel" = Some channel ->
  heap st !! ref = Some c ->
  Client.sendClosed c = false ->
  exists st',
    handleSubscribe st ref msg = Done st'
    /\ IsSubscribed (subscriptionManager (hub st')) ref
         (buildChannelName channel (default "" (asString msg "symbol"))) = true.
Proof.
  intros Hch Hc Hopen. unfold handleSubscribe. rewrite Hch.
  unfold sendResponse, sendFrame. simpl. rewrite Hc.
  unfold trySend. rewrite Hopen.
  assert (Hsub : forall st0 : State,
    hub st0 = hub (Hub_Subscribe st ref
                     (buildChannelName channel (default "" (asString msg "symbol")))) ->
    IsSubscribed (subscriptionManager (hub st0)) ref
      (buildChannelName channel (default "" (asString msg "symbol"))) = true).
  { intros st0 ->. unfold IsSubscribed. simpl. rewrite lookup_insert_eq.
    apply bool_decide_eq_true. set_solver. }
  destruct (_ <? _)%nat; eexists; (split; [reflexivity|]); apply Hsub; reflexivity.
Qed.

(** C4: a client that subscribes to 21 channels holds 21 subscriptions,
    one more than [MaxSubscriptionsPerConn]; each request, the 21st too,
    is answered with "subscribed" and none with an error frame. *)
Theorem subscribe_beyond_limit :
  let requests := map (subscribeFrame "ticker") Examples.twentyOneSymbols in
  completesWith (readPump_messages (hubWithClients [1%nat]) 1%nat requests)
    (fun st =>
       Z.of_nat (length (GetClientSubscriptions (subscriptionManager (hub st)) 1%nat)) = 21
       /\ constants.MaxSubscriptionsPerConn = 20
       /\ queueOf st 1%nat =
            map (fun symbol => Response "subscribed" (Some ("ticker", symbol)))
                Examples.twentyOneSymbols).
Proof. vm_compute. repeat split. Qed.
End SubscriptionProps.

(** ** Backpressure *)

Section BackpressureProps.
Import websocket.

(** C5: a broadcast to a channel on which 257 subscribers have full queues
    parks the Hub for good.  The Hub queues 256 of them for unregistration
    and then blocks on [h.unregister <- client] for the 257th, a channel
    only the Hub itself receives from: that client stays registered and
    subscribed with its queue open, and the subscriber that keeps up,
    visited after it, never receives the message. *)
Theorem broadcast_blocks_hub :
  list_to_set Examples.crowd
    = GetSubscribers (subscriptionManager (hub Examples.crowdedHub)) "ticker:BTCUSDT"
  /\ blocksWith
       (broadcastToChannel (fun _ => Examples.crowd) Examples.crowdedHub Examples.nextTicker)
       (fun st =>
          unregister (hub st) = seq 1 256
          /\ bool_decide (257%nat ∈ clients (hub st)) = true
          /\ IsSubscribed (subscriptionManager (hub st)) 257%nat "ticker:BTCUSDT" = true
          /\ option_map Client.sendClosed (heap st !! 257%nat) = Some false
          /\ option_map Client.connClosed (heap st !! 257%nat) = Some false
          /\ length (queueOf st 257%nat) = 256%nat
          /\ queueOf st 258%nat = []).
Proof. vm_compute. repeat split. Qed.

(** *** When the unregister buffer has room *)

Lemma trySend_open c x :
  Client.sendClosed c = false ->
  trySend c x = if (length (Client.send c) <? sendCapacity)%nat then Sent (pushed c x)
                else WouldBlock.
Proof. intros H. unfold trySend. rewrite H. reflexivity. Qed.

(** With room in the unregister buffer for every client still to visit, the
    loop completes: a client whose queue has room gets the frame, a client
    whose queue is full keeps its queue and is queued for unregistration,
    and nothing else changes. *)
Lemma broadcastLoop_completes message : forall toVisit st,
  NoDup toVisit ->
  (forall r, r ∈ toVisit ->
     exists c, heap st !! r = Some c /\ Client.sendClosed c = false) ->
  (length (unregister (hub st)) + length toVisit <= unregisterCapacity)%nat ->
  exists st',
    broadcastLoop message toVisit st = Done st'
    /\ clients (hub st') = clients (hub st)
    /\ subscriptionManager (hub st') = subscriptionManager (hub st)
    /\ (forall r, r ∈ unregister (hub st) -> r ∈ unregister (hub st'))
    /\ (forall r, r ∉ toVisit -> heap st' !! r = heap st !! r)
    /\ (forall r c, r ∈ toVisit -> heap st !! r = Some c ->
          if (length (Client.send c) <? sendCapacity)%nat
          then heap st' !! r = Some (pushed c (Update (Channel message) (Data message)))
          else heap st' !! r = Some c /\ r ∈ unregister (hub st')).
Proof.
  induction toVisit as [|r rest IH]; intros st Hnd Hopen Hroom.
  - exists st. simpl. repeat split; try done. intros r c Hr. inversion Hr.
  - apply NoDup_cons in Hnd as [Hr Hnd].
    destruct (Hopen r) as (c & Hc & Hcopen); [left|].
    simpl. rewrite Hc, (trySend_open _ _ Hcopen).
    destruct (length (Client.send c) <? sendCapacity)%nat eqn:Hfull.
    + (* the queue has room *)
      set (st1 := withClient st r (pushed c (Update (Channel message) (Data message)))).
      destruct (IH st1) as (st' & Hrun & Hcl & Hsm & Hun & Hother & Hvisited);
  [exact Hnd| |unfold st1; simpl in *; lia|].
      { intros r' Hr'. destruct (Hopen r') as (c' & Hc' & Ho'); [right; exact Hr'|].
        exists c'. split; [|exact Ho'].
        unfold st1. simpl. rewrite lookup_insert_ne; [exact Hc'|]. intros ->. contradiction. }
      exists st'. split; [exact Hrun|]. split; [exact Hcl|]. split; [exact Hsm|].
      split; [exact Hun|]. split.
      * intros r' Hr'. apply not_elem_of_cons in Hr' as [Hne Hr'].
        rewrite (Hother r' Hr'). unfold st1. simpl. apply lookup_insert_ne. congruence.
      * intros r' c' Hr' Hc'. apply elem_of_cons in Hr' as [->|Hr'].
        -- rewrite Hc in Hc'. injection Hc' as <-. rewrite Hfull.
           rewrite (Hother r Hr). unfold st1. simpl. apply lookup_insert_eq.
        -- apply (Hvisited r' c' Hr'). unfold st1. simpl.
           rewrite lookup_insert_ne; [exact Hc'|]. intros ->. contradiction.
    + (* the queue is full *)
      unfold sendUnregister.
      assert (Hlt : (length (unregister (hub st)) <? unregisterCapacity)%nat = true).
      { apply Nat.ltb_lt. simpl in Hroom. lia. }
      rewrite Hlt.
      set (st1 := withHub st _).
      destruct (IH st1) as (st' & Hrun & Hcl & Hsm & Hun & Hother & Hvisited); [exact Hnd| | |].
      { intros r' Hr'. apply Hopen. right. exact Hr'. }
      { unfold st1. simpl. rewrite length_app. simpl in *. lia. }
      exists st'. split; [exact Hrun|]. split; [exact Hcl|]. split; [exact Hsm|].
      split; [|split].
      * intros r' Hr'. apply Hun. unfold st1. simpl. apply elem_of_app. left. exact Hr'.
      * intros r' Hr'. apply not_elem_of_cons in Hr' as [Hne Hr']. apply (Hother r' Hr').
      * intros r' c' Hr' Hc'. apply elem_of_cons in Hr' as [->|Hr'].
        -- rewrite Hc in Hc'. injection Hc' as <-. rewrite Hfull. split.
           ++ rewrite (Hother r Hr). exact Hc.
           ++ apply Hun. unfold st1. simpl. apply elem_of_app. right. left.
        -- apply (Hvisited r' c' Hr'). exact Hc'.
Qed.

Lemma dropSubscriber_gone client channel cs :
  ~ listed (dropSubscriber client channel cs) channel client.
Proof.
  unfold listed, dropSubscriber. intros (subs & Hl & Hin).
  destruct (cs !! channel) as [s0|] eqn:E.
  - destruct (decide (size (s0 ∖ {[client]}) = 0%nat)).
    + rewrite lookup_delete_eq in Hl. discriminate.
    + rewrite lookup_insert_eq in Hl. injection Hl as <-.
      apply elem_of_difference in Hin as [_ Hn]. apply Hn, elem_of_singleton. reflexivity.
  - rewrite E in Hl. discriminate.
Qed.

Lemma dropSubscriber_no_new client channel cs ch r :
  listed (dropSubscriber client channel cs) ch r -> listed cs ch r.
Proof.
  unfold listed, dropSubscriber. intros (subs & Hl & Hin).
  destruct (cs !! channel) as [s0|] eqn:E; [|eauto].
  destruct (decide (ch = channel)) as [->|Hne].
  - destruct (decide (size (s0 ∖ {[client]}) = 0%nat)).
    + rewrite lookup_delete_eq in Hl. discriminate.
    + rewrite lookup_insert_eq in Hl. injection Hl as <-.
      exists s0. split; [exact E|]. apply elem_of_difference in Hin as [Hin _]. exact Hin.
  - destruct (decide (size (s0 ∖ {[client]}) = 0%nat)).
    + rewrite lookup_delete_ne in Hl by congruence. eauto.
    + rewrite lookup_insert_ne in Hl by congruence. eauto.
Qed.

Lemma dropAll_no_new client channels cs ch r :
  listed (foldr (dropSubscriber client) cs channels) ch r -> listed cs ch r.
Proof.
  induction channels as [|c0 channels IH]; simpl; [trivial|].
  intros H. apply IH. eapply dropSubscriber_no_new, H.
Qed.

Lemma dropAll_gone client channels cs ch :
  ch ∈ channels -> ~ listed (foldr (dropSubscriber client) cs channels) ch client.
Proof.
  induction channels as [|c0 channels IH]; simpl; intros Hin.
  - inversion Hin.
  - apply elem_of_cons in Hin as [->|Hin].
    + apply dropSubscriber_gone.
    + intros H. apply (IH Hin). eapply dropSubscriber_no_new, H.
Qed.

(** After [UnsubscribeAll] the client is in neither direction of a
    consistent index. *)
Lemma UnsubscribeAll_removes sm client :
  indexConsistent sm ->
  clientSubscriptions (UnsubscribeAll sm client) !! client = None
  /\ forall channel, client ∉ GetSubscribers (UnsubscribeAll sm client) channel.
Proof.
  intros Hcons. unfold UnsubscribeAll, GetSubscribers.
  destruct (clientSubscriptions sm !! client) as [channels|] eqn:E; simpl.
  - split; [apply lookup_delete_eq|].
    intros channel Hin.
    destruct (foldr _ _ _ !! channel) as [subs|] eqn:El; simpl in Hin; [|set_solver].
    assert (Hl : listed (foldr (dropSubscriber client) (channelSubscribers sm)
                           (elements channels)) channel client) by (exists subs; auto).
    pose proof (dropAll_no_new _ _ _ _ _ Hl) as (subs0 & Hs0 & Hin0).
    destruct (Hcons channel subs0 client Hs0 Hin0) as (chs & Hchs & Hch).
    rewrite E in Hchs. injection Hchs as <-.
    apply (dropAll_gone client (elements channels) (channelSubscribers sm) channel);
      [apply elem_of_elements, Hch | exact Hl].
  - split; [exact E|].
    intros channel Hin.
    destruct (channelSubscribers sm !! channel) as [subs|] eqn:El; simpl in Hin; [|set_solver].
    destruct (Hcons channel subs client El Hin) as (chs & Hchs & _). congruence.
Qed.

(** The Hub's handling of an unregister request for a registered client:
    the client leaves the client set, its queue is closed and it is in no
    subscription any more; the Hub does not complete the step, it parks in
    [ClientCount] under its own lock, in that state. *)
Lemma Run_unregister_effect st client rest c :
  unregister (hub st) = client :: rest ->
  client ∈ clients (hub st) ->
  heap st !! client = Some c ->
  Client.sendClosed c = false ->
  indexConsistent (subscriptionManager (hub st)) ->
  exists st',
    Run_unregister st = Blocked st'
    /\ unregister (hub st') = rest
    /\ (client ∉ clients (hub st'))
    /\ option_map Client.sendClosed (heap st' !! client) = Some true
    /\ GetClientSubscriptions (subscriptionManager (hub st')) client = []
    /\ forall channel, client ∉ GetSubscribers (subscriptionManager (hub st')) channel.
Proof.
  intros Hq Hin Hc Hopen Hcons.
  unfold Run_unregister. rewrite Hq. simpl.
  destruct (decide (client ∈ clients (hub st))); [|contradiction].
  rewrite Hc. unfold closeSend. rewrite Hopen.
  destruct (UnsubscribeAll_removes (subscriptionManager (hub st)) client Hcons) as [Hnone Hsubs].
  eexists. split; [reflexivity|]. simpl.
  split; [reflexivity|].
  split; [apply not_elem_of_difference; right; apply elem_of_singleton; reflexivity|].
  split; [rewrite lookup_insert_eq; reflexivity|].
  split; [unfold GetClientSubscriptions; rewrite Hnone; reflexivity|exact Hsubs].
Qed.

(** Once the queue is closed, the write pump drains it and closes the
    connection. *)
Lemma writePump_closes_connection c :
  Client.sendClosed c = true ->
  Client.connClosed (writePump_turn (writePump_turn c)) = true.
Proof.
  intros H. unfold writePump_turn.
  destruct (Client.send c); simpl; rewrite H; reflexivity.
Qed.
End BackpressureProps.

(** * Further properties of the code *)

(** ** The subscription index (subscription.go) *)

Section IndexProps.
Import websocket.

Section Relations.
Context `{Countable K} `{Countable V}.
Implicit Types (m : gmap K (gset V)) (k : K) (v : V).

(** Adding [v] under [k], as [Subscribe] does on each map. *)
Lemma related_add m k v k' v' :
  related (<[k := {[v]} ∪ default ∅ (m !! k)]> m) k' v'
  <-> related m k' v' \/ (k' = k /\ v' = v).
Proof.
  unfold related. destruct (decide (k' = k)) as [->|Hne].
  - rewrite lookup_insert_eq. split.
    + intros (s & [= <-] & Hin). apply elem_of_union in Hin as [Hin|Hin].
      * right. apply elem_of_singleton in Hin. auto.
      * left. destruct (m !! k) as [s0|]; simpl in Hin; [eauto|].
        apply elem_of_empty in Hin. contradiction.
    + intros [(s & Hs & Hin)|[_ ->]]; eexists; (split; [reflexivity|]).
      * rewrite Hs. simpl. apply elem_of_union. right. exact Hin.
      * apply elem_of_union. left. apply elem_of_singleton. reflexivity.
  - rewrite lookup_insert_ne by congruence. split; [auto|].
    intros [Hr|[Heq _]]; [exact Hr|contradiction].
Qed.

Lemma add_no_empty m k v :
  (forall k', m !! k' <> Some ∅) ->
  forall k', <[k := {[v]} ∪ default ∅ (m !! k)]> m !! k' <> Some ∅.
Proof.
  intros Hm k'. destruct (decide (k' = k)) as [->|Hne].
  - rewrite lookup_insert_eq. intros [= Heq].
    assert (Hin : v ∈ ({[v]} ∪ default ∅ (m !! k) : gset V))
      by (apply elem_of_union; left; apply elem_of_singleton; reflexivity).
    rewrite Heq in Hin. apply elem_of_empty in Hin. exact Hin.
  - rewrite lookup_insert_ne by congruence. apply Hm.
Qed.

Lemma related_dropped m k v k' v' :
  related (dropped m k v) k' v' <-> related m k' v' /\ ~ (k' = k /\ v' = v).
Proof.
  unfold related, dropped. destruct (m !! k) as [s0|] eqn:E.
  - destruct (decide (k' = k)) as [->|Hne].
    + destruct (decide (size (s0 ∖ {[v]}) = 0%nat)) as [Hz|Hnz].
      * rewrite lookup_delete_eq. split; [intros (s & [=] & _)|].
        intros [(s & Hs & Hin) Hn]. rewrite E in Hs. injection Hs as <-.
        apply size_empty_inv in Hz. exfalso.
        apply (elem_of_empty (C := gset V) v'), Hz. apply elem_of_difference. split; [exact Hin|].
        intros Hv. apply elem_of_singleton in Hv. auto.
      * rewrite lookup_insert_eq. split.
        -- intros (s & [= <-] & Hin). apply elem_of_difference in Hin as [Hin Hv].
           split; [eauto|]. intros [_ ->]. apply Hv, elem_of_singleton. reflexivity.
        -- intros [(s & Hs & Hin) Hn]. rewrite E in Hs. injection Hs as <-.
           eexists. split; [reflexivity|]. apply elem_of_difference. split; [exact Hin|].
           intros Hv. apply elem_of_singleton in Hv. auto.
    + assert (Hl : forall m', m' = delete k m \/ m' = <[k := s0 ∖ {[v]}]> m ->
                              m' !! k' = m !! k').
      { intros m' [->| ->]; [apply lookup_delete_ne|apply lookup_insert_ne]; congruence. }
      destruct (decide _); rewrite Hl by auto; (split; [intros Hr; split; [exact Hr|]|tauto]);
        intros [Heq _]; contradiction.
  - split; [|tauto]. intros (s & Hs & Hin). split; [eauto|].
    intros [-> _]. congruence.
Qed.

Lemma dropped_no_empty m k v :
  (forall k', m !! k' <> Some ∅) -> forall k', dropped m k v !! k' <> Some ∅.
Proof.
  intros Hm k'. unfold dropped. destruct (m !! k) as [s0|] eqn:E; [|apply Hm].
  destruct (decide (size (s0 ∖ {[v]}) = 0%nat)) as [Hz|Hnz].
  - destruct (decide (k' = k)) as [->|Hne].
    + rewrite lookup_delete_eq. discriminate.
    + rewrite lookup_delete_ne by congruence. apply Hm.
  - destruct (decide (k' = k)) as [->|Hne].
    + rewrite lookup_insert_eq. intros [= Heq]. apply Hnz. rewrite Heq. apply size_empty.
    + rewrite lookup_insert_ne by congruence. apply Hm.
Qed.

Lemma related_delete m k k' v' :
  related (delete k m) k' v' <-> related m k' v' /\ k' <> k.
Proof.
  unfold related. destruct (decide (k' = k)) as [->|Hne].
  - rewrite lookup_delete_eq. split; [intros (s & [=] & _)|tauto].
  - rewrite lookup_delete_ne by congruence. tauto.
Qed.

Lemma delete_no_empty m k :
  (forall k', m !! k' <> Some ∅) -> forall k', delete k m !! k' <> Some ∅.
Proof.
  intros Hm k'. destruct (decide (k' = k)) as [->|Hne].
  - rewrite lookup_delete_eq. discriminate.
  - rewrite lookup_delete_ne by congruence. apply Hm.
Qed.

(** Dropping what was just added gives the map back, when the pair was not
    in it. *)
Lemma dropped_add m k v :
  ~ related m k v -> m !! k <> Some ∅ ->
  dropped (<[k := {[v]} ∪ default ∅ (m !! k)]> m) k v = m.
Proof.
  intros Hnot Hne. unfold dropped. rewrite lookup_insert_eq.
  destruct (m !! k) as [s0|] eqn:E; cbn [from_option id].
  - assert (Hv : v ∉ s0) by (intros Hin; apply Hnot; exists s0; auto).
    assert (Heq : ({[v]} ∪ s0) ∖ {[v]} = s0).
    { apply set_eq. intros x.
      rewrite elem_of_difference, elem_of_union, elem_of_singleton. split.
      - intros [[->|Hx] Hn]; [contradiction|exact Hx].
      - intros Hx. split; [right; exact Hx|]. intros ->. contradiction. }
    rewrite Heq. destruct (decide (size s0 = 0%nat)) as [Hz|Hnz].
    + apply size_empty_inv, leibniz_equiv in Hz. congruence.
    + rewrite insert_insert_eq. apply insert_id. exact E.
  - assert (Heq : ({[v]} ∪ ∅) ∖ {[v]} = (∅ : gset V)).
    { apply set_eq. intros x.
      rewrite elem_of_difference, elem_of_union, elem_of_singleton. split.
      - intros [[->|Hx] Hn]; [contradiction|exact Hx].
      - intros Hx. apply elem_of_empty in Hx. contradiction. }
    rewrite Heq. destruct (decide _) as [_|Hnz]; [|exfalso; apply Hnz, size_empty].
    apply delete_insert_id. exact E.
Qed.
End Relations.

Lemma dropSubscriber_dropped client channel cs :
  dropSubscriber client channel cs = dropped cs channel client.
Proof. reflexivity. Qed.

Lemma related_dropAll client channels cs ch r :
  related (foldr (dropSubscriber client) cs channels) ch r
  <-> related cs ch r /\ ~ (r = client /\ ch ∈ channels).
Proof.
  induction channels as [|c0 channels IH]; simpl.
  - split; [|tauto]. intros Hr. split; [exact Hr|]. intros [_ Hin]. inversion Hin.
  - rewrite dropSubscriber_dropped, related_dropped, IH. rewrite elem_of_cons. tauto.
Qed.

Lemma dropAll_no_empty client channels (cs : gmap string (gset ClientRef)) :
  (forall ch, cs !! ch <> Some ∅) ->
  forall ch, foldr (dropSubscriber client) cs channels !! ch <> Some ∅.
Proof.
  intros Hcs. induction channels as [|c0 channels IH]; simpl; [exact Hcs|].
  rewrite dropSubscriber_dropped. apply dropped_no_empty, IH.
Qed.

Lemma IsSubscribed_related sm client channel :
  IsSubscribed sm client channel = true <-> related (clientSubscriptions sm) client channel.
Proof.
  unfold IsSubscribed, related. destruct (clientSubscriptions sm !! client) as [s|].
  - rewrite bool_decide_eq_true. split; [eauto|]. intros (s' & [= <-] & Hin). exact Hin.
  - split; [discriminate|]. intros (s' & [=] & _).
Qed.

Lemma GetSubscribers_related sm client channel :
  client ∈ GetSubscribers sm channel <-> related (channelSubscribers sm) channel client.
Proof.
  unfold GetSubscribers, related. destruct (channelSubscribers sm !! channel) as [s|]; simpl.
  - split; [eauto|]. intros (s' & [= <-] & Hin). exact Hin.
  - split; [intros Hin; apply elem_of_empty in Hin; contradiction|]. intros (s' & [=] & _).
Qed.

Lemma GetClientSubscriptions_related sm client channel :
  channel ∈ GetClientSubscriptions sm client <-> related (clientSubscriptions sm) client channel.
Proof.
  unfold GetClientSubscriptions, related. destruct (clientSubscriptions sm !! client) as [s|].
  - rewrite elem_of_elements. split; [eauto|]. intros (s' & [= <-] & Hin). exact Hin.
  - split; [intros Hin; inversion Hin|]. intros (s' & [=] & _).
Qed.

Lemma sm_Unsubscribe_dropped sm client channel :
  sm_Unsubscribe sm client channel
  = mkSubscriptionManager (dropped (channelSubscribers sm) channel client)
                          (dropped (clientSubscriptions sm) client channel).
Proof. reflexivity. Qed.

Lemma NewSubscriptionManager_coherent : indexCoherent NewSubscriptionManager.
Proof.
  split; [|split]; simpl.
  - intros channel client. unfold related. rewrite !lookup_empty.
    split; intros (s & [=] & _).
  - intros channel. rewrite lookup_empty. discriminate.
  - intros client. rewrite lookup_empty. discriminate.
Qed.

Lemma callSubscription_coherent sm call :
  indexCoherent sm -> indexCoherent (callSubscription sm call).
Proof.
  intros (Hrel & Hcs & Hcl). destruct call as [client channel|client channel|client]; simpl.
  - split; [|split]; simpl.
    + intros ch r. rewrite !related_add, Hrel. tauto.
    + apply add_no_empty, Hcs.
    + apply add_no_empty, Hcl.
  - rewrite sm_Unsubscribe_dropped. split; [|split]; simpl.
    + intros ch r. rewrite !related_dropped, Hrel. tauto.
    + apply dropped_no_empty, Hcs.
    + apply dropped_no_empty, Hcl.
  - unfold UnsubscribeAll.
    destruct (clientSubscriptions sm !! client) as [channels|] eqn:E;
      [|split; [exact Hrel|split; [exact Hcs|exact Hcl]]].
    split; [|split]; simpl.
    + intros ch r. rewrite related_dropAll, related_delete, Hrel. split.
      * intros [Hr Hn]. split; [exact Hr|]. intros ->. apply Hn. split; [reflexivity|].
        destruct Hr as (s & Hs & Hin). rewrite E in Hs. injection Hs as <-.
        apply elem_of_elements, Hin.
      * intros [Hr Hn]. split; [exact Hr|]. intros [-> _]. apply Hn. reflexivity.
    + apply dropAll_no_empty, Hcs.
    + apply delete_no_empty, Hcl.
Qed.

Lemma foldl_calls_coherent calls : forall sm,
  indexCoherent sm -> indexCoherent (foldl callSubscription sm calls).
Proof.
  induction calls as [|call calls IH]; intros sm Hsm; simpl; [exact Hsm|].
  apply IH, callSubscription_coherent, Hsm.
Qed.

Lemma afterCalls_coherent calls : indexCoherent (afterCalls calls).
Proof. apply foldl_calls_coherent, NewSubscriptionManager_coherent. Qed.

(** X1: whatever calls are made on a new subscription manager, its two maps
    keep describing the same set of (client, channel) pairs, and no channel
    or client is left with an empty set. *)
Theorem subscription_index_coherent (calls : list SubscriptionCall) :
  indexCoherent (afterCalls calls).
Proof. apply afterCalls_coherent. Qed.

(** X2: after any run of calls the three read accessors agree: [IsSubscribed]
    holds exactly when the client is among [GetSubscribers] of the channel,
    and exactly when the channel is among [GetClientSubscriptions] of the
    client. *)
Theorem subscription_views_agree (calls : list SubscriptionCall) client channel :
  (IsSubscribed (afterCalls calls) client channel = true
   <-> client ∈ GetSubscribers (afterCalls calls) channel)
  /\ (IsSubscribed (afterCalls calls) client channel = true
      <-> channel ∈ GetClientSubscriptions (afterCalls calls) client).
Proof.
  destruct (afterCalls_coherent calls) as (Hrel & _ & _).
  rewrite IsSubscribed_related, GetSubscribers_related, GetClientSubscriptions_related, Hrel.
  tauto.
Qed.

(** X3: [Subscribe] adds exactly the pair it is given and [Unsubscribe]
    removes exactly that pair; every other subscription, of this client or
    of another, reads as before. *)
Theorem subscribe_unsubscribe_exact sm client channel client' channel' :
  (IsSubscribed (sm_Subscribe sm client channel) client' channel' = true
   <-> IsSubscribed sm client' channel' = true \/ (client' = client /\ channel' = channel))
  /\ (IsSubscribed (sm_Unsubscribe sm client channel) client' channel' = true
      <-> IsSubscribed sm client' channel' = true /\ ~ (client' = client /\ channel' = channel))
  /\ (client' ∈ GetSubscribers (sm_Subscribe sm client channel) channel'
      <-> client' ∈ GetSubscribers sm channel' \/ (client' = client /\ channel' = channel))
  /\ (client' ∈ GetSubscribers (sm_Unsubscribe sm client channel) channel'
      <-> client' ∈ GetSubscribers sm channel' /\ ~ (client' = client /\ channel' = channel)).
Proof.
  rewrite !IsSubscribed_related, !GetSubscribers_related, sm_Unsubscribe_dropped.
  unfold sm_Subscribe. simpl. rewrite !related_add, !related_dropped. tauto.
Qed.

(** X4: unsubscribing right after subscribing gives the manager back as it
    was, provided the client was not subscribed to the channel before. *)
Theorem unsubscribe_undoes_subscribe (calls : list SubscriptionCall) client channel :
  IsSubscribed (afterCalls calls) client channel = false ->
  sm_Unsubscribe (sm_Subscribe (afterCalls calls) client channel) client channel
  = afterCalls calls.
Proof.
  intros Hnot. destruct (afterCalls_coherent calls) as (Hrel & Hcs & Hcl).
  assert (Hn : ~ related (clientSubscriptions (afterCalls calls)) client channel).
  { rewrite <- IsSubscribed_related, Hnot. discriminate. }
  rewrite sm_Unsubscribe_dropped. unfold sm_Subscribe. simpl.
  rewrite !dropped_add; [destruct (afterCalls calls); reflexivity| | | |]; auto.
  rewrite Hrel. exact Hn.
Qed.

Lemma unsubscribe_undoes_subscribe_witness :
  let calls := [CallSubscribe 1%nat "ticker:BTCUSDT"; CallSubscribe 2%nat "depth:BTCUSDT"] in
  IsSubscribed (afterCalls calls) 2%nat "ticker:BTCUSDT" = false
  /\ sm_Unsubscribe (sm_Subscribe (afterCalls calls) 2%nat "ticker:BTCUSDT")
                    2%nat "ticker:BTCUSDT"
     = afterCalls calls.
Proof.
  split; [reflexivity|].
  apply (unsubscribe_undoes_subscribe
           [CallSubscribe 1%nat "ticker:BTCUSDT"; CallSubscribe 2%nat "depth:BTCUSDT"]).
  reflexivity.
Defined.

Lemma UnsubscribeAll_other sm client other channel :
  other <> client ->
  IsSubscribed (UnsubscribeAll sm client) other channel = IsSubscribed sm other channel
  /\ (other ∈ GetSubscribers (UnsubscribeAll sm client) channel
      <-> other ∈ GetSubscribers sm channel).
Proof.
  intros Hne. split.
  - apply eq_true_iff_eq. rewrite !IsSubscribed_related. unfold UnsubscribeAll.
    destruct (clientSubscriptions sm !! client); [|tauto].
    simpl. rewrite related_delete. tauto.
  - rewrite !GetSubscribers_related. unfold UnsubscribeAll.
    destruct (clientSubscriptions sm !! client); [|tauto].
    simpl. rewrite related_dropAll. tauto.
Qed.

Lemma UnsubscribeAll_self sm client channel :
  IsSubscribed (UnsubscribeAll sm client) client channel = false.
Proof.
  apply not_true_is_false. rewrite IsSubscribed_related. unfold UnsubscribeAll.
  destruct (clientSubscriptions sm !! client) eqn:E; simpl.
  - rewrite related_delete. tauto.
  - intros (s & Hs & _). congruence.
Qed.

(** X5: [UnsubscribeAll] for one client leaves every other client's
    subscriptions as they were, in both maps. *)
Theorem UnsubscribeAll_spares_others sm client other channel :
  other <> client ->
  IsSubscribed (UnsubscribeAll sm client) other channel = IsSubscribed sm other channel
  /\ (other ∈ GetSubscribers (UnsubscribeAll sm client) channel
      <-> other ∈ GetSubscribers sm channel).
Proof. apply UnsubscribeAll_other. Qed.

Lemma UnsubscribeAll_spares_others_witness :
  let sm := afterCalls [CallSubscribe 1%nat "ticker:BTCUSDT"; CallSubscribe 2%nat "ticker:BTCUSDT"] in
  IsSubscribed (UnsubscribeAll sm 1%nat) 2%nat "ticker:BTCUSDT"
    = IsSubscribed sm 2%nat "ticker:BTCUSDT"
  /\ (2%nat ∈ GetSubscribers (UnsubscribeAll sm 1%nat) "ticker:BTCUSDT"
      <-> 2%nat ∈ GetSubscribers sm "ticker:BTCUSDT").
Proof.
  apply (UnsubscribeAll_spares_others
           (afterCalls [CallSubscribe 1%nat "ticker:BTCUSDT"; CallSubscribe 2%nat "ticker:BTCUSDT"])
           1%nat 2%nat "ticker:BTCUSDT").
  lia.
Defined.
End IndexProps.

(** ** The Hub (hub.go) *)

Section HubProps.
Import websocket.

Lemma coherent_consistent sm : indexCoherent sm -> indexConsistent sm.
Proof.
  intros (Hrel & _ & _) channel subscribers client Hs Hin.
  apply (Hrel channel client). exists subscribers. auto.
Qed.

(** X6: the Hub's handling of an unregister request for a registered client
    whose queue is open.  The request is consumed, the client leaves the
    client set, its queue is closed and it is left in no subscription; the
    step does not complete: the Hub parks in [ClientCount], which asks for
    the read lock while the Hub itself holds the write lock, and it stays in
    that state. *)
Theorem unregister_parks_hub st client rest c :
  unregister (hub st) = client :: rest ->
  client ∈ clients (hub st) ->
  heap st !! client = Some c ->
  Client.sendClosed c = false ->
  indexConsistent (subscriptionManager (hub st)) ->
  exists st',
    Run_unregister st = Blocked st'
    /\ unregister (hub st') = rest
    /\ (client ∉ clients (hub st'))
    /\ option_map Client.sendClosed (heap st' !! client) = Some true
    /\ GetClientSubscriptions (subscriptionManager (hub st')) client = []
    /\ forall channel, client ∉ GetSubscribers (subscriptionManager (hub st')) channel.
Proof. apply Run_unregister_effect. Qed.

Lemma unregister_parks_hub_witness :
  let st := mkState
              (mkHub {[1%nat]} [] [1%nat] []
                     (afterCalls [CallSubscribe 1%nat "ticker:BTCUSDT"]))
              {[1%nat := NewClient "c-1"]} in
  exists st',
    Run_unregister st = Blocked st'
    /\ unregister (hub st') = []
    /\ (1%nat ∉ clients (hub st'))
    /\ option_map Client.sendClosed (heap st' !! 1%nat) = Some true
    /\ GetClientSubscriptions (subscriptionManager (hub st')) 1%nat = []
    /\ forall channel, 1%nat ∉ GetSubscribers (subscriptionManager (hub st')) channel.
Proof.
  apply (unregister_parks_hub
           (mkState
              (mkHub {[1%nat]} [] [1%nat] []
                     (afterCalls [CallSubscribe 1%nat "ticker:BTCUSDT"]))
              {[1%nat := NewClient "c-1"]})
           1%nat [] (NewClient "c-1")).
  - reflexivity.
  - exact (proj2 (elem_of_singleton (C := gset nat) 1%nat 1%nat) eq_refl).
  - reflexivity.
  - reflexivity.
  - apply coherent_consistent, afterCalls_coherent.
Defined.

Lemma queueFull_withClient st r0 c' r :
  r <> r0 -> queueFull (withClient st r0 c') r = queueFull st r.
Proof. intros Hne. unfold queueFull, withClient. simpl. rewrite lookup_insert_ne; congruence. Qed.

Lemma filter_queueFull_withClient st r0 c' l :
  r0 ∉ l -> List.filter (queueFull (withClient st r0 c')) l = List.filter (queueFull st) l.
Proof.
  induction l as [|r l IH]; intros Hn; [reflexivity|].
  apply not_elem_of_cons in Hn as [Hne Hn]. simpl.
  rewrite queueFull_withClient by congruence. rewrite (IH Hn). reflexivity.
Qed.

(** With room in the unregister buffer, the loop queues for
    unregistration exactly the clients whose queue is full, in the order it
    visits them. *)
Lemma broadcastLoop_queue message : forall toVisit st,
  NoDup toVisit ->
  (forall r, r ∈ toVisit ->
     exists c, heap st !! r = Some c /\ Client.sendClosed c = false) ->
  (length (unregister (hub st)) + length toVisit <= unregisterCapacity)%nat ->
  exists st',
    broadcastLoop message toVisit st = Done st'
    /\ unregister (hub st') = unregister (hub st) ++ List.filter (queueFull st) toVisit
    /\ clients (hub st') = clients (hub st)
    /\ broadcast (hub st') = broadcast (hub st)
    /\ (forall r, queueFull st r = true -> heap st' !! r = heap st !! r).
Proof.
  induction toVisit as [|r rest IH]; intros st Hnd Hopen Hroom.
  - exists st. simpl. rewrite app_nil_r. repeat split.
  - apply NoDup_cons in Hnd as [Hr Hnd].
    destruct (Hopen r) as (c & Hc & Hcopen); [left|].
    simpl. rewrite Hc, (trySend_open _ _ Hcopen).
    unfold queueFull at 1. rewrite Hc.
    destruct (length (Client.send c) <? sendCapacity)%nat eqn:Hfull; cbn [negb].
    + set (st1 := withClient st r (pushed c (Update (Channel message) (Data message)))).
      destruct (IH st1) as (st' & Hrun & Hq & Hcl & Hbc & Hheap);
        [exact Hnd| |unfold st1; simpl in *; lia|].
      { intros r' Hr'. destruct (Hopen r') as (c' & Hc' & Ho'); [right; exact Hr'|].
        exists c'. split; [|exact Ho'].
        unfold st1. simpl. rewrite lookup_insert_ne; [exact Hc'|]. intros ->. contradiction. }
      exists st'. split; [exact Hrun|].
      split; [rewrite Hq; unfold st1; rewrite filter_queueFull_withClient by exact Hr;
              reflexivity|].
      split; [exact Hcl|]. split; [exact Hbc|].
      intros r' Hr'.
      assert (Hne : r' <> r).
      { intros ->. unfold queueFull in Hr'. rewrite Hc, Hfull in Hr'. discriminate. }
      rewrite Hheap by (unfold st1; rewrite queueFull_withClient by exact Hne; exact Hr').
      unfold st1. simpl. apply lookup_insert_ne. congruence.
    + unfold sendUnregister.
      assert (Hlt : (length (unregister (hub st)) <? unregisterCapacity)%nat = true).
      { apply Nat.ltb_lt. simpl in Hroom. lia. }
      rewrite Hlt.
      set (st1 := withHub st _).
      destruct (IH st1) as (st' & Hrun & Hq & Hcl & Hbc & Hheap); [exact Hnd| | |].
      { intros r' Hr'. apply Hopen. right. exact Hr'. }
      { unfold st1. simpl. rewrite length_app. simpl in *. lia. }
      exists st'. split; [exact Hrun|].
      split; [rewrite Hq; unfold st1; simpl; rewrite <- app_assoc; reflexivity|].
      split; [exact Hcl|]. split; [exact Hbc|].
      intros r' Hr'. apply (Hheap r' Hr').
Qed.

(** X7: one subscriber that does not read stalls the whole Hub.  When a
    broadcast finds the queue of a subscriber full, the Hub completes the
    broadcast with that client queued for unregistration; on the turn that
    takes the request it removes the client, closes its queue and parks for
    good before it completes the step, with the rest of its channels
    unserved.  This holds whatever the order in which the subscribers are
    visited. *)
Theorem full_queue_parks_hub range st message later slow c :
  (forall s, NoDup (range s) /\ forall r, r ∈ range s <-> r ∈ s) ->
  broadcast (hub st) = message :: later ->
  unregister (hub st) = [] ->
  (size (GetSubscribers (subscriptionManager (hub st)) (Channel message))
   <= unregisterCapacity)%nat ->
  (forall r, r ∈ GetSubscribers (subscriptionManager (hub st)) (Channel message) ->
     r ∈ clients (hub st)
     /\ exists c, heap st !! r = Some c /\ Client.sendClosed c = false) ->
  slow ∈ GetSubscribers (subscriptionManager (hub st)) (Channel message) ->
  heap st !! slow = Some c ->
  (sendCapacity <= length (Client.send c))%nat ->
  exists st1 st2 first rest,
    Run_broadcast range st = Done st1
    /\ unregister (hub st1) = first :: rest
    /\ first ∈ GetSubscribers (subscriptionManager (hub st)) (Channel message)
    /\ queueFull st first = true
    /\ Run_unregister st1 = Blocked st2
    /\ (first ∉ clients (hub st2))
    /\ option_map Client.sendClosed (heap st2 !! first) = Some true
    /\ unregister (hub st2) = rest
    /\ broadcast (hub st2) = later.
Proof.
  intros Hrange Hbc Hun Hsize Hsubs Hslow Hc Hfull.
  set (subscribers := GetSubscribers (subscriptionManager (hub st)) (Channel message)) in *.
  destruct (Hrange subscribers) as [Hnd Hin].
  set (st0 := withHub st (mkHub (clients (hub st)) (register (hub st)) (unregister (hub st))
                                later (subscriptionManager (hub st)))).
  assert (Hlen : length (range subscribers) = size subscribers).
  { unfold size, set_size. simpl. apply Permutation_length, NoDup_Permutation.
    - exact Hnd.
    - apply NoDup_elements.
    - intros r. rewrite Hin, elem_of_elements. reflexivity. }
  destruct (broadcastLoop_queue message (range subscribers) st0 Hnd)
    as (st1 & Hrun & Hq & Hcl & Hbc1 & Hheap).
  { intros r Hr. apply Hin, Hsubs in Hr as [_ Hr]. exact Hr. }
  { unfold st0. simpl. rewrite Hun, Hlen. simpl. exact Hsize. }
  assert (Hslowfull : queueFull st0 slow = true).
  { unfold queueFull, st0. simpl. rewrite Hc. apply negb_true_iff, Nat.ltb_ge, Hfull. }
  assert (Hne : List.filter (queueFull st0) (range subscribers) <> []).
  { intros Hnil.
    assert (Hi : In slow (List.filter (queueFull st0) (range subscribers))).
    { apply filter_In. split; [apply list_elem_of_In, Hin, Hslow|exact Hslowfull]. }
    rewrite Hnil in Hi. exact Hi. }
  destruct (List.filter (queueFull st0) (range subscribers)) as [|first rest] eqn:Hf;
    [contradiction|].
  assert (Hfirst : In first (List.filter (queueFull st0) (range subscribers)))
    by (rewrite Hf; left; reflexivity).
  apply filter_In in Hfirst as [Hfin Hffull].
  apply list_elem_of_In, Hin in Hfin.
  destruct (Hsubs first Hfin) as (Hreg & cf & Hcf & Hopen).
  assert (Hq1 : unregister (hub st1) = first :: rest).
  { rewrite Hq. unfold st0. simpl. rewrite Hun. reflexivity. }
  assert (Hrunb : Run_broadcast range st = Done st1).
  { unfold Run_broadcast. rewrite Hbc. unfold broadcastToChannel. fold st0.
    change (GetSubscribers (subscriptionManager (hub st0)) (Channel message)) with subscribers.
    destruct (decide (size subscribers = 0%nat)) as [Hz|_]; [|exact Hrun].
    exfalso. apply size_empty_inv in Hz.
    apply (elem_of_empty (C := gset ClientRef) slow), Hz, Hslow. }
  eexists st1, _, first, rest.
  split; [exact Hrunb|]. split; [exact Hq1|]. split; [exact Hfin|].
  split; [exact Hffull|].
  unfold Run_unregister. rewrite Hq1. cbn [hub withHub clients heap].
  rewrite Hcl. unfold st0 at 1. cbn [hub withHub clients].
  destruct (decide (first ∈ clients (hub st))) as [_|Hn]; [|contradiction].
  rewrite (Hheap first Hffull). unfold st0 at 1. cbn [heap withHub].
  rewrite Hcf. unfold closeSend. rewrite Hopen.
  split; [reflexivity|]. cbn [hub heap clients unregister broadcast].
  split; [apply not_elem_of_difference; right; apply elem_of_singleton; reflexivity|].
  split; [rewrite lookup_insert_eq; reflexivity|].
  split; [reflexivity|]. rewrite Hbc1. reflexivity.
Qed.

Lemma full_queue_parks_hub_witness :
  exists st1 st2 first rest,
    Run_broadcast elements MoreExamples.slowListener = Done st1
    /\ unregister (hub st1) = first :: rest
    /\ first ∈ GetSubscribers (subscriptionManager (hub MoreExamples.slowListener))
                              (Channel Examples.nextTicker)
    /\ queueFull MoreExamples.slowListener first = true
    /\ Run_unregister st1 = Blocked st2
    /\ (first ∉ clients (hub st2))
    /\ option_map Client.sendClosed (heap st2 !! first) = Some true
    /\ unregister (hub st2) = rest
    /\ broadcast (hub st2) = [].
Proof.
  assert (Hone : forall r,
            r ∈ GetSubscribers (subscriptionManager (hub MoreExamples.slowListener))
                               (Channel Examples.nextTicker) -> r = 1%nat).
  { intros r Hr. change (r ∈ ({[1%nat]} ∪ ∅ : gset nat)) in Hr.
    apply elem_of_union in Hr as [Hr|Hr]; [|apply elem_of_empty in Hr; contradiction].
    apply elem_of_singleton in Hr. exact Hr. }
  apply (full_queue_parks_hub elements MoreExamples.slowListener Examples.nextTicker []
           1%nat Examples.stalledClient).
  - intros s. split; [apply NoDup_elements|]. intros r. apply elem_of_elements.
  - reflexivity.
  - reflexivity.
  - vm_compute. lia.
  - intros r Hr. apply Hone in Hr. subst r. split.
    + exact (proj2 (elem_of_singleton (C := gset nat) 1%nat 1%nat) eq_refl).
    + exists Examples.stalledClient. split; reflexivity.
  - change (1%nat ∈ ({[1%nat]} ∪ ∅ : gset nat)). apply elem_of_union. left.
    apply elem_of_singleton. reflexivity.
  - reflexivity.
  - vm_compute. lia.
Defined.

(** When every client to visit has an open queue with room, the loop
    completes, appends the update to each of their queues and touches
    nothing else. *)
Lemma broadcastLoop_room message : forall toVisit st,
  NoDup toVisit ->
  (forall r, r ∈ toVisit ->
     exists c, heap st !! r = Some c /\ Client.sendClosed c = false
               /\ (length (Client.send c) < sendCapacity)%nat) ->
  exists st',
    broadcastLoop message toVisit st = Done st'
    /\ hub st' = hub st
    /\ (forall r, r ∉ toVisit -> heap st' !! r = heap st !! r)
    /\ (forall r, r ∈ toVisit ->
          heap st' !! r
          = (fun c => pushed c (Update (Channel message) (Data message))) <$> heap st !! r).
Proof.
  induction toVisit as [|r rest IH]; intros st Hnd Hopen.
  - exists st. simpl. repeat split; try done. intros r Hr. inversion Hr.
  - apply NoDup_cons in Hnd as [Hr Hnd].
    destruct (Hopen r) as (c & Hc & Hcopen & Hroom); [left|].
    simpl. rewrite Hc, (trySend_open _ _ Hcopen).
    apply Nat.ltb_lt in Hroom. rewrite Hroom.
    set (st1 := withClient st r (pushed c (Update (Channel message) (Data message)))).
    destruct (IH st1) as (st' & Hrun & Hhub & Hother & Hvisited); [exact Hnd| |].
    { intros r' Hr'. destruct (Hopen r') as (c' & Hc' & Ho'); [right; exact Hr'|].
      exists c'. split; [|exact Ho'].
      unfold st1. simpl. rewrite lookup_insert_ne; [exact Hc'|]. intros ->. contradiction. }
    exists st'. split; [exact Hrun|]. split; [exact Hhub|]. split.
    + intros r' Hr'. apply not_elem_of_cons in Hr' as [Hne Hr'].
      rewrite (Hother r' Hr'). unfold st1. simpl. apply lookup_insert_ne. congruence.
    + intros r' Hr'. apply elem_of_cons in Hr' as [->|Hr'].
      * rewrite (Hother r Hr), Hc. unfold st1. simpl. apply lookup_insert_eq.
      * rewrite (Hvisited r' Hr'). unfold st1. simpl.
        rewrite lookup_insert_ne; [reflexivity|]. intros ->. contradiction.
Qed.

Lemma broadcastToChannel_room range st message :
  (forall s, NoDup (range s) /\ forall r, r ∈ range s <-> r ∈ s) ->
  (forall r, r ∈ GetSubscribers (subscriptionManager (hub st)) (Channel message) ->
     exists c, heap st !! r = Some c /\ Client.sendClosed c = false
               /\ (length (Client.send c) < sendCapacity)%nat) ->
  exists st',
    broadcastToChannel range st message = Done st'
    /\ hub st' = hub st
    /\ forall r,
         heap st' !! r
         = if decide (r ∈ GetSubscribers (subscriptionManager (hub st)) (Channel message))
           then (fun c => pushed c (Update (Channel message) (Data message))) <$> heap st !! r
           else heap st !! r.
Proof.
  intros Hrange Hopen. unfold broadcastToChannel.
  set (subscribers := GetSubscribers (subscriptionManager (hub st)) (Channel message)) in *.
  destruct (Hrange subscribers) as [Hnd Hin].
  destruct (decide (size subscribers = 0%nat)) as [Hz|Hnz].
  - exists st. split; [reflexivity|]. split; [reflexivity|]. intros r.
    destruct (decide (r ∈ subscribers)) as [Hr|_]; [|reflexivity].
    apply size_empty_inv in Hz. exfalso. apply (elem_of_empty (C := gset ClientRef) r), Hz, Hr.
  - destruct (broadcastLoop_room message (range subscribers) st Hnd)
      as (st' & Hrun & Hhub & Hother & Hvisited).
    { intros r Hr. apply Hopen, Hin, Hr. }
    exists st'. split; [exact Hrun|]. split; [exact Hhub|]. intros r.
    destruct (decide (r ∈ subscribers)) as [Hr|Hr].
    + apply Hvisited, Hin, Hr.
    + apply Hother. rewrite Hin. exact Hr.
Qed.

(** X8: a broadcast on a channel whose subscribers all have an open queue
    with room completes, whatever the order the subscribers are visited in:
    each subscriber's queue gets the update appended, every other queue and
    the Hub itself are unchanged, and nobody is queued for unregistration. *)
Theorem broadcast_reaches_every_subscriber range st message :
  (forall s, NoDup (range s) /\ forall r, r ∈ range s <-> r ∈ s) ->
  (forall r, r ∈ GetSubscribers (subscriptionManager (hub st)) (Channel message) ->
     exists c, heap st !! r = Some c /\ Client.sendClosed c = false
               /\ (length (Client.send c) < sendCapacity)%nat) ->
  exists st',
    broadcastToChannel range st message = Done st'
    /\ hub st' = hub st
    /\ forall r,
         heap st' !! r
         = if decide (r ∈ GetSubscribers (subscriptionManager (hub st)) (Channel message))
           then (fun c => pushed c (Update (Channel message) (Data message))) <$> heap st !! r
           else heap st !! r.
Proof. apply broadcastToChannel_room. Qed.

Lemma broadcast_reaches_every_subscriber_witness :
  exists st',
    broadcastToChannel elements MoreExamples.oneListener Examples.nextTicker = Done st'
    /\ hub st' = hub MoreExamples.oneListener
    /\ forall r,
         heap st' !! r
         = if decide (r ∈ GetSubscribers (subscriptionManager (hub MoreExamples.oneListener))
                                         (Channel Examples.nextTicker))
           then (fun c => pushed c (Update (Channel Examples.nextTicker)
                                           (Data Examples.nextTicker)))
                  <$> heap MoreExamples.oneListener !! r
           else heap MoreExamples.oneListener !! r.
Proof.
  apply (broadcast_reaches_every_subscriber elements MoreExamples.oneListener
                                            Examples.nextTicker).
  - intros s. split; [apply NoDup_elements|]. intros r. apply elem_of_elements.
  - intros r Hr.
    change (r ∈ ({[1%nat]} ∪ ∅ : gset nat)) in Hr.
    apply elem_of_union in Hr as [Hr|Hr]; [|apply elem_of_empty in Hr; contradiction].
    apply elem_of_singleton in Hr. subst r.
    exists (NewClient "c-1"). split; [reflexivity|]. split; [reflexivity|].
    unfold sendCapacity. simpl. lia.
Defined.
End HubProps.

(** ** Client frames (client.go) *)

Section ClientProps.
Import websocket.

Lemma sendFrame_reply st ref x c :
  heap st !! ref = Some c ->
  Client.sendClosed c = false ->
  exists st',
    sendFrame st ref x = Done st'
    /\ hub st' = hub st
    /\ (forall r, r <> ref -> heap st' !! r = heap st !! r)
    /\ heap st' !! ref
       = Some (if (length (Client.send c) <? sendCapacity)%nat then pushed c x else c).
Proof.
  intros Hc Hopen. unfold sendFrame. rewrite Hc, (trySend_open _ _ Hopen).
  destruct (length (Client.send c) <? sendCapacity)%nat.
  - eexists. split; [reflexivity|]. split; [reflexivity|]. simpl. split.
    + intros r Hr. apply lookup_insert_ne. congruence.
    + apply lookup_insert_eq.
  - exists st. auto.
Qed.

Lemma sm_Subscribe_other sm client channel other channel' :
  other <> client ->
  IsSubscribed (sm_Subscribe sm client channel) other channel' = IsSubscribed sm other channel'.
Proof.
  intros Hne. apply eq_true_iff_eq. rewrite !IsSubscribed_related.
  unfold sm_Subscribe. simpl. rewrite related_add. tauto.
Qed.

Lemma sm_Unsubscribe_other sm client channel other channel' :
  other <> client ->
  IsSubscribed (sm_Unsubscribe sm client channel) other channel' = IsSubscribed sm other channel'.
Proof.
  intros Hne. apply eq_true_iff_eq. rewrite !IsSubscribed_related, sm_Unsubscribe_dropped.
  simpl. rewrite related_dropped. tauto.
Qed.

(** X9: whatever frame a connected client sends (not JSON, no action, an
    unknown action, a subscription request with or without a channel, a
    ping), the handler completes and answers with one frame queued for that
    client, dropped when its queue is full.  No other client's queue or
    subscriptions change, and neither do the registered clients nor the
    Hub's channels. *)
Theorem handleMessage_answers_sender_only st ref message c :
  heap st !! ref = Some c ->
  Client.sendClosed c = false ->
  exists st' reply,
    handleMessage st ref message = Done st'
    /\ clients (hub st') = clients (hub st)
    /\ register (hub st') = register (hub st)
    /\ unregister (hub st') = unregister (hub st)
    /\ broadcast (hub st') = broadcast (hub st)
    /\ (forall r, r <> ref -> heap st' !! r = heap st !! r)
    /\ heap st' !! ref
       = Some (if (length (Client.send c) <? sendCapacity)%nat then pushed c reply else c)
    /\ (forall other channel, other <> ref ->
          IsSubscribed (subscriptionManager (hub st')) other channel
          = IsSubscribed (subscriptionManager (hub st)) other channel).
Proof.
  intros Hc Hopen.
  assert (Hplain : forall x, exists st' reply,
    sendFrame st ref x = Done st'
    /\ clients (hub st') = clients (hub st)
    /\ register (hub st') = register (hub st)
    /\ unregister (hub st') = unregister (hub st)
    /\ broadcast (hub st') = broadcast (hub st)
    /\ (forall r, r <> ref -> heap st' !! r = heap st !! r)
    /\ heap st' !! ref
       = Some (if (length (Client.send c) <? sendCapacity)%nat then pushed c reply else c)
    /\ (forall other channel, other <> ref ->
          IsSubscribed (subscriptionManager (hub st')) other channel
          = IsSubscribed (subscriptionManager (hub st)) other channel)).
  { intros x. destruct (sendFrame_reply st ref x c Hc Hopen) as (st' & Hrun & Hhub & Ho & Hq).
    exists st', x. rewrite Hhub. auto 10. }
  assert (Hsubs : forall sm x,
    (forall other channel, other <> ref ->
       IsSubscribed sm other channel
       = IsSubscribed (subscriptionManager (hub st)) other channel) ->
    exists st' reply,
    sendFrame (withSubscriptions st sm) ref x = Done st'
    /\ clients (hub st') = clients (hub st)
    /\ register (hub st') = register (hub st)
    /\ unregister (hub st') = unregister (hub st)
    /\ broadcast (hub st') = broadcast (hub st)
    /\ (forall r, r <> ref -> heap st' !! r = heap st !! r)
    /\ heap st' !! ref
       = Some (if (length (Client.send c) <? sendCapacity)%nat then pushed c reply else c)
    /\ (forall other channel, other <> ref ->
          IsSubscribed (subscriptionManager (hub st')) other channel
          = IsSubscribed (subscriptionManager (hub st)) other channel)).
  { intros sm x Hsm.
    destruct (sendFrame_reply (withSubscriptions st sm) ref x c Hc Hopen)
      as (st' & Hrun & Hhub & Ho & Hq).
    exists st', x. rewrite Hhub. simpl. auto 10. }
  unfold handleMessage. destruct message as [msg|]; [|apply Hplain].
  destruct (asString msg "action") as [action|]; [|apply Hplain].
  destruct (String.eqb action "subscribe").
  { unfold handleSubscribe. destruct (asString msg "channel"); [|apply Hplain].
    apply Hsubs. intros other channel Hne. apply sm_Subscribe_other, Hne. }
  destruct (String.eqb action "unsubscribe").
  { unfold handleUnsubscribe. destruct (asString msg "channel"); [|apply Hplain].
    apply Hsubs. intros other channel Hne. apply sm_Unsubscribe_other, Hne. }
  destruct (String.eqb action "ping"); apply Hplain.
Qed.

Lemma handleMessage_answers_sender_only_witness :
  exists st' reply,
    handleMessage MoreExamples.oneListener 2%nat (subscribeFrame "ticker" "BTCUSDT") = Done st'
    /\ clients (hub st') = clients (hub MoreExamples.oneListener)
    /\ register (hub st') = register (hub MoreExamples.oneListener)
    /\ unregister (hub st') = unregister (hub MoreExamples.oneListener)
    /\ broadcast (hub st') = broadcast (hub MoreExamples.oneListener)
    /\ (forall r, r <> 2%nat -> heap st' !! r = heap MoreExamples.oneListener !! r)
    /\ heap st' !! 2%nat
       = Some (if (length (Client.send (NewClient "c-2")) <? sendCapacity)%nat
               then pushed (NewClient "c-2") reply else NewClient "c-2")
    /\ (forall other channel, other <> 2%nat ->
          IsSubscribed (subscriptionManager (hub st')) other channel
          = IsSubscribed (subscriptionManager (hub MoreExamples.oneListener)) other channel).
Proof.
  apply (handleMessage_answers_sender_only MoreExamples.oneListener 2%nat
           (subscribeFrame "ticker" "BTCUSDT") (NewClient "c-2")); reflexivity.
Defined.
End ClientProps.

(** ** The Redis bridge (hub.go, Broadcaster) *)

Section BridgeProps.
Import websocket.

Lemma prefix_append p s : String.prefix p (String.append p s) = true.
Proof.
  induction p as [|a p IH]; simpl; [destruct s; reflexivity|].
  destruct (Ascii.ascii_dec a a); [exact IH|contradiction].
Qed.

Lemma substring_all s : String.substring 0 (String.length s) s = s.
Proof. induction s as [|a s IH]; simpl; [reflexivity|]. rewrite IH. reflexivity. Qed.

Lemma length_append p s :
  String.length (String.append p s) = (String.length p + String.length s)%nat.
Proof. induction p as [|a p IH]; simpl; [reflexivity|]. rewrite IH. reflexivity. Qed.

Lemma substring_skip p s n :
  String.substring (String.length p) n (String.append p s) = String.substring 0 n s.
Proof. induction p as [|a p IH]; simpl; [reflexivity|exact IH]. Qed.

Lemma TrimPrefix_append p s : TrimPrefix (String.append p s) p = s.
Proof.
  unfold TrimPrefix. rewrite prefix_append, substring_skip, length_append.
  replace (String.length p + String.length s - String.length p)%nat with (String.length s)
    by lia.
  apply substring_all.
Qed.

Lemma bridge_routes st symbol data :
  symbol <> "" ->
  handleRedisMessage st (BroadcastTicker_channel symbol) (Some data)
    = Hub_Broadcast st (buildChannelName "ticker" symbol) data
  /\ handleRedisMessage st (BroadcastDepth_channel symbol) (Some data)
    = Hub_Broadcast st (buildChannelName "depth" symbol) data
  /\ handleRedisMessage st (BroadcastTrade_channel symbol) (Some data)
    = Hub_Broadcast st (buildChannelName "trade" symbol) data.
Proof.
  intros Hne. unfold handleRedisMessage, BroadcastTicker_channel, BroadcastDepth_channel,
    BroadcastTrade_channel, buildChannelName.
  rewrite !TrimPrefix_append.
  destruct (String.eqb_spec symbol "") as [->|_]; [contradiction|].
  repeat split.
Qed.

(** X10: the Redis channel [BroadcastTicker], [BroadcastDepth] and
    [BroadcastTrade] publish on for a symbol is handed to the Hub under the
    very channel name a client subscribes with when it asks for that kind
    and that symbol, as long as the symbol is not empty. *)
Theorem bridge_channel_is_subscription_channel st symbol data :
  symbol <> "" ->
  handleRedisMessage st (BroadcastTicker_channel symbol) (Some data)
    = Hub_Broadcast st (buildChannelName "ticker" symbol) data
  /\ handleRedisMessage st (BroadcastDepth_channel symbol) (Some data)
    = Hub_Broadcast st (buildChannelName "depth" symbol) data
  /\ handleRedisMessage st (BroadcastTrade_channel symbol) (Some data)
    = Hub_Broadcast st (buildChannelName "trade" symbol) data.
Proof. apply bridge_routes. Qed.

Lemma bridge_channel_is_subscription_channel_witness :
  handleRedisMessage MoreExamples.oneListener (BroadcastTicker_channel "BTCUSDT") (Some "{}")
    = Hub_Broadcast MoreExamples.oneListener (buildChannelName "ticker" "BTCUSDT") "{}"
  /\ handleRedisMessage MoreExamples.oneListener (BroadcastDepth_channel "BTCUSDT") (Some "{}")
    = Hub_Broadcast MoreExamples.oneListener (buildChannelName "depth" "BTCUSDT") "{}"
  /\ handleRedisMessage MoreExamples.oneListener (BroadcastTrade_channel "BTCUSDT") (Some "{}")
    = Hub_Broadcast MoreExamples.oneListener (buildChannelName "trade" "BTCUSDT") "{}".
Proof.
  apply (bridge_channel_is_subscription_channel MoreExamples.oneListener "BTCUSDT" "{}").
  discriminate.
Defined.

(** X11: from subscription to delivery.  A connected client asks for the
    ticker of a symbol; a ticker for that symbol is then published through
    [BroadcastTicker] and picked up by the bridge; the Hub's next broadcast
    step queues it for the client, right behind the "subscribed" reply. *)
Theorem subscribed_client_receives_ticker range st ref c symbol data :
  symbol <> "" ->
  (forall s, NoDup (range s) /\ forall r, r ∈ range s <-> r ∈ s) ->
  heap st !! ref = Some c ->
  Client.sendClosed c = false ->
  (length (Client.send c) + 1 < sendCapacity)%nat ->
  broadcast (hub st) = [] ->
  (forall r, r ∈ GetSubscribers (subscriptionManager (hub st)) (buildChannelName "ticker" symbol) ->
     exists c', heap st !! r = Some c' /\ Client.sendClosed c' = false
                /\ (length (Client.send c') + 1 < sendCapacity)%nat) ->
  exists st1 st2 st3,
    handleMessage st ref (subscribeFrame "ticker" symbol) = Done st1
    /\ handleRedisMessage st1 (BroadcastTicker_channel symbol) (Some data) = Done st2
    /\ Run_broadcast range st2 = Done st3
    /\ queueOf st3 ref
       = Client.send c ++ [Response "subscribed" (Some ("ticker", symbol));
                           Update (buildChannelName "ticker" symbol) data].
Proof.
  intros Hsym Hrange Hc Hopen Hroom Hbc Hsubs.
  set (full := buildChannelName "ticker" symbol).
  set (reply := Response "subscribed" (Some ("ticker", symbol))).
  set (st1 := withClient (Hub_Subscribe st ref full) ref (pushed c reply)).
  assert (H1 : handleMessage st ref (subscribeFrame "ticker" symbol) = Done st1).
  { unfold handleMessage, subscribeFrame.
    change (asString _ "action") with (Some "subscribe"). simpl String.eqb. cbv iota.
    unfold handleSubscribe.
    change (asString _ "channel") with (Some "ticker").
    change (asString _ "symbol") with (Some symbol). simpl default.
    unfold sendResponse, sendFrame.
    change (heap (Hub_Subscribe st ref (buildChannelName "ticker" symbol)) !! ref)
      with (heap st !! ref).
    rewrite Hc, (trySend_open _ _ Hopen).
    assert (Hlt : (length (Client.send c) <? sendCapacity)%nat = true)
      by (apply Nat.ltb_lt; lia).
    rewrite Hlt. reflexivity. }
  set (message := mkBroadcastMessage full data).
  set (st2 := withHub st1 (mkHub (clients (hub st1)) (register (hub st1)) (unregister (hub st1))
                                 [message] (subscriptionManager (hub st1)))).
  assert (H2 : handleRedisMessage st1 (BroadcastTicker_channel symbol) (Some data) = Done st2).
  { destruct (bridge_routes st1 symbol data Hsym) as (-> & _).
    unfold Hub_Broadcast. unfold st1 at 1. simpl. rewrite Hbc. reflexivity. }
  set (st2' := withHub st2 (mkHub (clients (hub st2)) (register (hub st2)) (unregister (hub st2))
                                  [] (subscriptionManager (hub st2)))).
  destruct (broadcastToChannel_room range st2' message Hrange) as (st3 & H3 & _ & Hheap).
  { intros r Hr. simpl in Hr.
    apply GetSubscribers_related in Hr. unfold sm_Subscribe in Hr. simpl in Hr.
    apply related_add in Hr.
    destruct (decide (r = ref)) as [->|Hne].
    - exists (pushed c reply). simpl. rewrite lookup_insert_eq. split; [reflexivity|].
      split; [reflexivity|]. rewrite length_app. simpl. lia.
    - destruct Hr as [Hr|[_ ->]]; [|contradiction].
      apply GetSubscribers_related in Hr.
      destruct (Hsubs r Hr) as (c' & Hc' & Ho' & Hr').
      exists c'. simpl. rewrite lookup_insert_ne by congruence.
      split; [exact Hc'|]. split; [exact Ho'|]. lia. }
  exists st1, st2, st3. split; [exact H1|]. split; [exact H2|]. split; [exact H3|].
  unfold queueOf. rewrite Hheap.
  destruct (decide _) as [_|Hn].
  - simpl. rewrite lookup_insert_eq. simpl. rewrite <- app_assoc. reflexivity.
  - exfalso. apply Hn. simpl. apply GetSubscribers_related.
    unfold sm_Subscribe. simpl. apply related_add. right. split; reflexivity.
Qed.

Lemma subscribed_client_receives_ticker_witness :
  exists st1 st2 st3,
    handleMessage MoreExamples.oneListener 2%nat (subscribeFrame "ticker" "BTCUSDT") = Done st1
    /\ handleRedisMessage st1 (BroadcastTicker_channel "BTCUSDT") (Some "{}") = Done st2
    /\ Run_broadcast elements st2 = Done st3
    /\ queueOf st3 2%nat
       = Client.send (NewClient "c-2")
         ++ [Response "subscribed" (Some ("ticker", "BTCUSDT"));
             Update (buildChannelName "ticker" "BTCUSDT") "{}"].
Proof.
  apply (subscribed_client_receives_ticker elements MoreExamples.oneListener 2%nat
           (NewClient "c-2") "BTCUSDT" "{}").
  - discriminate.
  - intros s. split; [apply NoDup_elements|]. intros r. apply elem_of_elements.
  - reflexivity.
  - reflexivity.
  - unfold sendCapacity. simpl. lia.
  - reflexivity.
  - intros r Hr.
    change (r ∈ ({[1%nat]} ∪ ∅ : gset nat)) in Hr.
    apply elem_of_union in Hr as [Hr|Hr]; [|apply elem_of_empty in Hr; contradiction].
    apply elem_of_singleton in Hr. subst r.
    exists (NewClient "c-1"). split; [reflexivity|]. split; [reflexivity|].
    unfold sendCapacity. simpl. lia.
Defined.
End BridgeProps.

(** ** The merger's caches (merger.go) *)

Section CacheProps.
Import constants merger.

Lemma ring_bound (trade : Trade.t) trades :
  (length trades <= 100)%nat ->
  (length (if (100 <? Z.of_nat (length (trade :: trades)))%Z
           then take 100 (trade :: trades) else trade :: trades) <= 100)%nat.
Proof.
  intros Hle. destruct (100 <? Z.of_nat (length (trade :: trades))) eqn:E.
  - rewrite length_take. lia.
  - apply Z.ltb_ge in E. lia.
Qed.

Lemma cacheData_ring m data w :
  tradesWithinRing m -> tradesWithinRing (fst (cacheData m data w)).
Proof.
  intros Hm. unfold cacheData. timed. unfold time_Now_UnixMilli. simpl.
  set (symbol := MarketData.Symbol data).
  assert (Hi : (length (CachedData.Trades
                          (default emptyCachedData (internalData m !! symbol))) <= 100)%nat).
  { destruct (internalData m !! symbol) as [c|] eqn:E; simpl; [|lia].
    apply (Hm symbol). left. exact E. }
  assert (He : (length (CachedData.Trades
                          (default emptyCachedData (externalData m !! symbol))) <= 100)%nat).
  { destruct (externalData m !! symbol) as [c|] eqn:E; simpl; [|lia].
    apply (Hm symbol). right. exact E. }
  assert (Hcache : forall cache : CachedData.t,
    (length (CachedData.Trades cache) <= 100)%nat ->
    (length (CachedData.Trades
       (if String.eqb (MarketData.Type_ data) DataTypeTicker then
          match MarketData.Data data with
          | PTicker ticker =>
              CachedData.mk (Some ticker) (CachedData.Depth cache)
                            (CachedData.Trades cache) (CachedData.Timestamp cache)
          | _ => cache
          end
        else if String.eqb (MarketData.Type_ data) DataTypeDepth then
          match MarketData.Data data with
          | PDepth depth =>
              CachedData.mk (CachedData.Ticker cache) (Some depth)
                            (CachedData.Trades cache) (CachedData.Timestamp cache)
          | _ => cache
          end
        else if String.eqb (MarketData.Type_ data) DataTypeTrade then
          match MarketData.Data data with
          | PTrade trade =>
              let trades := trade :: CachedData.Trades cache in
              let trades := if (100 <? Z.of_nat (length trades))%Z then take 100 trades
                            else trades in
              CachedData.mk (CachedData.Ticker cache) (CachedData.Depth cache)
                            trades (CachedData.Timestamp cache)
          | _ => cache
          end
        else cache)) <= 100)%nat).
  { intros cache Hc.
    destruct (String.eqb _ DataTypeTicker); [destruct (MarketData.Data data); exact Hc|].
    destruct (String.eqb _ DataTypeDepth); [destruct (MarketData.Data data); exact Hc|].
    destruct (String.eqb _ DataTypeTrade); [|exact Hc].
    destruct (MarketData.Data data); try exact Hc.
    cbv zeta. cbn [CachedData.Trades]. apply ring_bound, Hc. }
  intros sym c Hl.
  destruct (String.eqb (MarketData.Source data) SourceInternal); simpl in Hl.
  - destruct Hl as [Hl|Hl]; [|apply (Hm sym); right; exact Hl].
    destruct (decide (sym = symbol)) as [->|Hne].
    + fold symbol in Hl. rewrite lookup_insert_eq in Hl. injection Hl as <-.
      simpl. apply Hcache, Hi.
    + fold symbol in Hl. rewrite lookup_insert_ne in Hl by congruence.
      apply (Hm sym). left. exact Hl.
  - destruct Hl as [Hl|Hl]; [apply (Hm sym); left; exact Hl|].
    destruct (decide (sym = symbol)) as [->|Hne].
    + fold symbol in Hl. rewrite lookup_insert_eq in Hl. injection Hl as <-.
      simpl. apply Hcache, He.
    + fold symbol in Hl. rewrite lookup_insert_ne in Hl by congruence.
      apply (Hm sym). right. exact Hl.
Qed.

Lemma ProcessData_state m data w :
  snd (fst (ProcessData m data w)) = m
  \/ snd (fst (ProcessData m data w)) = fst (cacheData m data w).
Proof.
  unfold ProcessData. destruct (symbolConfigs m !! MarketData.Symbol data) as [config|];
    [|left; reflexivity].
  destruct (String.eqb _ ModeInternalOnly).
  { destruct (String.eqb _ SourceInternal); left; reflexivity. }
  destruct (String.eqb _ ModeExternalOnly).
  { destruct (String.eqb _ SourceExternal); left; reflexivity. }
  destruct (String.eqb _ ModeHybrid); [|left; reflexivity].
  right. apply mergeData_state.
Qed.

Lemma processAll_invariant (P : DataMerger -> Prop) :
  (forall m data w, P m -> P (fst (cacheData m data w))) ->
  forall records m w, P m -> P (fst (processAll m records w)).
Proof.
  intros Hstep. unfold processAll.
  induction records as [|data records IH]; intros m w Hm; simpl; [exact Hm|].
  destruct (ProcessData m data w) as [[out m'] w'] eqn:E.
  apply IH.
  destruct (ProcessData_state m data w) as [H|H]; rewrite E in H; simpl in H; subst m'.
  - exact Hm.
  - apply Hstep, Hm.
Qed.

(** X12: whatever records the merger is given, in whatever mode, no cached
    side ever holds more than 100 trades, and the table of symbol
    configurations stays the one the merger was created with. *)
Theorem merger_trade_ring_bounded configs records w :
  tradesWithinRing (fst (processAll (NewDataMerger configs) records w))
  /\ symbolConfigs (fst (processAll (NewDataMerger configs) records w))
     = symbolConfigs (NewDataMerger configs).
Proof.
  split.
  - apply (processAll_invariant tradesWithinRing).
    + intros m data w0. apply cacheData_ring.
    + intros symbol c [H|H]; simpl in H; rewrite lookup_empty in H; discriminate.
  - apply (processAll_invariant
             (fun m => symbolConfigs m = symbolConfigs (NewDataMerger configs))).
    + intros m data w0 Hm. rewrite cacheData_configs. exact Hm.
    + reflexivity.
Qed.

(** Outside HYBRID mode [ProcessData] does not read the clock and leaves
    both caches as they are. *)
Lemma ProcessData_not_hybrid m data w :
  (forall config, symbolConfigs m !! MarketData.Symbol data = Some config ->
                  SymbolConfig.Mode config <> ModeHybrid) ->
  exists out,
    ProcessData m data w = (out, m, w) /\ (out = Some data \/ out = None).
Proof.
  intros Hmode. unfold ProcessData.
  destruct (symbolConfigs m !! MarketData.Symbol data) as [config|];
    [|exists (Some data); auto].
  specialize (Hmode config eq_refl).
  destruct (String.eqb _ ModeInternalOnly).
  { destruct (String.eqb _ SourceInternal); eexists; (split; [reflexivity|]); auto. }
  destruct (String.eqb _ ModeExternalOnly).
  { destruct (String.eqb _ SourceExternal); eexists; (split; [reflexivity|]); auto. }
  destruct (String.eqb_spec (SymbolConfig.Mode config) ModeHybrid); [contradiction|].
  exists (Some data). auto.
Qed.

Lemma foldl_configs s : forall (configs : list SymbolConfig.t) (m0 : gmap string SymbolConfig.t),
  foldl (fun m config => <[SymbolConfig.Symbol config := config]> m) m0 configs !! s
  = match last (filter (fun c => SymbolConfig.Symbol c = s) configs) with
    | Some c => Some c
    | None => m0 !! s
    end.
Proof.
  induction configs as [|c configs IH]; intros m0; simpl; [reflexivity|].
  rewrite IH, filter_cons. destruct (decide (SymbolConfig.Symbol c = s)) as [Heq|Hne].
  - rewrite last_cons. destruct (last _); [reflexivity|].
    rewrite Heq. apply lookup_insert_eq.
  - destruct (last _); [reflexivity|]. apply lookup_insert_ne. exact Hne.
Qed.

Lemma NewDataMerger_lookup configs symbol :
  symbolConfigs (NewDataMerger configs) !! symbol
  = last (filter (fun c => SymbolConfig.Symbol c = symbol) configs).
Proof.
  unfold NewDataMerger. simpl. rewrite foldl_configs.
  destruct (last _); [reflexivity|]. apply lookup_empty.
Qed.

(** X14: [NewDataMerger] keeps, for each symbol, the last configuration
    listed for it, whether that one is enabled or not; a symbol that no
    listed configuration names has none. *)
Theorem NewDataMerger_last_config_wins configs symbol :
  symbolConfigs (NewDataMerger configs) !! symbol
  = last (filter (fun c => SymbolConfig.Symbol c = symbol) configs).
Proof. apply NewDataMerger_lookup. Qed.

(** X13: only HYBRID mode caches.  A merger none of whose configurations
    is in HYBRID mode stays as it was created, with empty caches, whatever
    records it is handed, and never reads the clock. *)
Theorem merger_without_hybrid_is_stateless configs records w :
  Forall (fun c => SymbolConfig.Mode c <> ModeHybrid) configs ->
  processAll (NewDataMerger configs) records w = (NewDataMerger configs, w).
Proof.
  intros Hall. unfold processAll.
  induction records as [|data records IH]; simpl; [reflexivity|].
  destruct (ProcessData_not_hybrid (NewDataMerger configs) data w) as (out & Hrun & _).
  - intros config Hc. rewrite NewDataMerger_lookup in Hc.
    apply last_Some in Hc as (l' & Hl').
    assert (Hin : config ∈ filter (fun c => SymbolConfig.Symbol c = MarketData.Symbol data)
                                  configs).
    { rewrite Hl'. apply elem_of_app. right. left. }
    apply list_elem_of_filter in Hin as [_ Hin].
    rewrite Forall_forall in Hall. apply Hall, Hin.
  - rewrite Hrun. exact IH.
Qed.

Lemma merger_without_hybrid_is_stateless_witness :
  processAll
    (NewDataMerger [SymbolConfig.mk "BTCUSDT" ModeExternalOnly "internal" "binance"
                                    MergeStrategyPriority true ""])
    [Examples.internalTrade; Examples.externalTicker] Examples.steadyClock
  = (NewDataMerger [SymbolConfig.mk "BTCUSDT" ModeExternalOnly "internal" "binance"
                                    MergeStrategyPriority true ""],
     Examples.steadyClock).
Proof.
  apply (merger_without_hybrid_is_stateless
           [SymbolConfig.mk "BTCUSDT" ModeExternalOnly "internal" "binance"
                            MergeStrategyPriority true ""]
           [Examples.internalTrade; Examples.externalTicker] Examples.steadyClock).
  repeat constructor. discriminate.
Defined.
End CacheProps.

(** ** Merged order books (merger.go) *)

Section MergedDepthProps.
Import constants merger.

Lemma bidLess_asym a b : bidLess a b = true -> bidLess b a = false.
Proof. unfold bidLess, f64_gtb. apply f64_ltb_asym. Qed.

Lemma askLess_asym a b : askLess a b = true -> askLess b a = false.
Proof. unfold askLess. apply f64_ltb_asym. Qed.

Lemma Sorted_take {A} (R : A -> A -> Prop) n : forall l, Sorted R l -> Sorted R (take n l).
Proof.
  induction n as [|n IH]; intros l Hl; [destruct l; constructor|].
  destruct l as [|x l]; [constructor|]. simpl.
  apply Sorted_inv in Hl as [Hl Hhd]. constructor; [apply IH, Hl|].
  destruct l as [|y l]; [destruct n; constructor|].
  destruct n; simpl; [constructor|]. constructor. inversion Hhd. assumption.
Qed.

Lemma len_capped {A} (l : list A) :
  len (if 100 <? len l then take 100 l else l) = Z.min 100 (len l).
Proof.
  unfold len. destruct (100 <? Z.of_nat (length l)) eqn:E.
  - apply Z.ltb_lt in E. rewrite length_take. lia.
  - apply Z.ltb_ge in E. lia.
Qed.

Lemma Sorted_capped {A} (R : A -> A -> Prop) (l : list A) :
  Sorted R l -> Sorted R (if 100 <? len l then take 100 l else l).
Proof. intros Hl. destruct (100 <? len l); [apply Sorted_take, Hl|exact Hl]. Qed.

Lemma len_Slice {A} (less : A -> A -> bool) l : len (sort.Slice less l) = len l.
Proof. unfold len. rewrite Slice_length. reflexivity. Qed.

Lemma len_app {A} (l1 l2 : list A) : len (l1 ++ l2) = len l1 + len l2.
Proof. unfold len. rewrite length_app. lia. Qed.

Lemma tagged_numbers source l :
  pricesAreNumbers l -> taggedPricesAreNumbers (tagged source l).
Proof.
  unfold pricesAreNumbers, taggedPricesAreNumbers, tagged. intros H.
  apply Forall_map. exact H.
Qed.

Lemma tagged_union_numbers l1 l2 :
  pricesAreNumbers (l1 ++ l2) ->
  taggedPricesAreNumbers (tagged SourceInternal l1 ++ tagged SourceExternal l2).
Proof.
  unfold pricesAreNumbers. intros H. apply Forall_app in H as [H1 H2].
  apply Forall_app. split; apply tagged_numbers; assumption.
Qed.

Lemma tagged_sorted_bids l :
  taggedPricesAreNumbers l -> taggedBidsDescending (sort.Slice bidLess l).
Proof.
  intros Hn. unfold taggedBidsDescending.
  eapply Sorted_weaken
    with (P := fun x => PrimFloat.is_nan (PriceLevelWithSource.Price x) = false);
    [| |apply Slice_Sorted, bidLess_asym].
  - intros a b Ha Hb Hab. unfold sort.inOrder, bidLess, f64_gtb, f64_geb in *.
    apply f64_not_lt_ge; assumption.
  - unfold taggedPricesAreNumbers in Hn. rewrite (Slice_Permutation _ l). exact Hn.
Qed.

Lemma tagged_sorted_asks l :
  taggedPricesAreNumbers l -> taggedAsksAscending (sort.Slice askLess l).
Proof.
  intros Hn. unfold taggedAsksAscending.
  eapply Sorted_weaken
    with (P := fun x => PrimFloat.is_nan (PriceLevelWithSource.Price x) = false);
    [| |apply Slice_Sorted, askLess_asym].
  - intros a b Ha Hb Hab. unfold sort.inOrder, askLess in *.
    apply f64_not_lt_ge; assumption.
  - unfold taggedPricesAreNumbers in Hn. rewrite (Slice_Permutation _ l). exact Hn.
Qed.

(** X15: the book [mergeDepthPriority] returns, against the two cached
    books.  A side contributes its cached book when the book is there and
    the side's timestamp is less than 5000 ms old at the reading its guard
    takes, and nothing otherwise.  Each side of the merged book is the
    first 100 of a rearrangement of the levels so contributed, each level
    tagged with its source; when the prices are numbers the rearrangement is
    in price order (best first), so that the cut keeps the best 100.  The
    four counters are the sizes of the contributions before the cut. *)
Theorem mergeDepthPriority_book internal external symbol w :
  let bi := freshDepthAt internal (nextReading w) in
  let be := freshDepthAt external (readingAfter (depthGuardReads internal) w) in
  exists ob bids asks,
    fst (mergeDepthPriority internal external symbol w) = Some ob
    /\ OrderBookWithSource.Symbol ob = symbol
    /\ Permutation bids (tagged SourceInternal (bidsOf bi) ++ tagged SourceExternal (bidsOf be))
    /\ Permutation asks (tagged SourceInternal (asksOf bi) ++ tagged SourceExternal (asksOf be))
    /\ OrderBookWithSource.Bids ob = take 100 bids
    /\ OrderBookWithSource.Asks ob = take 100 asks
    /\ (pricesAreNumbers (bidsOf bi ++ bidsOf be) -> taggedBidsDescending bids)
    /\ (pricesAreNumbers (asksOf bi ++ asksOf be) -> taggedAsksAscending asks)
    /\ OrderBookWithSource.InternalBidsCount ob = len (bidsOf bi)
    /\ OrderBookWithSource.ExternalBidsCount ob = len (bidsOf be)
    /\ OrderBookWithSource.InternalAsksCount ob = len (asksOf bi)
    /\ OrderBookWithSource.ExternalAsksCount ob = len (asksOf be).
Proof.
  cbv zeta.
  destruct (mergeDepthPriority_run internal external symbol w) as [now Hrun].
  cbv zeta in Hrun. rewrite Hrun.
  eexists. eexists. eexists. split; [reflexivity|].
  cbn [OrderBookWithSource.Symbol OrderBookWithSource.Bids OrderBookWithSource.Asks
       OrderBookWithSource.InternalBidsCount OrderBookWithSource.ExternalBidsCount
       OrderBookWithSource.InternalAsksCount OrderBookWithSource.ExternalAsksCount].
  split; [reflexivity|].
  split; [apply Slice_Permutation|]. split; [apply Slice_Permutation|].
  split; [reflexivity|]. split; [reflexivity|].
  split; [intros Hn; apply tagged_sorted_bids, tagged_union_numbers, Hn|].
  split; [intros Hn; apply tagged_sorted_asks, tagged_union_numbers, Hn|].
  repeat split.
Qed.

Lemma mergeDepthPriority_book_witness :
  let w := mkWorld (fun _ => Examples.t0 + 100) 0 in
  exists ob bids,
    fst (mergeDepthPriority (Some Examples.internalS2) (Some Examples.externalS2)
           "BTCUSDT" w) = Some ob
    /\ Permutation bids [PriceLevelWithSource.mk 44999 1.5 "internal";
                         PriceLevelWithSource.mk 44998 2 "external"]
    /\ OrderBookWithSource.Bids ob = take 100 bids
    /\ taggedBidsDescending bids
    /\ OrderBookWithSource.InternalBidsCount ob = 1
    /\ OrderBookWithSource.ExternalBidsCount ob = 1.
Proof.
  intros w.
  destruct (mergeDepthPriority_book (Some Examples.internalS2) (Some Examples.externalS2)
              "BTCUSDT" (mkWorld (fun _ => Examples.t0 + 100) 0))
    as (ob & bids & asks & Hout & _ & Hb & _ & Hbids & _ & Hsorted & _ & Hi & He & _).
  exists ob, bids. split; [exact Hout|]. split; [exact Hb|]. split; [exact Hbids|].
  split; [|split; [exact Hi|exact He]].
  apply Hsorted. repeat constructor.
Defined.

(** X16: the book [mergeDepthSupplement] returns, against the two cached
    books.  The internal side contributes its cached book when fresh.  The
    external side is asked separately for the bids and for the asks, each
    time only if the internal side contributes less than 20 levels there,
    and each time with a clock reading of its own; it then contributes that
    side of its cached book when fresh.  Each side of the merged book is a
    rearrangement of all the levels so contributed, tagged with their
    source and never cut, in price order when the prices are numbers; the
    counters are the sizes of the contributions. *)
Theorem mergeDepthSupplement_book internal external symbol w :
  let bi := freshDepthAt internal (nextReading w) in
  let k1 := depthGuardReads internal in
  let forBids := len (bidsOf bi) <? 20 in
  let be := if forBids then freshDepthAt external (readingAfter k1 w) else None in
  let k2 := (k1 + if forBids then depthGuardReads external else 0)%nat in
  let forAsks := len (asksOf bi) <? 20 in
  let ae := if forAsks then freshDepthAt external (readingAfter k2 w) else None in
  exists ob,
    fst (mergeDepthSupplement internal external symbol w) = Some ob
    /\ OrderBookWithSource.Symbol ob = symbol
    /\ Permutation (OrderBookWithSource.Bids ob)
         (tagged SourceInternal (bidsOf bi) ++ tagged SourceExternal (bidsOf be))
    /\ Permutation (OrderBookWithSource.Asks ob)
         (tagged SourceInternal (asksOf bi) ++ tagged SourceExternal (asksOf ae))
    /\ (pricesAreNumbers (bidsOf bi ++ bidsOf be) ->
        taggedBidsDescending (OrderBookWithSource.Bids ob))
    /\ (pricesAreNumbers (asksOf bi ++ asksOf ae) ->
        taggedAsksAscending (OrderBookWithSource.Asks ob))
    /\ OrderBookWithSource.InternalBidsCount ob = len (bidsOf bi)
    /\ OrderBookWithSource.ExternalBidsCount ob = len (bidsOf be)
    /\ OrderBookWithSource.InternalAsksCount ob = len (asksOf bi)
    /\ OrderBookWithSource.ExternalAsksCount ob = len (asksOf ae).
Proof.
  cbv zeta.
  destruct (mergeDepthSupplement_run internal external symbol w) as [now Hrun].
  cbv zeta in Hrun. rewrite Hrun.
  eexists. split; [reflexivity|].
  cbn [OrderBookWithSource.Symbol OrderBookWithSource.Bids OrderBookWithSource.Asks
       OrderBookWithSource.InternalBidsCount OrderBookWithSource.ExternalBidsCount
       OrderBookWithSource.InternalAsksCount OrderBookWithSource.ExternalAsksCount].
  split; [reflexivity|].
  split; [apply Slice_Permutation|]. split; [apply Slice_Permutation|].
  split; [intros Hn; apply tagged_sorted_bids, tagged_union_numbers, Hn|].
  split; [intros Hn; apply tagged_sorted_asks, tagged_union_numbers, Hn|].
  repeat split.
Qed.

Lemma mergeDepthSupplement_book_witness :
  let w := mkWorld (fun _ => Examples.t0 + 100) 0 in
  exists ob,
    fst (mergeDepthSupplement (Some Examples.internalS2) (Some Examples.externalS2)
           "BTCUSDT" w) = Some ob
    /\ Permutation (OrderBookWithSource.Bids ob)
         [PriceLevelWithSource.mk 44999 1.5 "internal";
          PriceLevelWithSource.mk 44998 2 "external"]
    /\ taggedBidsDescending (OrderBookWithSource.Bids ob)
    /\ OrderBookWithSource.InternalBidsCount ob = 1
    /\ OrderBookWithSource.ExternalBidsCount ob = 1.
Proof.
  intros w.
  destruct (mergeDepthSupplement_book (Some Examples.internalS2) (Some Examples.externalS2)
              "BTCUSDT" (mkWorld (fun _ => Examples.t0 + 100) 0))
    as (ob & Hout & _ & Hb & _ & Hsorted & _ & Hi & He & _).
  exists ob. split; [exact Hout|]. split; [exact Hb|].
  split; [|split; [exact Hi|exact He]].
  apply Hsorted. repeat constructor.
Defined.
End MergedDepthProps.

(** ** The store (redis.go) and the candle handler (kline.go) *)

Section StoreProps.
Import constants storage.
Context {enc : utils.JSONEncoder}.

Lemma request_issued cmds s : issued (snd (request cmds s)) = S (issued s).
Proof. unfold request. destruct (fails s (issued s)); reflexivity. Qed.

(** A save returns an error only from its first step, the encoding or the
    write: by then it has made at most one request, and published
    nothing. *)
Lemma save_error_silent call s e :
  fst (save call s) = Some e ->
  publishedOn (executed (snd (save call s))) = publishedOn (executed s)
  /\ (issued (snd (save call s)) <= S (issued s))%nat.
Proof.
  destruct call as [kline|ticker|depth|trade]; simpl.
  - unfold SaveKline. destruct (utils.ToJSON (PKline kline)); [|split; [reflexivity|simpl; lia]].
    match goal with |- context [request ?c s] =>
      pose proof (request_silent c s eq_refl) as Hp; pose proof (request_issued c s) as Hi;
      destruct (request c s) as [[|] s1] end;
      simpl in *; [discriminate|]. intros _. split; [exact Hp|lia].
  - unfold SaveTicker.
    match goal with |- context [request ?c s] =>
      pose proof (request_silent c s eq_refl) as Hp; pose proof (request_issued c s) as Hi;
      destruct (request c s) as [[|] s1] end;
      simpl in *.
    + destruct (request _ s1) as [? s2]. destruct (request _ s2) as [? s3]. discriminate.
    + intros _. split; [exact Hp|lia].
  - unfold SaveDepth. destruct (utils.ToJSON (PDepth depth)); [|split; [reflexivity|simpl; lia]].
    match goal with |- context [request ?c s] =>
      pose proof (request_silent c s eq_refl) as Hp; pose proof (request_issued c s) as Hi;
      destruct (request c s) as [[|] s1] end;
      simpl in *.
    + destruct (request _ s1) as [? s2]. discriminate.
    + intros _. split; [exact Hp|lia].
  - unfold SaveTrade. destruct (utils.ToJSON (PTrade trade)); [|split; [reflexivity|simpl; lia]].
    match goal with |- context [request ?c s] =>
      pose proof (request_silent c s eq_refl) as Hp; pose proof (request_issued c s) as Hi;
      destruct (request c s) as [[|] s1] end;
      simpl in *.
    + destruct (request _ s1) as [? s2]. discriminate.
    + intros _. split; [exact Hp|lia].
Qed.

(** [SaveKline] publishes nothing. *)
Lemma SaveKline_silent kline s :
  publishedOn (executed (snd (SaveKline kline s))) = publishedOn (executed s).
Proof.
  unfold SaveKline. destruct (utils.ToJSON (PKline kline)) as [data|]; [|reflexivity].
  match goal with |- context [request ?c s] =>
    pose proof (request_silent c s eq_refl) as Hp; destruct (request c s) as [ok s1] end.
  simpl in Hp. destruct ok; exact Hp.
Qed.
End StoreProps.

(** X17: a save that returns an error has published nothing.  The error
    comes from the encoding or from the first request, the write, which may
    have reached the server in part or in whole; the save stops there, so
    that no [Publish] is issued for a record whose write was reported as
    failed.  This holds for klines, tickers, depth snapshots and trades
    alike, whatever the server did with the failed request. *)
Theorem failed_save_publishes_nothing {enc : utils.JSONEncoder} call s e :
  fst (save call s) = Some e ->
  publishedOn (storage.executed (snd (save call s))) = publishedOn (storage.executed s)
  /\ (storage.issued (snd (save call s)) <= S (storage.issued s))%nat.
Proof. apply save_error_silent. Qed.

Lemma failed_save_publishes_nothing_witness :
  let after := snd (save (CallSaveTrade Examples.tradeBTC) MoreExamples.redisRepliesLost) in
  storage.executed after = [storage.LPush "trade:BTCUSDT" "{}"]
  /\ publishedOn (storage.executed after) = []
  /\ (storage.issued after <= 1)%nat.
Proof.
  intros after. split; [reflexivity|].
  apply (failed_save_publishes_nothing (CallSaveTrade Examples.tradeBTC)
           MoreExamples.redisRepliesLost "failed to save trade to redis").
  reflexivity.
Defined.

Section CandleStoreProps.
Import handler.
Context {enc : utils.JSONEncoder} (Local : time.Location).

Lemma AddTrade_silent a trade (s : storage.RedisStorage) :
  publishedOn (storage.executed (snd (AddTrade Local a trade s)))
  = publishedOn (storage.executed s).
Proof.
  unfold AddTrade, saveKline.
  destruct (KlineAggregator.currentKline a) as [k|]; [|reflexivity].
  destruct (negb _); simpl; [apply SaveKline_silent|reflexivity].
Qed.

Lemma HandleTrade_fold_silent trade :
  forall (list_ : list string) (h : KlineHandler) (s : storage.RedisStorage),
  publishedOn (storage.executed (snd
    (foldl (A := KlineHandler * storage.RedisStorage) (fun '(h, s) interval =>
              let key := String.append (Trade.Symbol trade) (String.append ":" interval) in
              let aggregator :=
                default (NewKlineAggregator (Trade.Symbol trade) interval) (h !! key) in
              let '(_, aggregator, s) := AddTrade Local aggregator trade s in
              (<[key := aggregator]> h, s))
           (h, s) list_)))
  = publishedOn (storage.executed s).
Proof.
  induction list_ as [|interval rest IH]; intros h s; simpl; [reflexivity|].
  match goal with |- context [AddTrade Local ?a trade s] =>
    pose proof (AddTrade_silent a trade s) as Hs;
    destruct (AddTrade Local a trade s) as [[err a'] s'] end.
  simpl in Hs. rewrite IH. exact Hs.
Qed.

(** X18: the candle handler never publishes.  Whatever candles a trade
    closes and saves, in any of the six intervals, no [Publish] command is
    issued: the channels published on after [HandleTrade] are those
    published on before it. *)
Theorem HandleTrade_never_publishes (h : KlineHandler) trade (s : storage.RedisStorage) :
  publishedOn (storage.executed (snd (HandleTrade Local h trade s)))
  = publishedOn (storage.executed s).
Proof.
  unfold HandleTrade.
  pose proof (HandleTrade_fold_silent trade intervals h s) as H.
  destruct (foldl _ (h, s) intervals) as [h' s']. exact H.
Qed.
End CandleStoreProps.

(** ** Candle periods (time.go) *)

Section PeriodProps.
Import time utils.

Lemma same_window P c o o' t' :
  0 < P -> (o + c) mod P = 0 -> (o' + c) mod P = 0 ->
  o' <= t' < o' + P ->
  (o <= t' < o + P <-> o' = o).
Proof.
  intros HP Ho Ho' Ht'.
  apply Z.mod_divide in Ho, Ho'; try lia.
  destruct Ho as [k Hk], Ho' as [k' Hk'].
  split; [|intros <-; exact Ht'].
  intros Ht. assert (k' = k) by nia. subst k'. lia.
Qed.

(** X19: in a zone with a constant offset the candles of a maintained
    interval partition time, away from the int64 limits.  A timestamp lies
    between the open and the close time of the candle of [t] exactly when
    it has the same open time, which is exactly when [IsNewKline] does not
    report a new candle. *)
Theorem candle_periods_partition off t t' interval :
  In interval handler.intervals ->
  withinInt64 t interval ->
  withinInt64 t' interval ->
  let open := GetKlineOpenTime (FixedZone off) t interval in
  let close := GetKlineCloseTime (FixedZone off) open interval in
  (open <= t' <= close <-> GetKlineOpenTime (FixedZone off) t' interval = open)
  /\ (open <= t' <= close <-> IsNewKline (FixedZone off) open t' interval = false).
Proof.
  intros Hin Hrange Hrange' open close.
  assert (Hiff : open <= t' <= close <-> GetKlineOpenTime (FixedZone off) t' interval = open).
  { pose proof (open_time_fixed_zone off t interval Hin Hrange) as [Hwin Hmod].
    pose proof (open_time_fixed_zone off t' interval Hin Hrange') as [Hwin' Hmod'].
    fold open in Hwin, Hmod.
    subst close. rewrite close_is_open_plus_period;
      [|exact Hin|unfold withinInt64 in Hrange; lia].
    assert (HP : 0 < periodMs interval).
    { clear - Hin. revert interval Hin.
      apply (maintained_cases (fun i => 0 < periodMs i)); reflexivity. }
    pose proof (same_window (periodMs interval) (off * 1000) open
                  (GetKlineOpenTime (FixedZone off) t' interval) t' HP Hmod Hmod' Hwin') as H.
    rewrite <- H. lia. }
  split; [exact Hiff|].
  rewrite Hiff. unfold IsNewKline. rewrite negb_false_iff, Z.eqb_eq. tauto.
Qed.

Lemma candle_periods_partition_witness :
  let open := GetKlineOpenTime (FixedZone 28800) Examples.lateEvening "15m" in
  let close := GetKlineCloseTime (FixedZone 28800) open "15m" in
  (open <= Examples.lateEvening + 1 <= close
   <-> GetKlineOpenTime (FixedZone 28800) (Examples.lateEvening + 1) "15m" = open)
  /\ (open <= Examples.lateEvening + 1 <= close
      <-> IsNewKline (FixedZone 28800) open (Examples.lateEvening + 1) "15m" = false).
Proof.
  apply (candle_periods_partition 28800 Examples.lateEvening (Examples.lateEvening + 1) "15m").
  - vm_compute. tauto.
  - unfold withinInt64, int64_min, int64_max, Examples.lateEvening.
    change (periodMs "15m") with 900000. lia.
  - unfold withinInt64, int64_min, int64_max, Examples.lateEvening.
    change (periodMs "15m") with 900000. lia.
Defined.
End PeriodProps.

(** ** The order of float64 values *)

Lemma SFleb_trans x y z : SFleb x y = true -> SFleb y z = true -> SFleb x z = true.
Proof.
  pose (key := fun f : spec_float =>
    match f with
    | S754_zero _ => (0, 0, 0)
    | S754_infinity s => (if s then -2 else 2, 0, 0)
    | S754_nan => (0, 0, 0)
    | S754_finite s m e => if s then (-1, - e, - Z.pos m) else (1, e, Z.pos m)
    end).
  pose (le := fun a b : Z * Z * Z =>
    fst (fst a) < fst (fst b)
    \/ (fst (fst a) = fst (fst b)
        /\ (snd (fst a) < snd (fst b)
            \/ (snd (fst a) = snd (fst b) /\ snd a <= snd b)))).
  assert (Hkey : forall a b, SFleb a b = true <->
                             a <> S754_nan /\ b <> S754_nan /\ le (key a) (key b)).
  { intros a b. unfold SFleb, SFcompare, le, key.
    destruct a as [sa|sa| |sa ma ea], b as [sb|sb| |sb mb eb];
      try destruct sa; try destruct sb; simpl;
      try (split; [intros _; repeat split; try discriminate; lia|reflexivity]);
      try (split; [discriminate|intros (H1 & H2 & H3); try congruence; lia]).
    all: change (Pos.compare_cont Eq ma mb) with (Pos.compare ma mb).
    all: destruct (Z.compare_spec ea eb); destruct (Pos.compare_spec ma mb); simpl;
      (split; [try discriminate; intros _; repeat split; try discriminate; lia
              |intros (H1 & H2 & H3); try reflexivity; lia]). }
  intros Hxy Hyz. apply Hkey in Hxy as (Hx & Hy & Hxy), Hyz as (_ & Hz & Hyz).
  apply Hkey. split; [exact Hx|]. split; [exact Hz|].
  unfold le in *. lia.
Qed.

Lemma SFleb_refl x : x <> S754_nan -> SFleb x x = true.
Proof.
  intros Hx. unfold SFleb, SFcompare.
  destruct x as [s|s| |s m e]; try destruct s; simpl; try reflexivity; try contradiction;
    rewrite Z.compare_refl, Pos.compare_cont_refl; reflexivity.
Qed.

Lemma f64_leb_trans a b c : f64_leb a b = true -> f64_leb b c = true -> f64_leb a c = true.
Proof. unfold f64_leb. rewrite !FloatAxioms.leb_spec. apply SFleb_trans. Qed.

Lemma f64_leb_refl a : PrimFloat.is_nan a = false -> f64_leb a a = true.
Proof.
  intros Ha. unfold f64_leb. rewrite FloatAxioms.leb_spec.
  apply SFleb_refl, f64_is_nan_SF, Ha.
Qed.

Lemma f64_leb_numbers a b :
  f64_leb a b = true -> PrimFloat.is_nan a = false /\ PrimFloat.is_nan b = false.
Proof.
  unfold f64_leb, PrimFloat.is_nan. rewrite FloatAxioms.leb_spec, !FloatAxioms.eqb_spec.
  unfold SFleb, SFeqb. intros H.
  destruct (Prim2SF a) as [sa|sa| |sa ma ea] eqn:Ea, (Prim2SF b) as [sb|sb| |sb mb eb] eqn:Eb;
    try discriminate; split;
    try (destruct sa; reflexivity); try (destruct sb; reflexivity);
    simpl; try destruct sa; try destruct sb;
    rewrite ?Z.compare_refl, ?Pos.compare_cont_refl; reflexivity.
Qed.

Lemma f64_ltb_leb a b : PrimFloat.ltb a b = true -> f64_leb a b = true.
Proof.
  unfold f64_leb. rewrite FloatAxioms.ltb_spec, FloatAxioms.leb_spec. unfold SFltb, SFleb.
  destruct (SFcompare _ _) as [[| |]|]; congruence.
Qed.

(** ** Best prices (depth.go) *)

Section BestPriceProps.
Import handler.
Context {S : Type} {store : StorageInterface S}.

(** The head of a sorted rearrangement bounds every element. *)
Lemma head_bounds {A} (R : A -> A -> Prop) (given sorted : list A) :
  (forall a b c, R a b -> R b c -> R a c) ->
  (forall x, In x given -> R x x) ->
  Sorted R sorted -> Permutation sorted given ->
  match head sorted with
  | Some best => In best given /\ Forall (R best) given
  | None => given = []
  end.
Proof.
  intros Htrans Hrefl Hs Hp. destruct sorted as [|best rest]; simpl.
  - apply Permutation_nil. exact Hp.
  - split; [apply (Permutation_in _ Hp); left; reflexivity|].
    apply Sorted_StronglySorted in Hs; [|exact Htrans].
    apply StronglySorted_inv in Hs as [_ Hall].
    apply (Permutation_Forall Hp). constructor; [|exact Hall].
    apply Hrefl, (Permutation_in _ Hp). left. reflexivity.
Qed.

(** X20: after an update with numeric prices, [GetBestBid] is a level of
    the incoming book that no incoming bid is priced above, and
    [GetBestAsk] one that no incoming ask is priced below; each is absent
    exactly when the incoming side is empty. *)
Theorem best_prices_after_update m depth s :
  pricesAreNumbers (OrderBook.Bids depth) ->
  pricesAreNumbers (OrderBook.Asks depth) ->
  let m' := snd (fst (UpdateDepth m depth s)) in
  match GetBestBid m' with
  | Some best =>
      In best (OrderBook.Bids depth)
      /\ Forall (fun level => f64_leb (PriceLevel.Price level) (PriceLevel.Price best) = true)
                (OrderBook.Bids depth)
  | None => OrderBook.Bids depth = []
  end
  /\ match GetBestAsk m' with
     | Some best =>
         In best (OrderBook.Asks depth)
         /\ Forall (fun level => f64_leb (PriceLevel.Price best) (PriceLevel.Price level) = true)
                   (OrderBook.Asks depth)
     | None => OrderBook.Asks depth = []
     end.
Proof.
  intros Hb Ha m'. subst m'. rewrite UpdateDepth_manager.
  unfold GetBestBid, GetBestAsk, sortDepth. simpl. split.
  - apply (head_bounds
             (fun best level => f64_leb (PriceLevel.Price level) (PriceLevel.Price best) = true)).
    + intros a b c Hab Hbc. eapply f64_leb_trans; eassumption.
    + intros x Hx. apply f64_leb_refl.
      unfold pricesAreNumbers in Hb. rewrite List.Forall_forall in Hb. apply Hb, Hx.
    + apply sorted_bids, Hb.
    + apply Slice_Permutation.
  - apply (head_bounds
             (fun best level => f64_leb (PriceLevel.Price best) (PriceLevel.Price level) = true)).
    + intros a b c Hab Hbc. eapply f64_leb_trans; eassumption.
    + intros x Hx. apply f64_leb_refl.
      unfold pricesAreNumbers in Ha. rewrite List.Forall_forall in Ha. apply Ha, Hx.
    + apply sorted_asks, Ha.
    + apply Slice_Permutation.
Qed.
End BestPriceProps.

Lemma best_prices_after_update_witness :
  let m' := snd (fst (handler.UpdateDepth (handler.NewDepthManager "BTCUSDT")
                        Examples.shuffledBook Examples.reliableRedis)) in
  match handler.GetBestBid m' with
  | Some best =>
      In best (OrderBook.Bids Examples.shuffledBook)
      /\ Forall (fun level => f64_leb (PriceLevel.Price level) (PriceLevel.Price best) = true)
                (OrderBook.Bids Examples.shuffledBook)
  | None => OrderBook.Bids Examples.shuffledBook = []
  end
  /\ match handler.GetBestAsk m' with
     | Some best =>
         In best (OrderBook.Asks Examples.shuffledBook)
         /\ Forall (fun level => f64_leb (PriceLevel.Price best) (PriceLevel.Price level) = true)
                   (OrderBook.Asks Examples.shuffledBook)
     | None => OrderBook.Asks Examples.shuffledBook = []
     end.
Proof.
  apply (best_prices_after_update (handler.NewDepthManager "BTCUSDT")
           Examples.shuffledBook Examples.reliableRedis); repeat constructor.
Defined.

(** ** The shape of candles (kline.go) *)

Section CandleShapeProps.
Import handler.
Context {S : Type} {store : StorageInterface S} (Local : time.Location).

Lemma updateKline_well_formed k trade :
  PrimFloat.is_nan (Trade.Price trade) = false ->
  candleWellFormed k -> candleWellFormed (updateKline k trade).
Proof.
  intros Hp (HLO & HOH & HLC & HCH & Hn).
  destruct (f64_leb_numbers _ _ HLO) as [HL _].
  destruct (f64_leb_numbers _ _ HOH) as [_ HH].
  unfold candleWellFormed, updateKline. simpl. unfold f64_gtb.
  repeat split.
  - destruct (PrimFloat.ltb (Trade.Price trade) (Kline.Low k)) eqn:E; [|exact HLO].
    eapply f64_leb_trans; [apply f64_ltb_leb, E|exact HLO].
  - destruct (PrimFloat.ltb (Kline.High k) (Trade.Price trade)) eqn:E; [|exact HOH].
    eapply f64_leb_trans; [exact HOH|apply f64_ltb_leb, E].
  - destruct (PrimFloat.ltb (Trade.Price trade) (Kline.Low k)) eqn:E.
    + apply f64_leb_refl, Hp.
    + apply f64_not_lt_ge; assumption.
  - destruct (PrimFloat.ltb (Kline.High k) (Trade.Price trade)) eqn:E.
    + apply f64_leb_refl, Hp.
    + apply f64_not_lt_ge; assumption.
  - lia.
Qed.

Lemma newKline_well_formed a openTime trade :
  PrimFloat.is_nan (Trade.Price trade) = false ->
  candleWellFormed (updateKline (newKline Local a openTime trade) trade).
Proof.
  intros Hp.
  destruct (updateKline_newKline Local a openTime trade) as (HO & HH & HL & HC & _ & HN & _).
  unfold candleWellFormed. rewrite HO, HH, HL, HC, HN.
  repeat split; try apply f64_leb_refl, Hp. lia.
Qed.

Lemma AddTrade_candle symbol interval a trade s :
  PrimFloat.is_nan (Trade.Price trade) = false ->
  aggregatorSteady symbol interval a ->
  let a' := snd (fst (AddTrade Local a trade s)) in
  aggregatorSteady symbol interval a'
  /\ exists k, KlineAggregator.currentKline a' = Some k
       /\ Kline.Close k = Trade.Price trade
       /\ Kline.OpenTime k = utils.GetKlineOpenTime Local (Trade.Timestamp trade) interval.
Proof.
  intros Hp (Hsym & Hint & Hk). cbv zeta. unfold AddTrade.
  destruct (KlineAggregator.currentKline a) as [k|] eqn:E.
  - destruct (Hk k eq_refl) as (Hwf & Hks & Hki).
    destruct (Z.eqb_spec (Kline.OpenTime k)
                (utils.GetKlineOpenTime Local (Trade.Timestamp trade)
                   (KlineAggregator.interval a))) as [Heq|Hne]; simpl.
    + rewrite E. simpl. split.
      * split; [exact Hsym|]. split; [exact Hint|]. intros k' [= <-].
        split; [apply updateKline_well_formed; assumption|]. auto.
      * eexists. split; [reflexivity|]. simpl. rewrite Heq, Hint. auto.
    + split.
      * split; [exact Hsym|]. split; [exact Hint|]. intros k' [= <-].
        split; [apply newKline_well_formed, Hp|]. simpl. auto.
      * eexists. split; [reflexivity|]. simpl. rewrite Hint. auto.
  - simpl. split.
    + split; [exact Hsym|]. split; [exact Hint|]. intros k' [= <-].
      split; [apply newKline_well_formed, Hp|]. simpl. auto.
    + eexists. split; [reflexivity|]. simpl. rewrite Hint. auto.
Qed.

Lemma feedTrades_aggregatorSteady symbol interval trades : forall a s,
  Forall (fun t => PrimFloat.is_nan (Trade.Price t) = false) trades ->
  aggregatorSteady symbol interval a ->
  aggregatorSteady symbol interval (fst (feedTrades Local a trades s)).
Proof.
  induction trades as [|t trades IH]; intros a s Hall Ha; [exact Ha|].
  rewrite feedTrades_cons. inversion Hall as [|? ? Ht Hrest]; subst.
  apply IH; [exact Hrest|]. apply AddTrade_candle; assumption.
Qed.

Lemma feedTrades_snoc a trades trade s :
  feedTrades Local a (trades ++ [trade]) s
  = (let '(a', s') := feedTrades Local a trades s in
     let '(_, a'', s'') := AddTrade Local a' trade s' in (a'', s'')).
Proof.
  unfold feedTrades. rewrite foldl_app. simpl.
  destruct (foldl _ (a, s) trades) as [a' s']. reflexivity.
Qed.

Lemma feedTrades_candle symbol interval trades trade s :
  Forall (fun t => PrimFloat.is_nan (Trade.Price t) = false) (trades ++ [trade]) ->
  exists k,
    KlineAggregator.currentKline
      (fst (feedTrades Local (NewKlineAggregator symbol interval) (trades ++ [trade]) s))
    = Some k
    /\ candleWellFormed k
    /\ Kline.Close k = Trade.Price trade
    /\ Kline.OpenTime k = utils.GetKlineOpenTime Local (Trade.Timestamp trade) interval
    /\ Kline.Symbol k = symbol
    /\ Kline.Interval k = interval.
Proof.
  intros Hall. apply Forall_app in Hall as [Hrest Hlast].
  inversion Hlast as [|? ? Hp _]; subst.
  rewrite feedTrades_snoc.
  pose proof (feedTrades_aggregatorSteady symbol interval trades (NewKlineAggregator symbol interval) s
                Hrest) as Hst.
  destruct (feedTrades Local (NewKlineAggregator symbol interval) trades s) as [a' s'].
  simpl in Hst.
  assert (Hnew : aggregatorSteady symbol interval (NewKlineAggregator symbol interval)).
  { split; [reflexivity|]. split; [reflexivity|]. intros k [=]. }
  specialize (Hst Hnew).
  destruct (AddTrade_candle symbol interval a' trade s' Hp Hst) as ((_ & _ & Hk) & k & Hc & HC & HO).
  destruct (AddTrade Local a' trade s') as [[e a''] s'']. simpl in *.
  exists k. destruct (Hk k Hc) as (Hwf & Hs & Hi). auto 10.
Qed.

(** X21: after any run of trades with numeric prices, fed to a new
    aggregator, the open candle is the candle of the last trade's period,
    carries the aggregator's symbol and interval, closes at the last
    trade's price, counts at least one trade, and has its low at or below
    and its high at or above both its open and its close. *)
Theorem open_candle_well_formed symbol interval trades trade s :
  Forall (fun t => PrimFloat.is_nan (Trade.Price t) = false) (trades ++ [trade]) ->
  exists k,
    KlineAggregator.currentKline
      (fst (feedTrades Local (NewKlineAggregator symbol interval) (trades ++ [trade]) s))
    = Some k
    /\ candleWellFormed k
    /\ Kline.Close k = Trade.Price trade
    /\ Kline.OpenTime k = utils.GetKlineOpenTime Local (Trade.Timestamp trade) interval
    /\ Kline.Symbol k = symbol
    /\ Kline.Interval k = interval.
Proof. apply feedTrades_candle. Qed.
End CandleShapeProps.

Lemma open_candle_well_formed_witness :
  exists k,
    handler.KlineAggregator.currentKline
      (fst (feedTrades time.UTC (handler.NewKlineAggregator "BTCUSDT" "1m")
              ([Examples.tradeS1; Examples.tradeS1_same] ++ [Examples.tradeS1_next])
              Examples.reliableRedis))
    = Some k
    /\ candleWellFormed k
    /\ Kline.Close k = Trade.Price Examples.tradeS1_next
    /\ Kline.OpenTime k
       = utils.GetKlineOpenTime time.UTC (Trade.Timestamp Examples.tradeS1_next) "1m"
    /\ Kline.Symbol k = "BTCUSDT"
    /\ Kline.Interval k = "1m".
Proof.
  apply (open_candle_well_formed time.UTC "BTCUSDT" "1m"
           [Examples.tradeS1; Examples.tradeS1_same] Examples.tradeS1_next
           Examples.reliableRedis).
  repeat constructor.
Defined.

(** ** The OKX adapter *)

Section OkxProps.
Import okx strings Stdlib.Strings.Ascii.

Lemma substring_halves : forall s n,
  (n <= String.length s)%nat ->
  String.append (String.substring 0 n s) (String.substring n (String.length s - n) s) = s.
Proof.
  induction s as [|c s IH]; intros n Hn.
  - destruct n; [reflexivity|simpl in Hn; lia].
  - destruct n as [|n].
    + simpl. rewrite substring_all. reflexivity.
    + change (String c (String.append (String.substring 0 n s)
                          (String.substring n (String.length s - n) s)) = String c s).
      f_equal. apply IH. simpl in Hn. lia.
Qed.

Lemma HasSuffix_split s suffix :
  HasSuffix s suffix = true -> s = String.append (TrimSuffix s suffix) suffix.
Proof.
  intros H. unfold TrimSuffix. rewrite H. unfold HasSuffix in H.
  apply andb_true_iff in H as [Hlen Heq].
  apply Nat.leb_le in Hlen. apply String.eqb_eq in Heq.
  rewrite <- (substring_halves s (String.length s - String.length suffix)) at 1 by lia.
  replace (String.length s - (String.length s - String.length suffix))%nat
    with (String.length suffix) by lia.
  rewrite Heq. reflexivity.
Qed.

Lemma ReplaceAll_append a b c :
  ReplaceAll_byte_empty (String.append a b) c
  = String.append (ReplaceAll_byte_empty a c) (ReplaceAll_byte_empty b c).
Proof.
  induction a as [|x a IH]; simpl; [reflexivity|].
  destruct (Ascii.eqb x c); simpl; rewrite IH; reflexivity.
Qed.

Lemma ReplaceAll_absent s c : hasByte c s = false -> ReplaceAll_byte_empty s c = s.
Proof.
  induction s as [|x s IH]; simpl; [reflexivity|].
  intros H. apply orb_false_iff in H as [Hx Hs]. rewrite Hx, IH by exact Hs. reflexivity.
Qed.

Lemma hasByte_append c a b : hasByte c (String.append a b) = hasByte c a || hasByte c b.
Proof.
  induction a as [|x a IH]; simpl; [reflexivity|]. rewrite IH. apply orb_assoc.
Qed.

Lemma parseSymbol_formatSymbol symbol :
  hasByte "-"%char symbol = false -> parseSymbol (formatSymbol symbol) = symbol.
Proof.
  intros Hno. unfold parseSymbol, formatSymbol.
  destruct (HasSuffix symbol "USDT") eqn:E; [|apply ReplaceAll_absent, Hno].
  rewrite ReplaceAll_append.
  change (ReplaceAll_byte_empty "-USDT" "-"%char)
    with (ReplaceAll_byte_empty "USDT" "-"%char).
  rewrite <- ReplaceAll_append, <- (HasSuffix_split _ _ E).
  apply ReplaceAll_absent, Hno.
Qed.

(** X22: OKX symbols round-trip.  For a symbol without a hyphen, the
    instrument id [formatSymbol] sends to OKX (BTC-USDT for BTCUSDT, the
    symbol itself when it does not end in USDT) is mapped back to the
    symbol by [parseSymbol]. *)
Theorem okx_symbol_round_trip symbol :
  hasByte "-"%char symbol = false -> parseSymbol (formatSymbol symbol) = symbol.
Proof. apply parseSymbol_formatSymbol. Qed.

Lemma okx_symbol_round_trip_witness :
  formatSymbol "BTCUSDT" = "BTC-USDT" /\ parseSymbol (formatSymbol "BTCUSDT") = "BTCUSDT".
Proof.
  split; [reflexivity|]. apply (okx_symbol_round_trip "BTCUSDT"). reflexivity.
Defined.

Lemma Split_absent sep s : hasByte sep s = false -> Split_byte s sep = [s].
Proof.
  induction s as [|x s IH]; simpl; [reflexivity|].
  intros H. apply orb_false_iff in H as [Hx Hs]. rewrite Hx, IH by exact Hs. reflexivity.
Qed.

Lemma Split_first sep a b :
  hasByte sep a = false ->
  Split_byte (String.append a (String sep b)) sep = a :: Split_byte b sep.
Proof.
  induction a as [|x a IH]; simpl.
  - intros _. rewrite Ascii.eqb_refl. reflexivity.
  - intros H. apply orb_false_iff in H as [Hx Ha]. rewrite Hx, IH by exact Ha. reflexivity.
Qed.

Lemma resubscribeArgs_fold subs : forall acc,
  foldl (fun args sub =>
           match Split_byte sub ":"%char with
           | [channel; instId] => args ++ [(channel, instId)]
           | _ => args
           end) acc subs
  = acc ++ resubscribeArgs subs.
Proof.
  unfold resubscribeArgs.
  induction subs as [|sub subs IH]; intros acc; simpl; [symmetry; apply app_nil_r|].
  rewrite IH. rewrite (IH (match Split_byte sub _ with [channel; instId] => _ | _ => _ end)).
  destruct (Split_byte sub _) as [|a [|b [|c l]]]; simpl; rewrite <- ?app_assoc; reflexivity.
Qed.

Lemma resubscribeArgs_app a b :
  resubscribeArgs (a ++ b) = resubscribeArgs a ++ resubscribeArgs b.
Proof. unfold resubscribeArgs at 1. rewrite foldl_app. apply resubscribeArgs_fold. Qed.

Lemma okxChannel_plain channel c : okxChannel channel = Some c -> hasByte ":"%char c = false.
Proof.
  unfold okxChannel.
  repeat (destruct (String.eqb channel _); [intros [= <-]; reflexivity|]). discriminate.
Qed.

Lemma formatSymbol_plain symbol :
  hasByte ":"%char symbol = false -> hasByte ":"%char (formatSymbol symbol) = false.
Proof.
  intros H. unfold formatSymbol. destruct (HasSuffix symbol "USDT") eqn:E; [|exact H].
  rewrite (HasSuffix_split _ _ E), hasByte_append in H.
  apply orb_false_iff in H as [Hb _]. rewrite hasByte_append, Hb. reflexivity.
Qed.

(** What [Subscribe] saves decodes to what it sends. *)
Lemma subscribeArgs_saved symbols channels :
  Forall (fun s => hasByte ":"%char s = false) symbols ->
  resubscribeArgs (snd (subscribeArgs symbols channels)) = fst (subscribeArgs symbols channels).
Proof.
  intros Hall. unfold subscribeArgs.
  assert (Hgen : forall acc : list (string * string) * list string,
    resubscribeArgs (snd acc) = fst acc ->
    resubscribeArgs (snd
      (foldl (fun '(args, subscriptions) symbol =>
                let instId := formatSymbol symbol in
                foldl (fun '(args, subscriptions) channel =>
                         match okxChannel channel with
                         | Some okxChannel =>
                             (args ++ [(okxChannel, instId)],
                              subscriptions
                                ++ [String.append okxChannel (String.append ":" instId)])
                         | None => (args, subscriptions)
                         end)
                      (args, subscriptions) channels)
             acc symbols))
    = fst
      (foldl (fun '(args, subscriptions) symbol =>
                let instId := formatSymbol symbol in
                foldl (fun '(args, subscriptions) channel =>
                         match okxChannel channel with
                         | Some okxChannel =>
                             (args ++ [(okxChannel, instId)],
                              subscriptions
                                ++ [String.append okxChannel (String.append ":" instId)])
                         | None => (args, subscriptions)
                         end)
                      (args, subscriptions) channels)
             acc symbols)).
  { induction Hall as [|symbol symbols Hs _ IH]; intros acc Hacc; simpl; [exact Hacc|].
    apply IH. destruct acc as [args subs]. simpl in Hacc.
    clear IH. revert args subs Hacc.
    induction channels as [|channel channels IHc]; intros args subs Hacc; simpl; [exact Hacc|].
    destruct (okxChannel channel) as [c|] eqn:Ec; apply IHc; [|exact Hacc].
    rewrite resubscribeArgs_app, Hacc. f_equal.
    unfold resubscribeArgs. simpl.
    change ":"%char with ":"%char.
    change (String.append ":" (formatSymbol symbol)) with (String ":"%char (formatSymbol symbol)).
    rewrite (Split_first _ _ _ (okxChannel_plain _ _ Ec)).
    rewrite (Split_absent _ _ (formatSymbol_plain _ Hs)). reflexivity. }
  apply Hgen. reflexivity.
Qed.

Lemma Subscribe_saved o symbols channels net :
  Forall (fun s => hasByte ":"%char s = false) symbols ->
  resubscribeArgs (subscriptions o) = concat (map args (sent net)) ->
  resubscribeArgs (subscriptions (snd (fst (Subscribe o symbols channels net))))
  = concat (map args (sent (snd (Subscribe o symbols channels net)))).
Proof.
  intros Hs Hinv. unfold Subscribe. destruct (connected o); simpl; [|exact Hinv].
  pose proof (subscribeArgs_saved symbols channels Hs) as Hsaved.
  destruct (subscribeArgs symbols channels) as [args0 subs0]. simpl in Hsaved.
  unfold WriteJSON. destruct (writeSucceeds net (writes net)); simpl; [|exact Hinv].
  rewrite resubscribeArgs_app, map_app, concat_app, Hinv, Hsaved. simpl.
  rewrite app_nil_r. reflexivity.
Qed.

Lemma subscribeAll_saved calls : forall o net,
  Forall (fun call => Forall (fun s => hasByte ":"%char s = false) (fst call)) calls ->
  resubscribeArgs (subscriptions o) = concat (map args (sent net)) ->
  resubscribeArgs (subscriptions (fst (subscribeAll o calls net)))
  = concat (map args (sent (snd (subscribeAll o calls net)))).
Proof.
  unfold subscribeAll.
  induction calls as [|[symbols channels] calls IH]; intros o net Hall Hinv; simpl;
    [exact Hinv|].
  inversion Hall as [|? ? Hs Hrest]; subst. simpl in Hs.
  pose proof (Subscribe_saved o symbols channels net Hs Hinv) as Hstep.
  destruct (Subscribe o symbols channels net) as [[e o1] net1]. simpl in Hstep.
  apply IH; assumption.
Qed.

(** X23: what is saved is what is replayed.  After any run of [Subscribe]
    calls on a new adapter, for symbols without a colon, [resubscribe]
    sends nothing when nothing was saved, and otherwise writes one
    subscribe message whose arguments are those of all subscribe messages
    that went through, in order. *)
Theorem resubscribe_replays_subscriptions url calls net :
  Forall (fun call => Forall (fun s => hasByte ":"%char s = false) (fst call)) calls ->
  sent net = [] ->
  let start := Connect (NewOKXAdapter url) net in
  let run := subscribeAll (snd (fst start)) calls (snd start) in
  snd (resubscribe (fst run) (snd run))
  = match subscriptions (fst run) with
    | [] => snd run
    | _ :: _ =>
        snd (WriteJSON (mkSubscribeMessage "subscribe" (concat (map args (sent (snd run)))))
                       (snd run))
    end.
Proof.
  intros Hall Hsent start run.
  assert (Hinv : resubscribeArgs (subscriptions (fst run))
                 = concat (map args (sent (snd run)))).
  { subst run. apply subscribeAll_saved; [exact Hall|].
    subst start. unfold Connect, Dial. destruct (dialSucceeds net (dialed net)); simpl;
      rewrite Hsent; reflexivity. }
  unfold resubscribe. destruct (subscriptions (fst run)) as [|s0 rest] eqn:E; [reflexivity|].
  simpl length. simpl Nat.eqb. cbv iota. rewrite Hinv.
  destruct (WriteJSON _ (snd run)) as [[|] net'']; reflexivity.
Qed.

Lemma resubscribe_replays_subscriptions_witness :
  let net := mkNetwork (fun _ => true) 0 (fun _ => true) 0 [] [] in
  let start := Connect (NewOKXAdapter "") net in
  let run := subscribeAll (snd (fst start))
               [(["BTCUSDT"; "ETHUSDT"], ["ticker"; "depth"]); (["SOLUSDT"], ["trade"; "orders"])]
               (snd start) in
  sent (snd run)
  = [mkSubscribeMessage "subscribe"
       [("tickers", "BTC-USDT"); ("books5", "BTC-USDT");
        ("tickers", "ETH-USDT"); ("books5", "ETH-USDT")];
     mkSubscribeMessage "subscribe" [("trades", "SOL-USDT")]]
  /\ snd (resubscribe (fst run) (snd run))
     = match subscriptions (fst run) with
       | [] => snd run
       | _ :: _ =>
           snd (WriteJSON
                  (mkSubscribeMessage "subscribe" (concat (map args (sent (snd run)))))
                  (snd run))
       end.
Proof.
  split; [reflexivity|].
  apply (resubscribe_replays_subscriptions ""
           [(["BTCUSDT"; "ETHUSDT"], ["ticker"; "depth"]); (["SOLUSDT"], ["trade"; "orders"])]
           (mkNetwork (fun _ => true) 0 (fun _ => true) 0 [] [])).
  - repeat constructor.
  - reflexivity.
Defined.

Lemma reconnectLoop_step remaining delay o net :
  reconnectLoop (S remaining) delay o net
  = if dialSucceeds net (dialed net)
    then (reconnected o, snd (resubscribe (reconnected o) (afterAttempts net 1 [delay])))
    else reconnectLoop remaining (nextDelay (reconnectConf o) delay) o
                       (afterAttempts net 1 [delay]).
Proof.
  simpl. unfold Connect, Dial, Sleep. simpl.
  destruct (dialSucceeds net (dialed net)); reflexivity.
Qed.

Lemma afterAttempts_more net n pauses delay :
  afterAttempts (afterAttempts net n pauses) 1 [delay]
  = afterAttempts net (S n) (pauses ++ [delay]).
Proof. unfold afterAttempts. simpl. rewrite <- app_assoc. reflexivity. Qed.

Local Ltac attempt k Hnext :=
    rewrite reconnectLoop_step, afterAttempts_more;
    cbn [afterAttempts dialSucceeds dialed];
    let E := fresh "E" in
    destruct (dialSucceeds _ (k + dialed _)) eqn:E;
    [ exists (S k); split; [lia|]; split;
      [ intros j Hj; repeat (destruct j as [|j]; [assumption|]); lia
      | left; split; [exact E|reflexivity] ]
    | rewrite Hnext;
      match goal with
      | |- context [nextDelay ?c ?d] =>
          let v := eval vm_compute in (nextDelay c d) in
          change (nextDelay c d) with v
      end ].

(** X24: reconnection backs off and gives up.  With the configuration
    [NewOKXAdapter] sets, [handleReconnect] pauses 1, 2, 4, 8, 16, 32, 60,
    60, 60 and 60 seconds before its successive attempts.  It stops at the
    first attempt that connects, marks the adapter connected and replays
    the saved subscriptions; after ten failed attempts it gives up and
    leaves the adapter as it was. *)
Theorem handleReconnect_backs_off url o net :
  reconnectConf o = reconnectConf (NewOKXAdapter url) ->
  exists n : nat,
    (1 <= n <= 10)%nat
    /\ (forall k, (k < n - 1)%nat -> dialSucceeds net (k + dialed net) = false)
    /\ ((dialSucceeds net (n - 1 + dialed net) = true
         /\ handleReconnect o net
            = (reconnected o,
               snd (resubscribe (reconnected o)
                      (afterAttempts net n (take n backoffSchedule)))))
        \/ (n = 10%nat
            /\ dialSucceeds net (9 + dialed net) = false
            /\ handleReconnect o net = (o, afterAttempts net 10 backoffSchedule))).
Proof.
  intros Hconf. unfold handleReconnect. rewrite Hconf.
  change (Z.to_nat (MaxRetries (reconnectConf (NewOKXAdapter url)))) with 10%nat.
  change (InitialDelay (reconnectConf (NewOKXAdapter url))) with 1000000000.
  assert (Hnext : forall d, nextDelay (reconnectConf o) d
                            = nextDelay (reconnectConf (NewOKXAdapter url)) d)
    by (intros d; rewrite Hconf; reflexivity).
  assert (Hfirst : afterAttempts net 0 [] = net).
  { unfold afterAttempts. rewrite app_nil_r. destruct net; reflexivity. }
  replace (reconnectLoop 10 1000000000 o net)
    with (reconnectLoop 10 1000000000 o (afterAttempts net 0 []))
    by (rewrite Hfirst; reflexivity).
  attempt 0%nat Hnext. attempt 1%nat Hnext. attempt 2%nat Hnext. attempt 3%nat Hnext.
  attempt 4%nat Hnext. attempt 5%nat Hnext. attempt 6%nat Hnext. attempt 7%nat Hnext.
  attempt 8%nat Hnext.
  rewrite reconnectLoop_step, afterAttempts_more.
  cbn [afterAttempts dialSucceeds dialed].
  destruct (dialSucceeds _ (9 + dialed _)) eqn:E9.
  - exists 10%nat. split; [lia|]. split.
    + intros j Hj. repeat (destruct j as [|j]; [assumption|]). lia.
    + left. split; [exact E9|reflexivity].
  - exists 10%nat. split; [lia|]. split.
    + intros j Hj. repeat (destruct j as [|j]; [assumption|]). lia.
    + right. repeat split.
Qed.

Lemma handleReconnect_backs_off_witness :
  let o := NewOKXAdapter "" in
  let net := mkNetwork (fun n => (2 <=? n)%nat) 0 (fun _ => true) 0 [] [] in
  exists n : nat,
    (1 <= n <= 10)%nat
    /\ (forall k, (k < n - 1)%nat -> dialSucceeds net (k + dialed net) = false)
    /\ ((dialSucceeds net (n - 1 + dialed net) = true
         /\ handleReconnect o net
            = (reconnected o,
               snd (resubscribe (reconnected o)
                      (afterAttempts net n (take n backoffSchedule)))))
        \/ (n = 10%nat
            /\ dialSucceeds net (9 + dialed net) = false
            /\ handleReconnect o net = (o, afterAttempts net 10 backoffSchedule))).
Proof.
  apply (handleReconnect_backs_off ""
           (NewOKXAdapter "") (mkNetwork (fun n => (2 <=? n)%nat) 0 (fun _ => true) 0 [] [])).
  reflexivity.
Defined.
End OkxProps.

(** ** The depth endpoint (getdepthlogic.go) *)

Section ApiProps.
Import api.

Lemma copyLoop levels : forall n,
  (n <= length levels)%nat ->
  foldl (fun out i =>
           out ← out;
           level ← levels !! i;
           Some (out ++ [PriceLevel.mk (models_Price level) (models_Amount level)]))
        (Some []) (seq 0 n)
  = Some (map (fun level => PriceLevel.mk (models_Price level) (models_Amount level))
              (take n levels)).
Proof.
  induction n as [|n IH]; intros Hn; [reflexivity|].
  rewrite seq_S, foldl_app, IH by lia. simpl.
  destruct (lookup_lt_is_Some_2 levels n) as [level Hl]; [lia|].
  rewrite Hl. simpl. rewrite (take_S_r _ _ _ Hl), map_app. reflexivity.
Qed.

Lemma copyLevels_take limit levels :
  copyLevels limit levels
  = Some (map (fun level => PriceLevel.mk (models_Price level) (models_Amount level))
              (take (Z.to_nat limit) levels)).
Proof.
  unfold copyLevels, merger.len.
  destruct (Z.of_nat (length levels) <? limit) eqn:E.
  - apply Z.ltb_lt in E. rewrite copyLoop by lia.
    rewrite Nat2Z.id, !take_ge by lia. reflexivity.
  - apply Z.ltb_ge in E. apply copyLoop. lia.
Qed.

(** X25: the depth endpoint never reads past the stored book.  Whatever
    the limit (beyond the number of stored levels, zero, negative), when
    the stored text decodes, [GetDepth] answers with the first [limit]
    levels of each side in stored order (all of them when there are fewer,
    none when the limit is not positive), under the requested symbol. *)
Theorem GetDepth_serves_first_levels {dec : JSONDecoder} req redisGet data depth :
  redisGet (String.append constants.RedisKeyDepth (DepthRequest.Symbol req)) = Some data ->
  Unmarshal_OrderBook data = Some depth ->
  GetDepth req redisGet
  = Ok (DepthResponse.mk (DepthRequest.Symbol req)
          (map (fun level => PriceLevel.mk (models_Price level) (models_Amount level))
               (take (Z.to_nat (DepthRequest.Limit req)) (OrderBook.Bids depth)))
          (map (fun level => PriceLevel.mk (models_Price level) (models_Amount level))
               (take (Z.to_nat (DepthRequest.Limit req)) (OrderBook.Asks depth)))
          (OrderBook.Timestamp depth)).
Proof.
  intros Hget Hdec. unfold GetDepth. rewrite Hget, Hdec, !copyLevels_take. reflexivity.
Qed.

Lemma GetDepth_serves_first_levels_witness :
  GetDepth (dec := MoreExamples.readsShuffledBook) (DepthRequest.mk "BTCUSDT" 2)
           (fun _ => Some "{}")
  = Ok (DepthResponse.mk "BTCUSDT"
          [PriceLevel.mk 44998 2; PriceLevel.mk 44999 1.5]
          [PriceLevel.mk 45003 1; PriceLevel.mk 45001 0.5]
          Examples.t0).
Proof.
  apply (GetDepth_serves_first_levels (dec := MoreExamples.readsShuffledBook)
           (DepthRequest.mk "BTCUSDT" 2) (fun _ => Some "{}") "{}" Examples.shuffledBook);
    reflexivity.
Defined.
End ApiProps.

(** ** Helpers (helper.go) *)

Section HelperProps.
Import helper.

(** X26: [MaxFloat] and [MinFloat] return one of their arguments; when
    neither argument is NaN, the result of [MaxFloat] is at or above both
    and the result of [MinFloat] at or below both. *)
Theorem MaxFloat_MinFloat_bound a b :
  PrimFloat.is_nan a = false -> PrimFloat.is_nan b = false ->
  (MaxFloat a b = a \/ MaxFloat a b = b)
  /\ f64_leb a (MaxFloat a b) = true /\ f64_leb b (MaxFloat a b) = true
  /\ (MinFloat a b = a \/ MinFloat a b = b)
  /\ f64_leb (MinFloat a b) a = true /\ f64_leb (MinFloat a b) b = true.
Proof.
  intros Ha Hb. unfold MaxFloat, MinFloat, f64_gtb.
  destruct (PrimFloat.ltb b a) eqn:E1; destruct (PrimFloat.ltb a b) eqn:E2;
    repeat split; auto using f64_leb_refl, f64_ltb_leb;
    try (apply f64_not_lt_ge; assumption).
Qed.

Lemma MaxFloat_MinFloat_bound_witness :
  (MaxFloat 44999 45001 = 44999%float \/ MaxFloat 44999 45001 = 45001%float)
  /\ f64_leb 44999 (MaxFloat 44999 45001) = true
  /\ f64_leb 45001 (MaxFloat 44999 45001) = true
  /\ (MinFloat 44999 45001 = 44999%float \/ MinFloat 44999 45001 = 45001%float)
  /\ f64_leb (MinFloat 44999 45001) 44999 = true
  /\ f64_leb (MinFloat 44999 45001) 45001 = true.
Proof. apply (MaxFloat_MinFloat_bound 44999 45001); reflexivity. Defined.

Lemma validIntervals_keys interval :
  ValidateInterval interval = true ->
  In interval ["1m"; "5m"; "15m"; "30m"; "1h"; "4h"; "1d"; "1w"].
Proof.
  unfold ValidateInterval, validIntervals. intros H.
  repeat match type of H with
         | context [<[?k := _]> _ !! interval] =>
             destruct (decide (interval = k)) as [->|?];
             [simpl; tauto|rewrite lookup_insert_ne in H by congruence]
         end.
  rewrite lookup_empty in H. discriminate.
Qed.

(** X27: the intervals [ValidateInterval] accepts against the candle
    arithmetic.  Every accepted interval but "1w" has a period, and its
    close time is the open time plus that period minus one millisecond, for
    every int64 open time that leaves room for the period below the largest
    int64; "1w" is accepted but has no period: its open time is the
    timestamp itself and its close time the open time, in any zone. *)
Theorem validated_intervals_have_periods interval :
  ValidateInterval interval = true ->
  (0 < periodMs interval
   /\ forall Local openTime,
        int64_min <= openTime <= int64_max - periodMs interval ->
        utils.GetKlineCloseTime Local openTime interval = openTime + periodMs interval - 1)
  \/ (interval = "1w"
      /\ forall Local t,
           utils.GetKlineOpenTime Local t interval = t
           /\ utils.GetKlineCloseTime Local t interval = t).
Proof.
  intros H. apply validIntervals_keys in H. simpl in H.
  destruct H as [<-|[<-|[<-|[<-|[<-|[<-|[<-|[<-|[]]]]]]]]];
    try (left; split; [reflexivity|];
         intros Local openTime Hrange;
         unfold utils.GetKlineCloseTime; simpl String.eqb; cbv iota;
         unfold time.Time_UnixMilli, time.Add, time.UnixMilli; cbn [time.unixMilli];
         rewrite wrap64_pred; unfold periodMs in *; simpl String.eqb in *; cbv iota in *;
         apply wrap64_id; unfold int64_min, int64_max in *;
         unfold time.Minute_ms, time.Hour_ms; lia).
  right. split; [reflexivity|]. intros; split; reflexivity.
Qed.

Lemma validated_intervals_have_periods_witness :
  (0 < periodMs "30m"
   /\ forall Local openTime,
        int64_min <= openTime <= int64_max - periodMs "30m" ->
        utils.GetKlineCloseTime Local openTime "30m" = openTime + periodMs "30m" - 1)
  \/ ("30m" = "1w"
      /\ forall Local t,
           utils.GetKlineOpenTime Local t "30m" = t
           /\ utils.GetKlineCloseTime Local t "30m" = t).
Proof. apply (validated_intervals_have_periods "30m"). reflexivity. Defined.
End HelperProps.

(** ** The candle handler's aggregators (kline.go) *)

Section SixCandlesProps.
Import handler.
Context {S : Type} {store : StorageInterface S} (Local : time.Location).

Lemma append_same_length a : forall b x y,
  String.length x = String.length y ->
  String.append a x = String.append b y -> a = b /\ x = y.
Proof.
  induction a as [|c a IH]; intros b x y Hlen Heq.
  - destruct b as [|c' b]; [simpl in Heq; auto|].
    apply (f_equal String.length) in Heq.
    rewrite !length_append in Heq. simpl in Heq. lia.
  - destruct b as [|c' b].
    + apply (f_equal String.length) in Heq.
      rewrite !length_append in Heq. simpl in Heq. lia.
    + simpl in Heq. injection Heq as -> Heq.
      destruct (IH b x y Hlen Heq) as [-> ->]. auto.
Qed.

Lemma append_assoc a b c :
  String.append (String.append a b) c = String.append a (String.append b c).
Proof.
  induction a as [|x a IH]; [reflexivity|].
  change (String x (String.append (String.append a b) c)
          = String x (String.append a (String.append b c))).
  rewrite IH. reflexivity.
Qed.

(** The keys of two of the six intervals coincide only for the same symbol
    and the same interval. *)
Lemma aggregatorKey_inj s i s' i' :
  In i intervals -> In i' intervals ->
  aggregatorKey s i = aggregatorKey s' i' -> s = s' /\ i = i'.
Proof.
  unfold aggregatorKey, intervals. simpl. intros Hi Hi' Heq.
  assert (Hsame : String.length i = String.length i' -> s = s' /\ i = i').
  { intros Hlen. rewrite <- !append_assoc in Heq.
    destruct (append_same_length _ _ _ _ Hlen Heq) as [Hs ->].
    destruct (append_same_length s s' ":" ":" eq_refl Hs) as [-> _]. auto. }
  assert (Hlong : forall u v tail,
    String.append u (String.append ":15m" "") = String.append v (String.append ":" tail) ->
    String.length tail = 2%nat -> tail <> "5m" -> False).
  { intros u v tail H Hl Hn.
    destruct (append_same_length (String.append u ":1") (String.append v ":") "5m" tail)
      as [_ Ht]; [simpl; lia| |congruence].
    rewrite !append_assoc. exact H. }
  assert (Hfive : forall u v,
    String.append u (String.append ":15m" "") = String.append v (String.append ":" "5m") ->
    False).
  { intros u v H.
    destruct (append_same_length (String.append u ":") v "15m" ":5m") as [_ Ht];
      [reflexivity| |discriminate].
    rewrite append_assoc. exact H. }
  destruct Hi as [<-|[<-|[<-|[<-|[<-|[<-|[]]]]]]];
    destruct Hi' as [<-|[<-|[<-|[<-|[<-|[<-|[]]]]]]];
    try (apply Hsame; reflexivity);
    exfalso;
    first [ apply (Hfive _ _ Heq) | apply (Hfive _ _ (eq_sym Heq))
          | apply (Hlong _ _ _ Heq); [reflexivity|discriminate]
          | apply (Hlong _ _ _ (eq_sym Heq)); [reflexivity|discriminate] ].
Qed.

(** What [AddTrade] leaves in an aggregator whose candle carries its
    symbol and interval. *)
Lemma AddTrade_current a trade s :
  (forall k, KlineAggregator.currentKline a = Some k ->
     Kline.Symbol k = KlineAggregator.symbol a
     /\ Kline.Interval k = KlineAggregator.interval a) ->
  let a' := snd (fst (AddTrade Local a trade s)) in
  KlineAggregator.symbol a' = KlineAggregator.symbol a
  /\ KlineAggregator.interval a' = KlineAggregator.interval a
  /\ exists k, KlineAggregator.currentKline a' = Some k
       /\ Kline.Symbol k = KlineAggregator.symbol a
       /\ Kline.Interval k = KlineAggregator.interval a
       /\ Kline.Close k = Trade.Price trade
       /\ Kline.OpenTime k
          = utils.GetKlineOpenTime Local (Trade.Timestamp trade) (KlineAggregator.interval a).
Proof.
  intros Hk. cbv zeta. unfold AddTrade.
  destruct (KlineAggregator.currentKline a) as [k|] eqn:E.
  - destruct (Hk k eq_refl) as (Hks & Hki).
    destruct (Z.eqb_spec (Kline.OpenTime k)
                (utils.GetKlineOpenTime Local (Trade.Timestamp trade)
                   (KlineAggregator.interval a))) as [Heq|Hne]; simpl.
    + rewrite E. simpl. repeat split. eexists. split; [reflexivity|]. simpl. auto.
    + repeat split. eexists. split; [reflexivity|]. simpl. auto.
  - simpl. repeat split. eexists. split; [reflexivity|]. simpl. auto.
Qed.

(** One turn of the loop of [HandleTrade]. *)
Lemma HandleTrade_turn (h : KlineHandler) trade interval s :
  In interval intervals ->
  wellFiled h ->
  let key := aggregatorKey (Trade.Symbol trade) interval in
  let aggregator := default (NewKlineAggregator (Trade.Symbol trade) interval) (h !! key) in
  let h' := <[key := snd (fst (AddTrade Local aggregator trade s))]> h in
  wellFiled h'
  /\ holdsCandle Local h' trade interval
  /\ forall other, In other intervals -> holdsCandle Local h trade other ->
                   holdsCandle Local h' trade other.
Proof.
  intros Hin Hwf key aggregator h'. unfold KlineHandler in *.
  assert (Hagg : KlineAggregator.symbol aggregator = Trade.Symbol trade
                 /\ KlineAggregator.interval aggregator = interval
                 /\ forall k, KlineAggregator.currentKline aggregator = Some k ->
                      Kline.Symbol k = KlineAggregator.symbol aggregator
                      /\ Kline.Interval k = KlineAggregator.interval aggregator).
  { subst aggregator. destruct (h !! key) as [a0|] eqn:E; simpl.
    - destruct (Hwf key a0 E) as (Hi0 & Hkey & Hk0).
      destruct (aggregatorKey_inj _ _ _ _ Hin Hi0 Hkey) as [-> ->]. auto.
    - split; [reflexivity|]. split; [reflexivity|]. intros k [=]. }
  destruct Hagg as (Hsym & Hint & Hk).
  destruct (AddTrade_current aggregator trade s Hk) as (Hs' & Hi' & k & Hc & Hks & Hki & HC & HO).
  assert (Hhere : holdsCandle Local h' trade interval).
  { exists (snd (fst (AddTrade Local aggregator trade s))), k.
    fold key. subst h'. rewrite Hsym in Hks. rewrite Hint in Hki, HO.
    split; [apply lookup_insert_eq|]. auto 10. }
  split; [|split; [exact Hhere|]].
  - intros key' a' Hl. subst h'. unfold KlineHandler in *.
    destruct (decide (key' = key)) as [->|Hne].
    + rewrite lookup_insert_eq in Hl. injection Hl as <-.
      rewrite Hs', Hi', Hsym, Hint. split; [exact Hin|]. split; [reflexivity|].
      intros k' Hk'. rewrite Hc in Hk'. injection Hk' as <-.
      rewrite <- Hsym, <- Hint. auto.
    + rewrite lookup_insert_ne in Hl by congruence. apply (Hwf key' a' Hl).
  - intros other Ho (a1 & k1 & Hl1 & Hrest).
    destruct (decide (aggregatorKey (Trade.Symbol trade) other = key)) as [Heq|Hne].
    + destruct (aggregatorKey_inj _ _ _ _ Ho Hin Heq) as [_ ->]. exact Hhere.
    + exists a1, k1. subst h'. unfold KlineHandler in *.
      rewrite lookup_insert_ne by congruence. auto.
Qed.

Lemma HandleTrade_fold trade : forall (todo : list string) (h : KlineHandler) (s : S),
  Forall (fun i => In i intervals) todo ->
  wellFiled h ->
  let h' :=
    fst (foldl (A := KlineHandler * S) (fun '(h, s) interval =>
                  let key := String.append (Trade.Symbol trade) (String.append ":" interval) in
                  let aggregator :=
                    default (NewKlineAggregator (Trade.Symbol trade) interval) (h !! key) in
                  let '(_, aggregator, s) := AddTrade Local aggregator trade s in
                  (<[key := aggregator]> h, s))
               (h, s) todo) in
  wellFiled h'
  /\ forall interval, In interval intervals ->
       In interval todo \/ holdsCandle Local h trade interval ->
       holdsCandle Local h' trade interval.
Proof.
  induction todo as [|i todo IH]; intros h s Hall Hwf; simpl.
  - split; [exact Hwf|]. intros interval _ [[]|H]. exact H.
  - inversion Hall as [|? ? Hi Hrest]; subst.
    destruct (HandleTrade_turn h trade i s Hi Hwf) as (Hwf1 & Hhere & Hkeep).
    fold (aggregatorKey (Trade.Symbol trade) i) in *.
    destruct (AddTrade Local _ trade s) as [[e a1] s1] eqn:E. simpl in Hwf1, Hhere, Hkeep.
    destruct (IH (<[aggregatorKey (Trade.Symbol trade) i := a1]> h) s1 Hrest Hwf1)
      as (Hwf2 & Hall2).
    split; [exact Hwf2|].
    intros interval Hin [[<-|Hl]|Hold]; apply Hall2; auto.
Qed.

Lemma HandleTrade_candles (h : KlineHandler) trade s :
  wellFiled h ->
  wellFiled (snd (fst (HandleTrade Local h trade s)))
  /\ forall interval, In interval intervals ->
       holdsCandle Local (snd (fst (HandleTrade Local h trade s))) trade interval.
Proof.
  intros Hwf. unfold HandleTrade.
  assert (Hsix : Forall (fun i => In i intervals) intervals)
    by (apply List.Forall_forall; auto).
  pose proof (HandleTrade_fold trade intervals h s Hsix Hwf) as H.
  cbv zeta in H. revert H.
  match goal with
  | |- context [foldl ?f (h, s) intervals] =>
      destruct (foldl f (h, s) intervals) as [h' s']
  end.
  simpl. intros [Hwf' Hall]. split; [exact Hwf'|].
  intros interval Hin. apply Hall; auto.
Qed.

Lemma handleAll_wellFiled trades s : wellFiled (fst (handleAll Local trades s)).
Proof.
  unfold handleAll.
  assert (Hgen : forall (h : KlineHandler) (s : S), wellFiled h ->
    wellFiled (fst (foldl (fun '(h, s) trade =>
                             let '(_, h, s) := HandleTrade Local h trade s in (h, s))
                          (h, s) trades))).
  { induction trades as [|t trades IH]; intros h0 s0 Hwf; simpl; [exact Hwf|].
    destruct (HandleTrade_candles h0 t s0 Hwf) as [Hwf' _].
    destruct (HandleTrade Local h0 t s0) as [[e h1] s1]. apply IH, Hwf'. }
  apply Hgen. intros key a Hl. unfold KlineHandler in *.
  rewrite lookup_empty in Hl. discriminate.
Qed.

(** X28: the candle handler keeps six candles a symbol.  After any run of
    trades, the last trade's symbol has, for each of the six intervals, an
    aggregator filed under [symbol:interval] whose open candle is the
    candle of that trade's period and closes at its price; and every
    aggregator the handler holds is filed under the key of its own symbol
    and one of the six intervals (there is none for 30m). *)
Theorem handler_keeps_six_candles trades trade s :
  let h := fst (handleAll Local (trades ++ [trade]) s) in
  (forall interval, In interval intervals -> holdsCandle Local h trade interval)
  /\ wellFiled h.
Proof.
  cbv zeta. split; [|apply handleAll_wellFiled].
  pose proof (handleAll_wellFiled trades s) as Hwf.
  unfold handleAll in *. rewrite foldl_app. simpl.
  destruct (foldl _ (∅, s) trades) as [h0 s0]. simpl in Hwf.
  destruct (HandleTrade_candles h0 trade s0 Hwf) as [_ Hall].
  destruct (HandleTrade Local h0 trade s0) as [[e h1] s1]. exact Hall.
Qed.
End SixCandlesProps.

(** ** Hub shutdown (hub.go) *)

Section ShutdownProps.
Import websocket shutdown.

Lemma closeLoop_closes : forall toVisit st,
  NoDup toVisit ->
  (forall r, r ∈ toVisit -> exists c, heap st !! r = Some c /\ Client.sendClosed c = false) ->
  exists st',
    closeLoop toVisit st = Done st'
    /\ clients (hub st') = clients (hub st)
    /\ register (hub st') = register (hub st)
    /\ unregister (hub st') = unregister (hub st)
    /\ broadcast (hub st') = broadcast (hub st)
    /\ (forall r, r ∈ toVisit ->
          option_map Client.sendClosed (heap st' !! r) = Some true
          /\ queueOf st' r = queueOf st r
          /\ forall channel, IsSubscribed (subscriptionManager (hub st')) r channel = false)
    /\ (forall r, r ∉ toVisit ->
          heap st' !! r = heap st !! r
          /\ forall channel, IsSubscribed (subscriptionManager (hub st')) r channel
                             = IsSubscribed (subscriptionManager (hub st)) r channel).
Proof.
  induction toVisit as [|client rest IH]; intros st Hnd Hopen.
  - exists st. simpl. repeat (split; [reflexivity|]).
    split; [intros r Hr; inversion Hr|]. intros r _. split; [reflexivity|]. reflexivity.
  - apply NoDup_cons in Hnd as [Hfresh Hnd].
    destruct (Hopen client) as (c & Hc & Hcopen); [left|].
    simpl. rewrite Hc. unfold closeSend. rewrite Hcopen.
    set (st1 := mkState _ _).
    destruct (IH st1 Hnd) as (st' & Hrun & Hcl & Hreg & Hun & Hbc & Hvisited & Hother).
    { intros r Hr. destruct (Hopen r) as (c' & Hc' & Ho'); [right; exact Hr|].
      exists c'. split; [|exact Ho']. unfold st1. simpl.
      rewrite lookup_insert_ne; [exact Hc'|]. intros ->. contradiction. }
    exists st'. split; [exact Hrun|]. repeat (split; [assumption|]). split.
    + intros r Hr. apply elem_of_cons in Hr as [->|Hr].
      * destruct (Hother client Hfresh) as [Hheap Hsub].
        unfold queueOf. rewrite Hheap. unfold st1. simpl. rewrite lookup_insert_eq, Hc.
        split; [reflexivity|]. split; [reflexivity|].
        intros channel. rewrite Hsub. simpl. apply UnsubscribeAll_self.
      * destruct (Hvisited r Hr) as (Hclosed & Hq & Hsub).
        split; [exact Hclosed|]. split; [|exact Hsub].
        rewrite Hq. unfold queueOf, st1. simpl.
        rewrite lookup_insert_ne; [reflexivity|]. intros ->. contradiction.
    + intros r Hr. apply not_elem_of_cons in Hr as [Hne Hr].
      destruct (Hother r Hr) as [Hheap Hsub]. split.
      * rewrite Hheap. unfold st1. simpl. apply lookup_insert_ne. congruence.
      * intros channel. rewrite Hsub. simpl. apply UnsubscribeAll_other. exact Hne.
Qed.

(** X29: shutting the Hub down.  When every registered client has an open
    send queue, [closeAllClients] completes in whatever order the clients
    are visited: the client set is left empty, every client that was
    registered has its queue closed with what was queued still in it and is
    in no subscription, and clients that were not registered keep their
    queue and their subscriptions. *)
Theorem closeAllClients_closes_everyone range st :
  (forall s, NoDup (range s) /\ forall r, r ∈ range s <-> r ∈ s) ->
  (forall r, r ∈ clients (hub st) ->
     exists c, heap st !! r = Some c /\ Client.sendClosed c = false) ->
  exists st',
    closeAllClients range st = Done st'
    /\ clients (hub st') = ∅
    /\ register (hub st') = register (hub st)
    /\ unregister (hub st') = unregister (hub st)
    /\ broadcast (hub st') = broadcast (hub st)
    /\ (forall r, r ∈ clients (hub st) ->
          option_map Client.sendClosed (heap st' !! r) = Some true
          /\ queueOf st' r = queueOf st r
          /\ forall channel, IsSubscribed (subscriptionManager (hub st')) r channel = false)
    /\ (forall r, r ∉ clients (hub st) ->
          heap st' !! r = heap st !! r
          /\ forall channel, IsSubscribed (subscriptionManager (hub st')) r channel
                             = IsSubscribed (subscriptionManager (hub st)) r channel).
Proof.
  intros Hrange Hopen. unfold closeAllClients.
  destruct (Hrange (clients (hub st))) as [Hnd Hin].
  destruct (closeLoop_closes (range (clients (hub st))) st Hnd)
    as (st' & Hrun & Hcl & Hreg & Hun & Hbc & Hvisited & Hother).
  { intros r Hr. apply Hopen, Hin, Hr. }
  rewrite Hrun. eexists. split; [reflexivity|]. simpl.
  repeat (split; [assumption || reflexivity|]). split.
  - intros r Hr. apply (Hvisited r), Hin, Hr.
  - intros r Hr. apply (Hother r). rewrite Hin. exact Hr.
Qed.

Lemma closeAllClients_closes_everyone_witness :
  exists st',
    closeAllClients elements MoreExamples.oneListener = Done st'
    /\ clients (hub st') = ∅
    /\ register (hub st') = register (hub MoreExamples.oneListener)
    /\ unregister (hub st') = unregister (hub MoreExamples.oneListener)
    /\ broadcast (hub st') = broadcast (hub MoreExamples.oneListener)
    /\ (forall r, r ∈ clients (hub MoreExamples.oneListener) ->
          option_map Client.sendClosed (heap st' !! r) = Some true
          /\ queueOf st' r = queueOf MoreExamples.oneListener r
          /\ forall channel, IsSubscribed (subscriptionManager (hub st')) r channel = false)
    /\ (forall r, r ∉ clients (hub MoreExamples.oneListener) ->
          heap st' !! r = heap MoreExamples.oneListener !! r
          /\ forall channel,
               IsSubscribed (subscriptionManager (hub st')) r channel
               = IsSubscribed (subscriptionManager (hub MoreExamples.oneListener)) r channel).
Proof.
  apply (closeAllClients_closes_everyone elements MoreExamples.oneListener).
  - intros s. split; [apply NoDup_elements|]. intros r. apply elem_of_elements.
  - intros r Hr.
    change (r ∈ ({[1%nat; 2%nat]} : gset nat)) in Hr.
    apply elem_of_union in Hr as [Hr|Hr]; apply elem_of_singleton in Hr; subst r.
    + exists (NewClient "c-1"). split; reflexivity.
    + exists (NewClient "c-2"). split; reflexivity.
Defined.
End ShutdownProps.

(** ** From the depth handler to the depth endpoint *)

Section DepthPipelineProps.
Import handler api.
Context {enc : utils.JSONEncoder} {dec : JSONDecoder}.

Lemma redisGet_after_set s before cmds key data ttl :
  storage.executed s = before ++ storage.Set_ key data ttl :: cmds ->
  (forall k v t, In (storage.Set_ k v t) cmds -> False) ->
  redisGet s key = Some data.
Proof.
  intros Hexec Hnone. unfold redisGet. rewrite Hexec, omap_app.
  set (f := fun c => match c with
                     | storage.Set_ k v _ => if String.eqb k key then Some v else None
                     | _ => None
                     end).
  assert (Hrest : omap f cmds = []).
  { clear Hexec. induction cmds as [|c cmds IH]; [reflexivity|].
    change (omap f (c :: cmds))
      with (match f c with Some y => y :: omap f cmds | None => omap f cmds end).
    destruct c; simpl; try (apply IH; intros k v t Hin; apply (Hnone k v t); right; exact Hin).
    exfalso. eapply Hnone. left. reflexivity. }
  change (omap f (storage.Set_ key data ttl :: cmds))
    with (match f (storage.Set_ key data ttl) with
          | Some y => y :: omap f cmds
          | None => omap f cmds
          end).
  subst f. cbv beta iota. rewrite String.eqb_refl, Hrest. apply last_snoc.
Qed.

(** X30: from the depth handler to the depth endpoint.  Once the
    processor has handled a book for a symbol and Redis has taken the
    write, the API's [GetDepth] for that symbol answers with the first
    [limit] levels of each side of that book as [sortDepth] ordered it,
    provided the stored text decodes to the book it encodes. *)
Theorem handled_depth_is_served (h : DepthHandler) depth (s : storage.RedisStorage) req data :
  (forall m, h !! OrderBook.Symbol depth = Some m ->
             DepthManager.symbol m = OrderBook.Symbol depth) ->
  DepthRequest.Symbol req = OrderBook.Symbol depth ->
  storage.fails s (storage.issued s) = false ->
  utils.ToJSON (PDepth (sortedBook (OrderBook.Symbol depth) depth)) = Some data ->
  Unmarshal_OrderBook data = Some (sortedBook (OrderBook.Symbol depth) depth) ->
  GetDepth req (redisGet (snd (HandleDepth h depth s)))
  = Ok (DepthResponse.mk (OrderBook.Symbol depth)
          (map (fun level => PriceLevel.mk (models_Price level) (models_Amount level))
               (take (Z.to_nat (DepthRequest.Limit req))
                     (OrderBook.Bids (sortedBook (OrderBook.Symbol depth) depth))))
          (map (fun level => PriceLevel.mk (models_Price level) (models_Amount level))
               (take (Z.to_nat (DepthRequest.Limit req))
                     (OrderBook.Asks (sortedBook (OrderBook.Symbol depth) depth))))
          (OrderBook.Timestamp depth)).
Proof.
  intros Hsym Hreq Hok Henc Hdec.
  assert (Hm : DepthManager.symbol
                 (default (NewDepthManager (OrderBook.Symbol depth))
                          (h !! OrderBook.Symbol depth)) = OrderBook.Symbol depth).
  { destruct (h !! OrderBook.Symbol depth) as [m|]; simpl; [apply Hsym|]; reflexivity. }
  assert (Hget : redisGet (snd (HandleDepth h depth s))
                          (String.append constants.RedisKeyDepth (OrderBook.Symbol depth))
                 = Some data).
  { assert (Hs : snd (HandleDepth h depth s)
                 = snd (storage.SaveDepth (sortedBook (OrderBook.Symbol depth) depth) s)).
    { unfold HandleDepth.
      set (manager := default (NewDepthManager (OrderBook.Symbol depth))
                              (h !! OrderBook.Symbol depth)) in *.
      unfold UpdateDepth, sortDepth. cbn [DepthManager.symbol DepthManager.bids
                                          DepthManager.asks].
      rewrite Hm. fold (sortedBook (OrderBook.Symbol depth) depth).
      change (@SaveDepth storage.RedisStorage RedisStorage_StorageInterface)
        with (@storage.SaveDepth enc).
      destruct (storage.SaveDepth _ s) as [e s']. reflexivity. }
    rewrite Hs. unfold storage.SaveDepth. rewrite Henc.
    unfold storage.request at 1. rewrite Hok.
    cbn [negb sortedBook OrderBook.Symbol].
    unfold storage.request. cbn [storage.fails storage.issued storage.executed].
    destruct (storage.fails s (S (storage.issued s))); cbn [snd].
    - eapply (redisGet_after_set _ (storage.executed s)
                (storage.marked (storage.reached s (S (storage.issued s)))
                                [storage.Publish _ _])).
      + simpl. rewrite <- app_assoc. reflexivity.
      + intros k v t Hin. apply list_elem_of_In in Hin.
        pose proof (sublist_submseteq _ _
                      (marked_sublist (storage.reached s (S (storage.issued s)))
                         [storage.Publish
                            (storage.Sprintf_ss_colon_s constants.RedisChannelMarket
                               (OrderBook.Symbol depth) constants.DataTypeDepth) data]))
          as Hsub.
        apply (elem_of_submseteq _ _ _ Hin) in Hsub.
        apply list_elem_of_singleton in Hsub. discriminate.
    - eapply (redisGet_after_set _ (storage.executed s) [storage.Publish _ _]).
      + simpl. rewrite <- app_assoc. reflexivity.
      + intros k v t [Hin|[]]. discriminate. }
  unfold GetDepth. rewrite Hreq, Hget, Hdec, !copyLevels_take. reflexivity.
Qed.
End DepthPipelineProps.

Lemma handled_depth_is_served_witness :
  api.GetDepth (dec := MoreExamples.readsSortedBook) (api.DepthRequest.mk "BTCUSDT" 2)
    (redisGet (snd (handler.HandleDepth ∅ Examples.shuffledBook Examples.reliableRedis)))
  = api.Ok (api.DepthResponse.mk "BTCUSDT"
              [api.PriceLevel.mk 44999 1.5; api.PriceLevel.mk 44998 2]
              [api.PriceLevel.mk 45001 0.5; api.PriceLevel.mk 45002 4]
              Examples.t0).
Proof.
  apply (handled_depth_is_served (dec := MoreExamples.readsSortedBook) ∅ Examples.shuffledBook
           Examples.reliableRedis (api.DepthRequest.mk "BTCUSDT" 2) "{}").
  - intros m Hm. unfold handler.DepthHandler in *. rewrite lookup_empty in Hm. discriminate.
  - reflexivity.
  - reflexivity.
  - reflexivity.
  - reflexivity.
Defined.
